(** * TodayEcho: the Echo roll command and its daily ledger

    A shallow embedding of [todayecho_echo/__init__.py]: the reward
    generator [generate_phantom_stats], the roll-count parser and quota
    check of [gacha_phantom_command], the ledger files read by
    [load_records] and written by [save_records], and [show_gacha_history].

    Conventions.
    - A Python [str] is the list of its code points ([pystr]); literals are
      written as UTF-8 string literals and decoded by [u].
    - A Python [int] is a [Z]; a number loaded from the JSON configuration
      (an [int] or a finite [float]) is the rational it denotes, since the
      program only selects and compares such numbers.
    - A [dict] is a [gmap]; the per-user file is a [gmap] from file owner to
      file content.
    - Randomness is a tape of raw draws consumed from the left; every call
      into [random] takes its draws from the tape and returns the rest.
    - An exception is a value of [exn]; a computation that may raise returns
      a [result]. An exception that leaves a handler is the last event of
      its run, [Raised]. *)

From Stdlib Require Import ZArith NArith QArith Lia.
From Stdlib Require Floats Uint63.
From stdpp Require Import base option list strings gmap.

Close Scope Q_scope.
Local Open Scope Z_scope.

(** ** Python strings *)

Abbreviation pystr := (list N).

(** UTF-8 decoding of a literal: [pending] continuation bytes are still
    expected and [acc] holds the bits read so far. *)
Fixpoint utf8_decode (pending : nat) (acc : N) (bs : list N) : pystr :=
  match bs with
  | [] => []
  | b :: bs' =>
      match pending with
      | O =>
          if (b <? 0x80)%N then b :: utf8_decode 0 0%N bs'
          else if (b <? 0xE0)%N then utf8_decode 1 (N.land b 0x1F) bs'
          else if (b <? 0xF0)%N then utf8_decode 2 (N.land b 0x0F) bs'
          else utf8_decode 3 (N.land b 0x07) bs'
      | S O => N.lor (N.shiftl acc 6) (N.land b 0x3F) :: utf8_decode 0 0%N bs'
      | S p => utf8_decode p (N.lor (N.shiftl acc 6) (N.land b 0x3F)) bs'
      end
  end.

Definition u (s : string) : pystr :=
  utf8_decode 0 0%N (map Ascii.N_of_ascii (String.list_ascii_of_string s)).

Definition starts_with (old s : pystr) : bool :=
  bool_decide (take (length old) s = old).

(** [str.replace(old, new)]: left to right, non-overlapping. [skip] counts
    the characters of an occurrence that remain to be dropped. For an empty
    [old] Python puts [new] before every character and at the end. *)
Fixpoint replace_from (old new : pystr) (skip : nat) (s : pystr) : pystr :=
  match s with
  | [] => []
  | c :: s' =>
      match skip with
      | S k => replace_from old new k s'
      | O =>
          if starts_with old s
          then new ++ replace_from old new (length old - 1) s'
          else c :: replace_from old new 0 s'
      end
  end.

Definition replace (old new s : pystr) : pystr :=
  match old with
  | [] => new ++ flat_map (fun c => c :: new) s
  | _ => replace_from old new 0 s
  end.

(** [sub in s] for strings. *)
Fixpoint contains (sub s : pystr) : bool :=
  starts_with sub s ||
  match s with
  | [] => false
  | _ :: s' => contains sub s'
  end.

(** [str(n)] for an [int]. *)
Fixpoint digits_of_pos (fuel : nat) (n : N) (acc : pystr) : pystr :=
  match fuel with
  | O => acc
  | S fuel' =>
      let acc' := (0x30 + n mod 10)%N :: acc in
      if (n <? 10)%N then acc' else digits_of_pos fuel' (n / 10)%N acc'
  end.

Definition str_of_int (z : Z) : pystr :=
  let body := digits_of_pos (S (N.to_nat (N.log2 (Z.abs_N z)))) (Z.abs_N z) [] in
  if z <? 0 then 0x2D%N :: body else body.

(** The characters of Unicode category Nd, which [\d] matches in a [str]
    pattern and [int()] accepts. They come in runs of ten consecutive code
    points with values 0 to 9; the table lists the first code point of each
    run (Unicode 14.0). *)
Definition decimal_runs : list N :=
  [ 0x30; 0x660; 0x6F0; 0x7C0; 0x966; 0x9E6; 0xA66; 0xAE6; 0xB66; 0xBE6;
    0xC66; 0xCE6; 0xD66; 0xDE6; 0xE50; 0xED0; 0xF20; 0x1040; 0x1090; 0x17E0;
    0x1810; 0x1946; 0x19D0; 0x1A80; 0x1A90; 0x1B50; 0x1BB0; 0x1C40; 0x1C50;
    0xA620; 0xA8D0; 0xA900; 0xA9D0; 0xA9F0; 0xAA50; 0xABF0; 0xFF10; 0x104A0;
    0x10D30; 0x11066; 0x110F0; 0x11136; 0x111D0; 0x112F0; 0x11450; 0x114D0;
    0x11650; 0x116C0; 0x11730; 0x118E0; 0x11950; 0x11C50; 0x11D50; 0x11DA0;
    0x16A60; 0x16AC0; 0x16B50; 0x1D7CE; 0x1D7D8; 0x1D7E2; 0x1D7EC; 0x1D7F6;
    0x1E140; 0x1E2F0; 0x1E950; 0x1FBF0 ]%N.

Fixpoint decimal_in (runs : list N) (c : N) : option Z :=
  match runs with
  | [] => None
  | r :: runs' =>
      if ((r <=? c) && (c <? r + 10))%N then Some (Z.of_N (c - r))
      else decimal_in runs' c
  end.

Definition decimal_value (c : N) : option Z := decimal_in decimal_runs c.

Definition is_digit (c : N) : bool :=
  match decimal_value c with Some _ => true | None => false end.

(** [re.search(r'(\d+)', s)]: the leftmost digit and the longest run of
    digits from there; [None] when [s] has no digit. *)
Fixpoint digit_run (s : pystr) : pystr :=
  match s with
  | [] => []
  | c :: s' => if is_digit c then c :: digit_run s' else []
  end.

Fixpoint re_search_digits (s : pystr) : option pystr :=
  match s with
  | [] => None
  | c :: s' => if is_digit c then Some (digit_run s) else re_search_digits s'
  end.

(** ** Exceptions *)

Inductive exn :=
  | ValueError          (* random.sample with a negative or oversized k; max()
                           of nothing; int() of more digits than allowed *)
  | IndexError          (* random.choice from an empty sequence *)
  | RenderError         (* anything raised while drawing or sending an image *)
  | UnicodeDecodeError  (* reading a file whose bytes are not UTF-8 *)
  | AttributeError.     (* [.get] on a value that is no dict *)

Inductive result (A : Type) :=
  | Ok (a : A)
  | Raise (e : exn).
Arguments Ok {A} a.
Arguments Raise {A} e.

(** The number a string of decimal digits denotes. *)
Definition int_of_digits (ds : pystr) : Z :=
  fold_left (fun acc c => 10 * acc + default 0 (decimal_value c)) ds 0.

(** [sys.int_max_str_digits], at CPython's default. *)
Definition int_max_str_digits : Z := 4300.

(** [int(ds)] on a string of decimal digits: CPython raises [ValueError]
    when the string has more than [int_max_str_digits] digits, leading
    zeros counted. *)
Definition py_int (ds : pystr) : result Z :=
  if int_max_str_digits <? Z.of_nat (length ds) then Raise ValueError
  else Ok (int_of_digits ds).

(** ** The roll-count parser of [gacha_phantom_command] *)

(** [cn_num_map], in insertion order, which is the order [items()] yields. *)
Definition cn_num_map : list (pystr * Z) :=
  [ (u "零", 0); (u "一", 1); (u "二", 2); (u "三", 3); (u "四", 4);
    (u "五", 5); (u "六", 6); (u "七", 7); (u "八", 8); (u "九", 9);
    (u "十", 10);
    (u "十一", 11); (u "十二", 12); (u "十三", 13); (u "十四", 14);
    (u "十五", 15); (u "十六", 16); (u "十七", 17); (u "十八", 18);
    (u "十九", 19); (u "二十", 20);
    (u "两", 2); (u "俩", 2);
    (u "①", 1); (u "②", 2); (u "③", 3); (u "④", 4); (u "⑤", 5);
    (u "⑥", 6); (u "⑦", 7); (u "⑧", 8); (u "⑨", 9); (u "⑩", 10) ].

(** [for key, value in cn_num_map.items(): text = text.replace(key, str(value))] *)
Definition substitute_numerals (text : pystr) : pystr :=
  fold_left (fun t kv => replace kv.1 (str_of_int kv.2) t) cn_num_map text.

(** [roll_count = int(match.group(1)) if match and int(match.group(1)) > 0 else 1]:
    the condition is evaluated first, and either [int] call may raise. *)
Definition roll_count_of_match (m : option pystr) : result Z :=
  match m with
  | Some ds =>
      match py_int ds with
      | Ok n => if 0 <? n then py_int ds else Ok 1
      | Raise e => Raise e
      end
  | None => Ok 1
  end.

Definition parse_roll_count (text : pystr) : result Z :=
  roll_count_of_match (re_search_digits (substitute_numerals text)).

(** ** Computations that draw from the random tape *)

Definition rng := list nat.

Definition M (A : Type) : Type := rng -> result A * rng.

Definition ret {A} (a : A) : M A := fun r => (Ok a, r).
Definition raise {A} (e : exn) : M A := fun r => (Raise e, r).
Definition bind {A B} (m : M A) (k : A -> M B) : M B :=
  fun r =>
    match m r with
    | (Ok a, r') => k a r'
    | (Raise e, r') => (Raise e, r')
    end.
Definition lift {A} (x : result A) : M A := fun r => (x, r).

Notation "'let*' x := m 'in' k" := (bind m (fun x => k))
  (at level 10, x name, m at level 100, k at level 200).

(** The next raw draw; an exhausted tape keeps yielding 0. *)
Definition next_draw : M nat :=
  fun r => match r with
           | [] => (Ok 0%nat, [])
           | x :: r' => (Ok x, r')
           end.

(** [_randbelow(n)], for [n > 0]: a value in [0, n). *)
Definition randbelow (n : nat) : M nat :=
  let* x := next_draw in ret (x mod n)%nat.

(** [random.random() < 0.2] *)
Definition random_below_fifth : M bool :=
  let* x := next_draw in ret (x mod 5 =? 0)%nat.

(** [random.sample(population, k)]. The loop is CPython's selection from a
    pool: [j = randbelow(n - i); result[i] = pool[j]; pool[j] = pool[n-i-1]].
    (For populations of more than 21 elements CPython may instead redraw an
    index until it is a new one; the lists it can return are the same.) *)
Fixpoint sample_loop {A} (pool : list A) (n todo i : nat) : M (list A) :=
  match todo with
  | O => ret []
  | S todo' =>
      let* j := randbelow (n - i) in
      match pool !! j, pool !! (n - i - 1)%nat with
      | Some x, Some y =>
          let* rest := sample_loop (<[j := y]> pool) n todo' (S i) in
          ret (x :: rest)
      | _, _ => raise IndexError
      end
  end.

Definition sample {A} (population : list A) (k : Z) : M (list A) :=
  let n := length population in
  if (k <? 0) || (Z.of_nat n <? k) then raise ValueError
  else sample_loop population n (Z.to_nat k) 0.

(** [random.choice(seq)] *)
Definition choice {A} (seq : list A) : M A :=
  match seq with
  | [] => raise IndexError
  | _ =>
      let* j := randbelow (length seq) in
      match seq !! j with
      | Some x => ret x
      | None => raise IndexError
      end
  end.

(** [max(values)]: the first of the largest items. *)
Definition py_max (l : list Q) : result Q :=
  match l with
  | [] => Raise ValueError
  | x :: l' =>
      Ok (fold_left (fun m item => if Qle_bool item m then m else item) l' x)
  end.

(** ** Configuration and rolled stats *)

Record StatConfig := {
  cfg_name : string;
  cfg_icon : string;
  values : list Q;
  cfg_is_percent : bool
}.

(** [daily_limit] and [white_list] are read with [.get] and may be absent;
    [stats_count] is read with a subscript. *)
Record Settings := {
  daily_limit : option Z;
  white_list : option (list string);
  stats_count : Z
}.

Record Config := {
  substats : list StatConfig;
  settings : Settings
}.

Record PhantomStat := {
  name : string;
  icon : string;
  value : Q;
  is_percent : bool;
  is_max : bool
}.

(** The body of the [for stat_config in selected_configs] loop. *)
Definition roll_stat (stat_config : StatConfig) : M PhantomStat :=
  let* v := choice (values stat_config) in
  let* m := lift (py_max (values stat_config)) in
  ret {| name := cfg_name stat_config;
         icon := cfg_icon stat_config;
         value := v;
         is_percent := cfg_is_percent stat_config;
         is_max := Qeq_bool v m |}.

Fixpoint roll_stats (selected_configs : list StatConfig) : M (list PhantomStat) :=
  match selected_configs with
  | [] => ret []
  | stat_config :: rest =>
      let* s := roll_stat stat_config in
      let* stats := roll_stats rest in
      ret (s :: stats)
  end.

Definition generate_phantom_stats (config : Config) : M (list PhantomStat) :=
  let num_to_sample :=
    Z.min (stats_count (settings config)) (Z.of_nat (length (substats config))) in
  let* selected_configs := sample (substats config) num_to_sample in
  roll_stats selected_configs.

(** The configuration [load_config] writes when the file does not exist. *)
Definition eight_steps : list Q :=
  [11.6; 10.9; 10.1; 9.4; 8.6; 7.9; 7.1; 6.4]%Q.

Definition default_config : Config :=
  {| substats :=
       [ {| cfg_name := "攻击"; cfg_icon := "攻击";
            values := [50; 40; 30]%Q; cfg_is_percent := false |};
         {| cfg_name := "攻击"; cfg_icon := "攻击";
            values := eight_steps; cfg_is_percent := true |};
         {| cfg_name := "生命"; cfg_icon := "生命";
            values := [580; 540; 510; 470; 430; 390; 360; 320]%Q;
            cfg_is_percent := false |};
         {| cfg_name := "生命"; cfg_icon := "生命";
            values := eight_steps; cfg_is_percent := true |};
         {| cfg_name := "防御"; cfg_icon := "防御";
            values := [60; 50; 40]%Q; cfg_is_percent := false |};
         {| cfg_name := "防御"; cfg_icon := "防御";
            values := [14.7; 13.8; 12.8; 11.8; 10.9; 10.0; 9.0; 8.1]%Q;
            cfg_is_percent := true |};
         {| cfg_name := "暴击"; cfg_icon := "暴击";
            values := [10.5; 9.9; 9.3; 8.7; 8.1; 7.5; 6.9; 6.3]%Q;
            cfg_is_percent := true |};
         {| cfg_name := "暴击伤害"; cfg_icon := "暴击伤害";
            values := [21.0; 19.8; 18.6; 17.4; 16.2; 15.0; 13.8; 12.6]%Q;
            cfg_is_percent := true |};
         {| cfg_name := "共鸣效率"; cfg_icon := "共鸣效率";
            values := eight_steps; cfg_is_percent := true |};
         {| cfg_name := "普攻伤害加成"; cfg_icon := "普攻伤害加成";
            values := eight_steps; cfg_is_percent := true |};
         {| cfg_name := "重击伤害加成"; cfg_icon := "重击伤害加成";
            values := eight_steps; cfg_is_percent := true |};
         {| cfg_name := "共鸣技能伤害加成"; cfg_icon := "共鸣技能伤害加成";
            values := eight_steps; cfg_is_percent := true |};
         {| cfg_name := "共鸣解放伤害加成"; cfg_icon := "共鸣解放伤害加成";
            values := eight_steps; cfg_is_percent := true |} ];
     settings :=
       {| daily_limit := Some 20;
          white_list := Some ["644572093"%string];
          stats_count := 5 |} |}.

(** ** The ledger files *)

(** [PhantomStat.to_dict] and [PhantomStat.from_dict]: the JSON object
    [{name, icon, value, is_percent, is_max}]. *)
Record StatDict := {
  d_name : string;
  d_icon : string;
  d_value : Q;
  d_is_percent : bool;
  d_is_max : bool
}.

Definition to_dict (s : PhantomStat) : StatDict :=
  {| d_name := name s; d_icon := icon s; d_value := value s;
     d_is_percent := is_percent s; d_is_max := is_max s |}.

Definition from_dict (d : StatDict) : PhantomStat :=
  {| name := d_name d; icon := d_icon d; value := d_value d;
     is_percent := d_is_percent d; is_max := d_is_max d |}.

(** One roll as stored, the rolls of one user, and the document of a file:
    [{ date: { user_id: [ [stat, ...], ... ] } }]. *)
Definition RollRecord := list StatDict.
Abbreviation DayRecords := (gmap string (list RollRecord)).
Abbreviation Document := (gmap string DayRecords).

(** What a file of [DATA_PATH] holds.
    - [Parsed d]: the JSON text of a document, as [save_records] writes it.
    - [Unparsable]: text that is not JSON, on which [json.load] raises
      [json.JSONDecodeError]; an empty file is of this kind.
    - [Undecodable]: bytes that are not UTF-8, on which reading raises
      [UnicodeDecodeError].
    - [NotAnObject]: the JSON text of a list, a string, a number, [true],
      [false] or [null].
    A JSON object whose entries have another shape than the handlers store
    is not modelled; the handlers themselves write [Parsed] files only. *)
Inductive file :=
  | Parsed (d : Document)
  | Unparsable
  | Undecodable
  | NotAnObject.

(** [DATA_PATH], by the [user_id] in the file name [{user_id}.json]. *)
Abbreviation Files := (gmap string file).

(** What [json.load] hands back: a dict, or a value of another type. *)
Inductive loaded :=
  | Dict (d : Document)
  | NoDict.

(** [load_records] catches [json.JSONDecodeError] only. *)
Definition load_records (fs : Files) (user_id : string) : result loaded :=
  match fs !! user_id with
  | Some (Parsed d) => Ok (Dict d)
  | Some Unparsable => Ok (Dict ∅)
  | Some Undecodable => Raise UnicodeDecodeError
  | Some NotAnObject => Ok NoDict
  | None => Ok (Dict ∅)
  end.

Definition save_records (user_id : string) (records : Document) (fs : Files) : Files :=
  <[user_id := Parsed records]> fs.

(** ** Limits: an [int], or [math.inf] for a whitelisted user *)

Inductive limit :=
  | Finite (z : Z)
  | Inf.

(** [l - z], [l * z] for a positive [z], [l <= 0] and [count > l]. *)
Definition limit_sub (l : limit) (z : Z) : limit :=
  match l with Finite x => Finite (x - z) | Inf => Inf end.

Definition limit_mul (l : limit) (z : Z) : limit :=
  match l with Finite x => Finite (x * z) | Inf => Inf end.

Definition limit_le0 (l : limit) : bool :=
  match l with Finite x => x <=? 0 | Inf => false end.

Definition exceeds (count : Z) (l : limit) : bool :=
  match l with Finite x => x <? count | Inf => false end.

Definition str_of_limit (l : limit) : pystr :=
  match l with Finite x => str_of_int x | Inf => u "inf" end.

(** ** Images, messages and the events of one command *)

(** What [draw_single_result_card] is given, and what [add_footer] is given
    on top of the cards. *)
Record card := {
  card_stats : list PhantomStat;
  roll_number : Z
}.

Record final_image := {
  image_objects : list card;
  footer_user_name : string;
  tuners_remaining : limit
}.

Inductive message :=
  | Text (t : pystr)
  | Image (img : final_image).

Definition help_text : pystr := u " 梭哈可以跟随次数，如：梭哈5次".
Definition exhausted_text : pystr := u " 你今天的调谐器已经用完啦！".
Definition insufficient_text (rolls_remaining : limit) : pystr :=
  u " 你的调谐器不足！剩余调谐器 " ++ str_of_limit (limit_mul rolls_remaining 50) ++ u "！".
Definition no_history_text : pystr := u " 你今天还没有梭哈过声骸呢！".

Inductive event :=
  | Sent (m : message)                              (* bot.send *)
  | Generated (stats : list PhantomStat)            (* generate_phantom_stats returned *)
  | CardDrawn (c : card)                            (* draw_single_result_card returned *)
  | Saved (user_id : string) (records : Document)   (* save_records *)
  | LoggedInfo                                      (* logger.info *)
  | LoggedException (e : exn)                       (* logger.exception *)
  | Raised (e : exn).                               (* the exception leaves the handler *)

(** The image collaborator: whether drawing one card returns, and whether
    combining, adding the footer, converting and sending return. *)
Record Renderer := {
  card_ok : list PhantomStat -> Z -> bool;
  final_ok : final_image -> bool
}.

Record World := {
  files : Files;
  tape : rng
}.

(** ** [gacha_phantom_command] *)

Definition history_words (text : pystr) : bool :=
  contains (u "列表") text || contains (u "结果") text.

(** [limit = config["settings"].get("daily_limit", 20)], replaced by
    [math.inf] when [user_id in config["settings"].get("white_list", [])]. *)
Definition roll_limit (config : Config) (user_id : string) : limit :=
  if bool_decide (user_id ∈ default [] (white_list (settings config)))
  then Inf
  else Finite (default 20 (daily_limit (settings config))).

(** [all_records.get(today_str, {})] and [records_today.get(user_id, [])]. *)
Definition records_today_of (all_records : Document) (today_str : string) : DayRecords :=
  default ∅ (all_records !! today_str).

(** [all_records.get(today_str, {})] on what [load_records] returned: a
    value that is no dict has no [get]. *)
Definition get_today (all_records : loaded) (today_str : string) : result DayRecords :=
  match all_records with
  | Dict d => Ok (records_today_of d today_str)
  | NoDict => Raise AttributeError
  end.

Definition user_daily_results_of (records_today : DayRecords) (user_id : string)
  : list RollRecord :=
  default [] (records_today !! user_id).

Section Command.
Variable R : Renderer.
Variable config : Config.

(** The [for i in range(roll_count)] loop, from iteration [i] with [todo]
    iterations left: the records and cards appended from here on, the
    tape, and the events in order. The first exception ends the loop. *)
Fixpoint roll_loop (rolls_done : Z) (todo : nat) (i : Z) (r : rng)
  : result (list RollRecord * list card) * rng * list event :=
  match todo with
  | O => (Ok ([], []), r, [])
  | S todo' =>
      match generate_phantom_stats config r with
      | (Raise e, r1) => (Raise e, r1, [])
      | (Ok stats, r1) =>
          let n := rolls_done + i + 1 in
          if card_ok R stats n then
            let img := {| card_stats := stats; roll_number := n |} in
            match roll_loop rolls_done todo' (i + 1) r1 with
            | (Ok (recs, imgs), r2, evs) =>
                (Ok (map to_dict stats :: recs, img :: imgs), r2,
                 Generated stats :: CardDrawn img :: evs)
            | (Raise e, r2, evs) =>
                (Raise e, r2, Generated stats :: CardDrawn img :: evs)
            end
          else (Raise RenderError, r1, [Generated stats])
      end
  end.

(** The body of the [try]: the loop, then [save_records], then the final
    image and its sending; [except Exception] logs whatever was raised. *)
Definition roll_and_reply (today_str user_id user_name : string)
    (records_today : DayRecords) (rolls_remaining : limit) (roll_count : Z)
    (w : World) : World * list event :=
  let user_daily_results := user_daily_results_of records_today user_id in
  let rolls_done := Z.of_nat (length user_daily_results) in
  match roll_loop rolls_done (Z.to_nat roll_count) 0 (tape w) with
  | (Raise e, r, evs) =>
      ({| files := files w; tape := r |}, evs ++ [LoggedException e])
  | (Ok (new_stats_records, imgs), r, evs) =>
      let records_today' :=
        <[user_id := user_daily_results ++ new_stats_records]> records_today in
      let all_records : Document := {[ today_str := records_today' ]} in
      let w' := {| files := save_records user_id all_records (files w);
                   tape := r |} in
      let final_tuners_remaining := limit_sub rolls_remaining roll_count in
      let final_img := {| image_objects := imgs;
                          footer_user_name := user_name;
                          tuners_remaining := final_tuners_remaining |} in
      if final_ok R final_img
      then (w', evs ++ [Saved user_id all_records; Sent (Image final_img); LoggedInfo])
      else (w', evs ++ [Saved user_id all_records; LoggedException RenderError])
  end.

(** [if (not match or roll_count < 1) and random.random() < 0.2: bot.send(...)]:
    the draw is taken only when the first condition holds. *)
Definition maybe_help (match_ : option pystr) (roll_count : Z) (r : rng)
  : list event * rng :=
  if negb (bool_decide (is_Some match_)) || (roll_count <? 1)
  then match random_below_fifth r with
       | (Ok true, r') => ([Sent (Text help_text)], r')
       | (_, r') => ([], r')
       end
  else ([], r).

(** What follows [load_records] and the first [get]: the quota check and,
    for a request that passes, the body of the [try]. *)
Definition check_and_roll (today_str user_id user_name : string)
    (records_today : DayRecords) (roll_count : Z) (help : list event)
    (w1 : World) : World * list event :=
  let limit := roll_limit config user_id in
  let user_daily_results := user_daily_results_of records_today user_id in
  let rolls_done := Z.of_nat (length user_daily_results) in
  let rolls_remaining := limit_sub limit rolls_done in
  if limit_le0 rolls_remaining
  then (w1, help ++ [Sent (Text exhausted_text)])
  else if exceeds roll_count rolls_remaining
  then (w1, help ++ [Sent (Text (insufficient_text rolls_remaining))])
  else
    let '(w2, evs) :=
      roll_and_reply today_str user_id user_name records_today
                     rolls_remaining roll_count w1 in
    (w2, help ++ evs).

(** The handler. The conversion of the digits, [load_records] and the
    first [get] stand before the [try]: what they raise leaves the
    handler. *)
Definition gacha_phantom_command (today_str user_id user_name : string)
    (text : pystr) (w : World) : World * list event :=
  if history_words text then (w, [])
  else
    let text' := substitute_numerals text in
    let match_ := re_search_digits text' in
    match roll_count_of_match match_ with
    | Raise e => (w, [Raised e])
    | Ok roll_count =>
        let '(help, r) := maybe_help match_ roll_count (tape w) in
        let w1 := {| files := files w; tape := r |} in
        match load_records (files w) user_id with
        | Raise e => (w1, help ++ [Raised e])
        | Ok all_records =>
            match get_today all_records today_str with
            | Raise e => (w1, help ++ [Raised e])
            | Ok records_today =>
                check_and_roll today_str user_id user_name records_today
                               roll_count help w1
            end
        end
    end.

(** ** [show_gacha_history] *)

(** The [for i, result_data in enumerate(user_daily_results)] loop. *)
Fixpoint history_loop (results : list RollRecord) (i : Z)
  : result (list card) * list event :=
  match results with
  | [] => (Ok [], [])
  | result_data :: rest =>
      let stats := map from_dict result_data in
      if card_ok R stats (i + 1) then
        let img := {| card_stats := stats; roll_number := i + 1 |} in
        match history_loop rest (i + 1) with
        | (Ok imgs, evs) => (Ok (img :: imgs), CardDrawn img :: evs)
        | (Raise e, evs) => (Raise e, CardDrawn img :: evs)
        end
      else (Raise RenderError, [])
  end.

(** What follows [load_records] and the first [get]. *)
Definition show_records (user_id user_name : string) (records_today : DayRecords)
    (w : World) : World * list event :=
  let limit := default 6 (daily_limit (settings config)) in
  match records_today !! user_id with
  | None | Some [] => (w, [Sent (Text no_history_text)])
  | Some user_daily_results =>
      match history_loop user_daily_results 0 with
      | (Raise e, evs) => (w, evs ++ [LoggedException e])
      | (Ok imgs, evs) =>
          let remaining := Finite (limit - Z.of_nat (length user_daily_results)) in
          let final_img := {| image_objects := imgs;
                              footer_user_name := user_name;
                              tuners_remaining := remaining |} in
          if final_ok R final_img
          then (w, evs ++ [Sent (Image final_img)])
          else (w, evs ++ [LoggedException RenderError])
      end
  end.

Definition show_gacha_history (today_str user_id user_name : string)
    (w : World) : World * list event :=
  match load_records (files w) user_id with
  | Raise e => (w, [Raised e])
  | Ok all_records =>
      match get_today all_records today_str with
      | Raise e => (w, [Raised e])
      | Ok records_today => show_records user_id user_name records_today w
      end
  end.
End Command.

(** ** What the claims speak of *)

(** One character of the request text after the numeral pass, as the
    single-character entries of [cn_num_map] give it. *)
Definition single_numerals : list (N * pystr) :=
  omap (fun kv => match kv.1 with
                  | [k] => Some (k, str_of_int kv.2)
                  | _ => None
                  end) cn_num_map.

Fixpoint assoc (kvs : list (N * pystr)) (c : N) : option pystr :=
  match kvs with
  | [] => None
  | (k, v) :: rest => if decide (c = k) then Some v else assoc rest c
  end.

Definition numeral_char (c : N) : pystr :=
  default [c] (assoc single_numerals c).

Definition no_digit (s : pystr) : Prop := Forall (fun c => is_digit c = false) s.

(** [ds] is what [(\d+)] captures in [s]: the first digits of [s], as far
    as they go. *)
Definition leftmost_digits (s ds : pystr) : Prop :=
  exists pre post,
    s = pre ++ ds ++ post /\ no_digit pre /\ ds <> [] /\
    Forall (fun c => is_digit c = true) ds /\
    match post with [] => True | c :: _ => is_digit c = false end.

(** Some digit of [s] is not a zero, so [s] holds a positive integer. *)
Definition holds_positive_integer (s : pystr) : Prop :=
  exists c d, c ∈ s /\ decimal_value c = Some d /\ 0 < d.

(** ** Devices of the proofs about the numeral pass *)

(** One replacement of a single character, and a sequence of them. *)
Definition subst1 (k : N) (v : pystr) (c : N) : pystr :=
  if decide (c = k) then v else [c].

Definition chain (kvs : list (N * pystr)) (s : pystr) : pystr :=
  fold_left (fun t kv => flat_map (subst1 kv.1 kv.2) t) kvs s.

(** Replaced text is never replaced again when no value holds a key. *)
Definition inert (kvs : list (N * pystr)) : bool :=
  forallb (fun kv => forallb (fun c => bool_decide (assoc kvs c = None)) kv.2) kvs.

Definition replace_all (kvs : list (pystr * pystr)) (t : pystr) : pystr :=
  fold_left (fun t kv => replace kv.1 kv.2 t) kvs t.

(** ** What the claims about the generator speak of *)

(** [m] is the largest of the candidate values [l]. *)
Definition maximum_of (l : list Q) (m : Q) : Prop :=
  m ∈ l /\ forall x, x ∈ l -> (x <= m)%Q.

(** [s] is a roll of the definition [sc]: its name, icon and percent flag,
    and one of its candidate values. *)
Definition rolled_from (sc : StatConfig) (s : PhantomStat) : Prop :=
  name s = cfg_name sc /\ icon s = cfg_icon sc /\
  is_percent s = cfg_is_percent sc /\ value s ∈ values sc.

(** The flag of [s] says whether its value is the largest candidate of [sc]. *)
Definition max_flag_exact (sc : StatConfig) (s : PhantomStat) : Prop :=
  is_max s = true <-> exists m, maximum_of (values sc) m /\ (value s == m)%Q.

(** The stats stand, one by one, in relation [P] with the definitions at
    pairwise different positions of the table. *)
Definition drawn_without_replacement (P : StatConfig -> PhantomStat -> Prop)
    (table : list StatConfig) (stats : list PhantomStat) : Prop :=
  exists idx : list nat,
    NoDup idx /\
    Forall2 (fun i s => exists sc, table !! i = Some sc /\ P sc s) idx stats.

(** The generator returns, with [min(stats_count, len(substats))] stats from
    different positions. *)
Definition returns_distinct_sample (config : Config) (r : rng) : Prop :=
  exists stats r',
    generate_phantom_stats config r = (Ok stats, r') /\
    Z.of_nat (length stats)
    = Z.min (stats_count (settings config)) (Z.of_nat (length (substats config))) /\
    drawn_without_replacement rolled_from (substats config) stats.

(** The default table with a negative [stats_count]. *)
Definition negative_count_config : Config :=
  {| substats := substats default_config;
     settings := {| daily_limit := Some 20;
                    white_list := Some ["644572093"%string];
                    stats_count := -1 |} |}.

(** ** What the claim about the parser speaks of *)

(** The positive integer [n] is written in [s]: it is the value of some
    run of digits of [s]. *)
Definition written_in (s : pystr) (n : Z) : Prop :=
  exists pre ds post,
    s = pre ++ ds ++ post /\ ds <> [] /\
    Forall (fun c => is_digit c = true) ds /\
    int_of_digits ds = n /\ 0 < n.

(** C8 as the spec states it: after the numeral pass, the roll count is a
    positive integer written in the text when there is one, and 1 when
    there is none. *)
Definition extracts_positive_integer (text : pystr) : Prop :=
  let s := substitute_numerals text in
  ((exists n, written_in s n) ->
   exists n, written_in s n /\ parse_roll_count text = Ok n)
  /\ ((~ exists n, written_in s n) -> parse_roll_count text = Ok 1).

(** ** What the claims about the commands speak of *)

Definition whitelisted (config : Config) (user_id : string) : Prop :=
  user_id ∈ default [] (white_list (settings config)).

(** The daily limit as the roll command reads it. *)
Definition daily_limit_of (config : Config) : Z :=
  default 20 (daily_limit (settings config)).

(** Reading the file of the user gives the handlers a dict: the file is
    missing, holds a document, or holds text that is not JSON. *)
Definition readable (fs : Files) (user_id : string) : Prop :=
  exists d, load_records fs user_id = Ok (Dict d).

(** The document the handlers work on for the user: the dict that
    [load_records] returns. (Where reading raises or returns no dict, the
    handlers raise; the empty document stands in.) *)
Definition document_of (fs : Files) (user_id : string) : Document :=
  match load_records fs user_id with
  | Ok (Dict d) => d
  | _ => ∅
  end.

(** What is stored today for the user, and how many rolls that is. *)
Definition stored_today (fs : Files) (today_str user_id : string) : list RollRecord :=
  user_daily_results_of (records_today_of (document_of fs user_id) today_str) user_id.

Definition count_today (fs : Files) (today_str user_id : string) : Z :=
  Z.of_nat (length (stored_today fs today_str user_id)).

Definition remaining_quota (config : Config) (fs : Files)
    (today_str user_id : string) : Z :=
  daily_limit_of config - count_today fs today_str user_id.

(** The document the roll command saves when it appends [new] for the user. *)
Definition appended (fs : Files) (today_str user_id : string)
    (new : list RollRecord) : Document :=
  let records_today := records_today_of (document_of fs user_id) today_str in
  {[ today_str :=
       <[user_id := stored_today fs today_str user_id ++ new]> records_today ]}.

(** The events of a run of [k] completed loop iterations. *)
Definition roll_events (imgs : list card) : list event :=
  flat_map (fun c => [Generated (card_stats c); CardDrawn c]) imgs.

Definition records_of (imgs : list card) : list RollRecord :=
  map (fun c => map to_dict (card_stats c)) imgs.

(** The request for [count] rolls reaches the quota check of the roll
    command and passes it. *)
Definition accepted (config : Config) (fs : Files) (today_str user_id : string)
    (text : pystr) (count : Z) : Prop :=
  history_words text = false /\
  parse_roll_count text = Ok count /\
  readable fs user_id /\
  let rolls_remaining :=
    limit_sub (roll_limit config user_id) (count_today fs today_str user_id) in
  limit_le0 rolls_remaining = false /\
  exceeds count rolls_remaining = false.

(** The text shows the number [n] in decimal. *)
Definition reports_count (t : pystr) (n : Z) : Prop :=
  contains (str_of_int n) t = true.

(** The cards are numbered on from the rolls stored before. *)
Definition numbered_from (rolls_done : Z) (imgs : list card) : Prop :=
  roll_number <$> imgs = seqZ (rolls_done + 1) (Z.of_nat (length imgs)).

(** The stats the generator returned during a command, in order. *)
Definition generated_stats (evs : list event) : list (list PhantomStat) :=
  omap (fun e => match e with Generated stats => Some stats | _ => None end) evs.

(** The ways an accepted request for [count] rolls can end, as the files
    left behind and the events after the optional help message. [imgs] are
    the cards of the loop iterations that completed. *)
Inductive roll_outcome (fs : Files) (today_str user_id user_name : string)
    (count : Z) (rolls_remaining : limit) : Files -> list event -> Prop :=
  | Replied imgs :
      length imgs = Z.to_nat count ->
      numbered_from (count_today fs today_str user_id) imgs ->
      roll_outcome fs today_str user_id user_name count rolls_remaining
        (save_records user_id (appended fs today_str user_id (records_of imgs)) fs)
        (roll_events imgs ++
         [Saved user_id (appended fs today_str user_id (records_of imgs));
          Sent (Image {| image_objects := imgs;
                         footer_user_name := user_name;
                         tuners_remaining := limit_sub rolls_remaining count |});
          LoggedInfo])
  | SavedThenFailed imgs :
      length imgs = Z.to_nat count ->
      numbered_from (count_today fs today_str user_id) imgs ->
      roll_outcome fs today_str user_id user_name count rolls_remaining
        (save_records user_id (appended fs today_str user_id (records_of imgs)) fs)
        (roll_events imgs ++
         [Saved user_id (appended fs today_str user_id (records_of imgs));
          LoggedException RenderError])
  | GeneratorRaised imgs e :
      (length imgs < Z.to_nat count)%nat ->
      numbered_from (count_today fs today_str user_id) imgs ->
      roll_outcome fs today_str user_id user_name count rolls_remaining
        fs (roll_events imgs ++ [LoggedException e])
  | CardFailed imgs stats :
      (length imgs < Z.to_nat count)%nat ->
      numbered_from (count_today fs today_str user_id) imgs ->
      roll_outcome fs today_str user_id user_name count rolls_remaining
        fs (roll_events imgs ++ [Generated stats; LoggedException RenderError]).

(** C3 as the spec states it: the request is turned down, the files stay as
    they are, and the last message shows the remaining count. *)
Definition rejects_reporting_remaining (R : Renderer) (config : Config)
    (today_str user_id user_name : string) (text : pystr) (w : World) : Prop :=
  let out := gacha_phantom_command R config today_str user_id user_name text w in
  files out.1 = files w /\
  exists t, last out.2 = Some (Sent (Text t)) /\
            reports_count t (remaining_quota config (files w) today_str user_id).

(** ** Concrete runs *)

Definition always_ok : Renderer :=
  {| card_ok := fun _ _ => true; final_ok := fun _ => true |}.

Definition cards_fail : Renderer :=
  {| card_ok := fun _ _ => false; final_ok := fun _ => true |}.


Definition one_record : RollRecord :=
  [ {| d_name := "攻击"; d_icon := "攻击"; d_value := 50%Q;
       d_is_percent := false; d_is_max := true |} ].

(** A world in which the file of [user_id] holds [n] rolls under [day]. *)
Definition world_with (day user_id : string) (n : nat) : World :=
  {| files := {[ user_id := Parsed {[ day := {[ user_id := replicate n one_record ]} ]} ]};
     tape := [] |}.

Definition empty_world : World := {| files := ∅; tape := [] |}.

(** C5 as the spec states it: what the file of the user holds under other
    dates than today is the same before and after. *)
Definition other_days_kept (today_str user_id : string) (fs fs' : Files) : Prop :=
  forall d, d <> today_str ->
    document_of fs' user_id !! d = document_of fs user_id !! d.

(** C6 as the spec states it: whatever the generator returned during the
    command is stored for the caller afterwards. *)
Definition generated_records_are_saved (R : Renderer) (config : Config)
    (today_str user_id user_name : string) (text : pystr) (w : World) : Prop :=
  let out := gacha_phantom_command R config today_str user_id user_name text w in
  forall stats, stats ∈ generated_stats out.2 ->
    map to_dict stats ∈ stored_today (files out.1) today_str user_id.

(** The invariant of the ledger: in every file, under every date, a user who
    is not whitelisted has at most [daily_limit] rolls. *)
Definition within_daily_limit (config : Config) (fs : Files) : Prop :=
  forall owner (d : Document) day (records : DayRecords) user_id recs,
    fs !! owner = Some (Parsed d) ->
    d !! day = Some records ->
    records !! user_id = Some recs ->
    ~ whitelisted config user_id ->
    Z.of_nat (length recs) <= daily_limit_of config.

(** ** [load_config] *)

(** The configuration file holds a configuration or does not exist; the
    call returns the configuration and the file it leaves behind. *)
Definition load_config (config_file : option Config) : Config * option Config :=
  match config_file with
  | Some config => (config, Some config)
  | None => (default_config, Some default_config)
  end.

(** ** The handlers from their first line *)

(** Both handlers call [load_config()] first: a missing configuration file
    is created before the request is looked at. The handlers above take the
    configuration that this call returns. *)
Definition gacha_phantom_command_from (R : Renderer) (config_file : option Config)
    (today_str user_id user_name : string) (text : pystr) (w : World)
  : option Config * (World * list event) :=
  let '(config, config_file') := load_config config_file in
  (config_file',
   gacha_phantom_command R config today_str user_id user_name text w).

Definition show_gacha_history_from (R : Renderer) (config_file : option Config)
    (today_str user_id user_name : string) (w : World)
  : option Config * (World * list event) :=
  let '(config, config_file') := load_config config_file in
  (config_file', show_gacha_history R config today_str user_id user_name w).

(** ** The name shown by [add_footer] *)

(** [user_name if len(user_name) <= 8 else user_name[:7] + "..."] *)
Definition shown_user_name (user_name : pystr) : pystr :=
  if (length user_name <=? 8)%nat then user_name
  else take 7 user_name ++ u "...".

(** ** Rows of [draw_single_result_card] *)

Definition card_width : Z := 540.
Definition card_height : Z := 680.
Definition title_bg_y_start : Z := 20.
Definition title_bg_height : Z := 80.
Definition content_y_start : Z := title_bg_y_start + title_bg_height + 20.
Definition content_height : Z := 530.
Definition line_height : Z := 95.
Definition base_y : Z := content_y_start + 40.

(** [y_pos = base_y + i * line_height], the top of the 50 by 50 icon of row
    [i]; [separator_y = y_pos - (line_height // 2) + 5] for [i > 0];
    [tag_y = y_pos - 5] for a stat at its maximum. *)
Definition y_pos (i : Z) : Z := base_y + i * line_height.
Definition separator_y (i : Z) : Z := y_pos i - (line_height / 2) + 5.
Definition tag_y (i : Z) : Z := y_pos i - 5.
Definition icon_size : Z := 50.

(** ** The remaining rolls in the footer *)

(** [tuner_text = f"剩余: {tuners_remaining * 50}"], the text that
    [add_footer] draws for the remaining rolls it is given. *)
Definition tuner_text (tuners_remaining : limit) : pystr :=
  u "剩余: " ++ str_of_limit (limit_mul tuners_remaining 50).

(** ** Commands one after another *)

(** A command as the dispatcher hands it to its handler. A handler that
    raises ends there; the next command finds the files it left. *)
Inductive request :=
  | RollRequest (today_str user_id user_name : string) (text : pystr)
  | HistoryRequest (today_str user_id user_name : string).

Definition handle (R : Renderer) (config : Config) (q : request) (w : World)
  : World * list event :=
  match q with
  | RollRequest today_str user_id user_name text =>
      gacha_phantom_command R config today_str user_id user_name text w
  | HistoryRequest today_str user_id user_name =>
      show_gacha_history R config today_str user_id user_name w
  end.

Fixpoint handle_all (R : Renderer) (config : Config) (qs : list request)
    (w : World) : World * list event :=
  match qs with
  | [] => (w, [])
  | q :: qs' =>
      let '(w1, evs1) := handle R config q w in
      let '(w2, evs2) := handle_all R config qs' w1 in
      (w2, evs1 ++ evs2)
  end.

(** ** What the further properties speak of *)

(** The stats are a roll of the configuration: as many as the generator
    samples, from different definitions, each flagged by its maximum. *)
Definition well_rolled (config : Config) (stats : list PhantomStat) : Prop :=
  Z.of_nat (length stats)
  = Z.min (stats_count (settings config)) (Z.of_nat (length (substats config))) /\
  drawn_without_replacement (fun sc s => rolled_from sc s /\ max_flag_exact sc s)
                            (substats config) stats.

(** A text with neither a digit nor a numeral of [cn_num_map]. *)
Definition plain (s : pystr) : Prop :=
  Forall (fun c => is_digit c = false /\ assoc single_numerals c = None) s.

(** The cards the history command draws for the stored records. *)
Definition history_cards (results : list RollRecord) : list card :=
  imap (fun i result_data =>
          {| card_stats := map from_dict result_data;
             roll_number := Z.of_nat i + 1 |}) results.

(** The renderer never fails. *)
Definition reliable (R : Renderer) : Prop :=
  (forall stats n, card_ok R stats n = true) /\ (forall img, final_ok R img = true).

(** An entry of [cn_num_map] with a one-character key turns that character
    into the decimal numeral of its value, which is not negative and has
    no more digits than [int] converts. *)
Definition single_entry_ok (kv : pystr * Z) : bool :=
  match kv.1 with
  | [c] =>
      bool_decide (flat_map numeral_char [c] = str_of_int kv.2) && (0 <=? kv.2)
      && (Z.of_nat (length (str_of_int kv.2)) <=? int_max_str_digits)
  | _ => true
  end.

(** An entry of [cn_num_map] with a two-character key: its characters are
    replaced one by one, and what they leave is the decimal numeral of a
    number that is at least 1, has no more digits than [int] converts and
    is not the value of the entry. *)
Definition compound_reading (a b : N) : Z :=
  int_of_digits (numeral_char a ++ numeral_char b).

Definition compound_entry_ok (kv : pystr * Z) : bool :=
  match kv.1 with
  | [a; b] =>
      bool_decide (flat_map numeral_char [a; b] = str_of_int (compound_reading a b))
      && (1 <=? compound_reading a b)
      && negb (compound_reading a b =? kv.2)
      && (Z.of_nat (length (str_of_int (compound_reading a b)))
          <=? int_max_str_digits)
  | _ => true
  end.


(** ** [combine_images] *)

(** Python floats are IEEE 754 binary64 numbers, as the primitive floats
    are.  [float(n)] is exact for the list lengths met here. *)
Definition float_of_int (n : Z) : PrimFloat.float :=
  PrimFloat.of_uint63 (Uint63.of_Z n).

(** [int(math.ceil(x))]; [None] stands for the exception raised on an
    infinity or a NaN. *)
Definition math_ceil (x : PrimFloat.float) : option Z :=
  match FloatOps.Prim2SF x with
  | SpecFloat.S754_zero _ => Some 0
  | SpecFloat.S754_finite negative m e =>
      let below :=
        if 0 <=? e then Z.shiftl (Z.pos m) e else Z.shiftr (Z.pos m) (- e) in
      let whole :=
        if 0 <=? e then true else Z.pos m mod 2 ^ (- e) =? 0 in
      Some (if negative then - below
            else if whole then below else below + 1)
  | _ => None
  end.

(** [cols = int(math.ceil(math.sqrt(num_images)))] and
    [rows = int(math.ceil(num_images / cols))]; [None] for the
    [ZeroDivisionError] of a zero [cols]. *)
Definition grid (num_images : Z) : option (Z * Z) :=
  match math_ceil (PrimFloat.sqrt (float_of_int num_images)) with
  | Some cols =>
      if cols =? 0 then None
      else
        match math_ceil (PrimFloat.div (float_of_int num_images)
                                       (float_of_int cols)) with
        | Some rows => Some (cols, rows)
        | None => None
        end
  | None => None
  end.

Definition padding : Z := 20.

Section Combine.

Context {image : Type} (size : image -> Z * Z).

(** What [combine_images] returns: the transparent 1 by 1 image for no
    image, the only image itself, or a new image of the given size with
    every image pasted at its place. *)
Inductive combined :=
  | Transparent (w h : Z)
  | Unchanged (img : image)
  | Combined (total_w total_h : Z) (pasted : list (image * (Z * Z))).

Definition combine_images (images : list image) : option combined :=
  let num_images := Z.of_nat (length images) in
  match images with
  | [] => Some (Transparent 1 1)
  | first :: _ =>
      if num_images =? 1 then Some (Unchanged first)
      else
        let '(single_w, single_h) := size first in
        match grid num_images with
        | Some (cols, rows) =>
            let total_w := cols * single_w + (cols + 1) * padding in
            let total_h := rows * single_h + (rows + 1) * padding in
            Some (Combined total_w total_h
                    (imap (fun i img =>
                             let row := Z.of_nat i / cols in
                             let col := Z.of_nat i mod cols in
                             (img, (col * (single_w + padding) + padding,
                                    row * (single_h + padding) + padding)))
                          images))
        | None => None
        end
  end.

End Combine.

(** The grid of [n] images has room for all of them and no spare row or
    column. *)
Definition grid_ok (n : Z) : bool :=
  match grid n with
  | Some (cols, rows) =>
      ((cols - 1) * (cols - 1) <? n) && (n <=? cols * cols)
      && ((rows - 1) * cols <? n) && (n <=? rows * cols)
  | None => false
  end.

Fixpoint holds_from (f : Z -> bool) (first : Z) (count : nat) : bool :=
  match count with
  | O => true
  | S count' => f first && holds_from f (first + 1) count'
  end.

(** The largest number of images the grid is checked for. *)
Definition most_images : Z := 10000.
(** * Proofs *)

(** Closed decidable goals are settled by evaluation. *)
Ltac by_compute :=
  match goal with
  | |- ?P => apply (bool_decide_eq_true_1 P); vm_compute; reflexivity
  end.

(** ** The numeral pass is a character-by-character substitution *)



Lemma replace_single k v s : replace [k] v s = flat_map (subst1 k v) s.
Proof.
  unfold replace. induction s as [|c s IH]; [done|].
  cbn [replace_from flat_map]. unfold starts_with, subst1 at 1.
  cbn [length take]. rewrite take_0.
  destruct (decide (c = k)) as [->|Hne].
  - rewrite bool_decide_eq_true_2 by done. simpl. by rewrite IH.
  - rewrite bool_decide_eq_false_2 by congruence. simpl. by rewrite IH.
Qed.

Lemma replace_absent old v s x :
  x ∈ old -> x ∉ s -> replace old v s = s.
Proof.
  intros Hin Hout. destruct old as [|a old']; [by apply elem_of_nil in Hin|].
  unfold replace. induction s as [|c s IH]; [done|].
  cbn [replace_from]. unfold starts_with.
  rewrite bool_decide_eq_false_2.
  - f_equal. apply IH. intros Hx. apply Hout. by right.
  - intros Heq. apply Hout. rewrite <- Heq in Hin.
    by apply (subseteq_take (length (a :: old')) (c :: s)).
Qed.

Lemma subst1_absent k v s x :
  x ∉ v -> (x = k \/ x ∉ s) -> x ∉ flat_map (subst1 k v) s.
Proof.
  intros Hv Hs Hin. apply list_elem_of_In, in_flat_map in Hin.
  destruct Hin as (c & Hc & Hx). apply list_elem_of_In in Hc, Hx.
  unfold subst1 in Hx. destruct (decide (c = k)) as [->|Hne]; [done|].
  apply list_elem_of_singleton in Hx as ->. destruct Hs; [done|done].
Qed.

Lemma chain_app kvs a b : chain kvs (a ++ b) = chain kvs a ++ chain kvs b.
Proof.
  unfold chain. revert a b. induction kvs as [|kv kvs IH]; intros a b; [done|].
  simpl. by rewrite flat_map_app, IH.
Qed.

Lemma chain_inert kvs s :
  Forall (fun c => assoc kvs c = None) s -> chain kvs s = s.
Proof.
  unfold chain. revert s. induction kvs as [|[k v] kvs IH]; intros s Hs; [done|].
  simpl. assert (flat_map (subst1 k v) s = s) as ->.
  { induction Hs as [|c s Hc Hs IHs]; [done|]. simpl. rewrite IHs.
    unfold subst1. simpl in Hc. by destruct (decide (c = k)). }
  apply IH. eapply Forall_impl; [exact Hs|]. intros c Hc. simpl in Hc.
  by destruct (decide (c = k)).
Qed.


Lemma chain_char_suffix all kvs c :
  (forall kv, kv ∈ kvs -> Forall (fun x => assoc all x = None) kv.2) ->
  (forall x, assoc all x = None -> assoc kvs x = None) ->
  chain kvs [c] = default [c] (assoc kvs c).
Proof.
  revert c. induction kvs as [|[k v] kvs IH]; intros c Hval Hsub; [done|].
  assert (forall x, assoc all x = None -> assoc kvs x = None) as Hsub'.
  { intros x Hx. specialize (Hsub x Hx). simpl in Hsub.
    by destruct (decide (x = k)). }
  change (chain ((k, v) :: kvs) [c]) with (chain kvs (flat_map (subst1 k v) [c])).
  cbn [flat_map assoc]. rewrite app_nil_r. unfold subst1.
  destruct (decide (c = k)) as [->|Hne].
  - simpl. apply chain_inert.
    eapply Forall_impl; [apply (Hval (k, v)); by left|]. done.
  - apply IH; [|done]. intros kv Hkv. apply Hval. by right.
Qed.

Lemma inert_spec kvs kv :
  inert kvs = true -> kv ∈ kvs -> Forall (fun x => assoc kvs x = None) kv.2.
Proof.
  unfold inert. rewrite forallb_forall. intros H Hkv.
  apply list_elem_of_In in Hkv. specialize (H kv Hkv).
  rewrite forallb_forall in H. apply Forall_forall. intros x Hx.
  apply list_elem_of_In in Hx. apply H in Hx. by apply bool_decide_eq_true in Hx.
Qed.

Lemma chain_flat_map kvs s :
  inert kvs = true -> chain kvs s = flat_map (fun c => default [c] (assoc kvs c)) s.
Proof.
  intros Hin. induction s as [|c s IH]; [by apply chain_inert|].
  change (c :: s) with ([c] ++ s). rewrite chain_app, IH. simpl. f_equal.
  apply (chain_char_suffix kvs); [|done].
  intros kv Hkv. by apply inert_spec.
Qed.


Lemma replace_all_singles kvs t :
  replace_all (map (fun kv => ([kv.1], kv.2)) kvs) t = chain kvs t.
Proof.
  unfold replace_all, chain. revert t.
  induction kvs as [|kv kvs IH]; intros t; [done|].
  cbn [map fold_left fst snd]. by rewrite replace_single, IH.
Qed.

Lemma replace_all_absent kvs t x :
  Forall (fun kv => x ∈ kv.1) kvs -> x ∉ t -> replace_all kvs t = t.
Proof.
  unfold replace_all. intros Hk Hx. induction Hk as [|kv kvs Hkv _ IH]; [done|].
  cbn [fold_left]. by rewrite (replace_absent _ _ _ x).
Qed.

Lemma chain_snoc_absent kvs k v t : k ∉ v -> k ∉ chain (kvs ++ [(k, v)]) t.
Proof.
  intros Hv. unfold chain. rewrite fold_left_app. simpl.
  apply subst1_absent; [done|by left].
Qed.

(** The compound keys 十一 to 二十 all hold 十, which is gone by the time
    they are tried: the pass is the chain of the single-character keys. *)
Lemma substitute_numerals_chain text :
  substitute_numerals text = chain single_numerals text.
Proof.
  unfold substitute_numerals.
  transitivity (replace_all (map (fun kv => (kv.1, str_of_int kv.2)) cn_num_map) text).
  { unfold replace_all. generalize cn_num_map. intros l. revert text.
    induction l as [|kv l IH]; intros text; [done|]. simpl. apply IH. }
  pose (A := take 10 single_numerals).
  pose (D := take 10 (drop 11 (map (fun kv => (kv.1, str_of_int kv.2)) cn_num_map))).
  pose (B := drop 11 single_numerals).
  assert (map (fun kv => (kv.1, str_of_int kv.2)) cn_num_map
          = map (fun kv => ([kv.1], kv.2)) (A ++ [(0x5341%N, u "10")])
            ++ D ++ map (fun kv => ([kv.1], kv.2)) B) as -> by (vm_compute; reflexivity).
  assert (single_numerals = (A ++ [(0x5341%N, u "10")]) ++ B) as ->
    by (vm_compute; reflexivity).
  unfold replace_all. rewrite !fold_left_app.
  set (A' := A ++ [(0x5341%N, u "10")]).
  pose proof (replace_all_singles A' text) as HA. unfold replace_all in HA.
  rewrite HA. clear HA.
  pose proof (replace_all_absent D (chain A' text) 0x5341%N) as HD.
  unfold replace_all in HD. rewrite HD; clear HD.
  - pose proof (replace_all_singles B (chain A' text)) as HB.
    unfold replace_all in HB. rewrite HB.
    unfold chain. by rewrite fold_left_app.
  - subst D. by_compute.
  - apply chain_snoc_absent. by_compute.
Qed.

Lemma substitute_numerals_flat_map text :
  substitute_numerals text = flat_map numeral_char text.
Proof.
  rewrite substitute_numerals_chain. apply chain_flat_map.
  vm_compute. reflexivity.
Qed.

(** ** The roll-count parser *)

Lemma re_search_digits_none s : no_digit s -> re_search_digits s = None.
Proof.
  induction 1 as [|c s Hc _ IH]; [done|]. simpl. by rewrite Hc.
Qed.

Lemma digit_run_app ds post :
  Forall (fun c => is_digit c = true) ds ->
  match post with [] => True | c :: _ => is_digit c = false end ->
  digit_run (ds ++ post) = ds.
Proof.
  intros Hds Hpost. induction Hds as [|c ds Hc _ IH]; simpl.
  - destruct post as [|c post]; [done|]. simpl. by rewrite Hpost.
  - by rewrite Hc, IH.
Qed.

Lemma re_search_digits_leftmost s ds :
  leftmost_digits s ds -> re_search_digits s = Some ds.
Proof.
  intros (pre & post & -> & Hpre & Hne & Hds & Hpost).
  induction Hpre as [|c pre Hc _ IH]; simpl.
  - destruct ds as [|d ds]; [done|]. simpl.
    pose proof (Forall_inv Hds) as Hd. simpl in Hd. rewrite Hd.
    f_equal. f_equal. apply digit_run_app; [|done]. by eapply Forall_inv_tail.
  - by rewrite Hc.
Qed.

Lemma digit_run_subseteq s : digit_run s ⊆ s.
Proof.
  induction s as [|c s IH]; [done|]. simpl.
  destruct (is_digit c); [|apply list_subseteq_nil].
  intros x [->|Hx]%elem_of_cons; [by left|right; by apply IH].
Qed.

Lemma re_search_digits_subseteq s ds : re_search_digits s = Some ds -> ds ⊆ s.
Proof.
  induction s as [|c s IH]; [done|]. simpl. destruct (is_digit c) eqn:Hc.
  - intros [= <-]. pose proof (digit_run_subseteq (c :: s)) as H.
    simpl in H. by rewrite Hc in H.
  - intros H x Hx. right. by apply (IH H).
Qed.

Lemma int_of_digits_nonpos ds :
  (forall c d, c ∈ ds -> decimal_value c = Some d -> d <= 0) ->
  int_of_digits ds <= 0.
Proof.
  unfold int_of_digits. intros H.
  assert (forall acc, acc <= 0 ->
    fold_left (fun acc c => 10 * acc + default 0 (decimal_value c)) ds acc <= 0)
    as Hfold; [|by apply Hfold].
  induction ds as [|c ds IH]; intros acc Hacc; [done|]. simpl.
  apply IH.
  - intros c' d Hc'. apply H. by right.
  - destruct (decimal_value c) as [d|] eqn:Hd; simpl; [|lia].
    specialize (H c d ltac:(by left) Hd). lia.
Qed.

Lemma int_of_digits_snoc ds c :
  int_of_digits (ds ++ [c]) = 10 * int_of_digits ds + default 0 (decimal_value c).
Proof. unfold int_of_digits. by rewrite fold_left_app. Qed.

Lemma int_of_digits_nonneg ds : 0 <= int_of_digits ds.
Proof.
  unfold int_of_digits.
  assert (forall acc, 0 <= acc ->
    0 <= fold_left (fun acc c => 10 * acc + default 0 (decimal_value c)) ds acc)
    as Hfold; [|by apply Hfold].
  induction ds as [|c ds IH]; intros acc Hacc; [done|]. simpl. apply IH.
  assert (0 <= default 0 (decimal_value c)); [|lia].
  unfold decimal_value. generalize decimal_runs. intros runs.
  induction runs as [|r runs IHr]; simpl; [done|].
  destruct (_ && _)%bool; simpl; [lia|done].
Qed.

(** The conversion at line 401, for a match: [ValueError] beyond the digit
    limit, else the value of the digits, or 1 when that is 0. *)
Lemma roll_count_of_match_Some ds :
  roll_count_of_match (Some ds)
  = if int_max_str_digits <? Z.of_nat (length ds) then Raise ValueError
    else Ok (Z.max 1 (int_of_digits ds)).
Proof.
  unfold roll_count_of_match, py_int.
  destruct (int_max_str_digits <? Z.of_nat (length ds)); [done|].
  pose proof (int_of_digits_nonneg ds).
  destruct (Z.ltb_spec 0 (int_of_digits ds)); f_equal; lia.
Qed.

Lemma roll_count_of_match_pos m n : roll_count_of_match m = Ok n -> 1 <= n.
Proof.
  destruct m as [ds|]; [|intros [= <-]; lia].
  rewrite roll_count_of_match_Some.
  destruct (_ <? _); [done|]. intros [= <-]. lia.
Qed.

Lemma parse_roll_count_pos text n : parse_roll_count text = Ok n -> 1 <= n.
Proof. apply roll_count_of_match_pos. Qed.

Lemma re_search_digits_None_inv s : re_search_digits s = None -> no_digit s.
Proof.
  induction s as [|c s IH]; [constructor|]. simpl.
  destruct (is_digit c) eqn:Hc; [done|]. intros H.
  constructor; [exact Hc|by apply IH].
Qed.

Lemma digit_run_spec s :
  exists post,
    s = digit_run s ++ post /\ Forall (fun c => is_digit c = true) (digit_run s) /\
    match post with [] => True | c :: _ => is_digit c = false end.
Proof.
  induction s as [|c s (post & Hs & Hall & Hpost)]; [by exists []|]. simpl.
  destruct (is_digit c) eqn:Hc.
  - exists post. split; [simpl; by f_equal|]. split; [by constructor|done].
  - by exists (c :: s).
Qed.

Lemma re_search_digits_Some_inv s ds :
  re_search_digits s = Some ds -> leftmost_digits s ds.
Proof.
  induction s as [|c s IH]; [done|]. cbn [re_search_digits].
  destruct (is_digit c) eqn:Hc.
  - intros [= <-]. destruct (digit_run_spec (c :: s)) as (post & Hs & Hall & Hpost).
    exists [], post. split; [done|]. split; [constructor|].
    split; [simpl; by rewrite Hc|]. done.
  - intros (pre & post & -> & Hpre & Hne & Hds & Hpost)%IH.
    exists (c :: pre), post. split; [done|]. split; [by constructor|done].
Qed.

(** C8, as amended. The parser replaces the numerals first, character by
    character, and then reads only the leftmost run of digits. A text
    without a digit gets the count 1. Otherwise the count is the value of
    that run, or 1 when the value is 0, whatever follows the run; a run of
    more than 4300 digits makes [int] raise [ValueError] and there is no
    count. A count is at least 1, and it is 1 when the text holds no
    positive integer. "梭哈三次" gives 3, with or without the command
    word. *)
Theorem parse_roll_count_reads_leftmost_run (text : pystr) :
  let s := flat_map numeral_char text in
  substitute_numerals text = s
  /\ (no_digit s /\ parse_roll_count text = Ok 1
      \/ exists ds,
           leftmost_digits s ds /\
           parse_roll_count text
           = if int_max_str_digits <? Z.of_nat (length ds) then Raise ValueError
             else Ok (Z.max 1 (int_of_digits ds)))
  /\ (forall n, parse_roll_count text = Ok n -> 1 <= n)
  /\ (~ holds_positive_integer s ->
      forall n, parse_roll_count text = Ok n -> n = 1)
  /\ parse_roll_count (u "梭哈三次") = Ok 3
  /\ parse_roll_count (u "三次") = Ok 3.
Proof.
  intros s. subst s. split; [apply substitute_numerals_flat_map|].
  unfold parse_roll_count. rewrite substitute_numerals_flat_map.
  split; [|split; [|split]].
  - destruct (re_search_digits (flat_map numeral_char text)) as [ds|] eqn:Hm.
    + right. exists ds. split; [by apply re_search_digits_Some_inv|].
      apply roll_count_of_match_Some.
    + left. split; [by apply re_search_digits_None_inv|done].
  - intros n. apply roll_count_of_match_pos.
  - intros Hnone n.
    destruct (re_search_digits (flat_map numeral_char text)) as [ds|] eqn:Hm;
      [|by intros [= <-]].
    rewrite roll_count_of_match_Some. destruct (_ <? _); [done|]. intros [= <-].
    apply re_search_digits_subseteq in Hm.
    assert (int_of_digits ds <= 0) as Hle; [|lia].
    apply int_of_digits_nonpos. intros c d Hc Hd.
    destruct (Z_le_gt_dec d 0) as [|Hgt]; [done|].
    exfalso. apply Hnone. exists c, d. split; [by apply Hm|]. split; [done|lia].
  - split; vm_compute; reflexivity.
Qed.

(** C8 as stated fails. In "0次5" a positive integer is written, 5, but
    the leftmost run is 0 and the count is the default 1, which is written
    nowhere in the text; and for a text of 4301 digits there is no count
    at all. *)
Lemma positive_integer_not_extracted :
  ~ extracts_positive_integer (u "0次5")
  /\ ~ extracts_positive_integer (replicate 4301 0x31%N).
Proof.
  split; intros [Hsome _].
  - destruct Hsome as (n & Hn & Hparse).
    { exists 5, (u "0次"), (u "5"), []. repeat split; try done; by_compute. }
    assert (n = 1) as -> by (vm_compute in Hparse; by injection Hparse).
    destruct Hn as (pre & ds & post & Hs & Hne & Hds & Hval & _).
    assert (substitute_numerals (u "0次5") = [0x30; 0x6B21; 0x35]%N) as Htext
      by (vm_compute; reflexivity).
    rewrite Htext in Hs. clear Htext Hparse.
    destruct pre as [|p1 [|p2 [|p3 [|p4 pre]]]];
      destruct ds as [|d1 [|d2 [|d3 [|d4 ds]]]]; try done;
      simplify_eq/=; try (vm_compute in Hval; discriminate);
      repeat match goal with
             | H : Forall _ (_ :: _) |- _ =>
                 apply Forall_cons in H as [? H]
             end;
      try done.
  - destruct Hsome as (n & _ & Hparse).
    { exists 1, [], [0x31%N], (replicate 4300 0x31%N).
      split; [vm_compute; reflexivity|]. repeat split; try done; by_compute. }
    vm_compute in Hparse. discriminate.
Qed.

Lemma parse_roll_count_reads_leftmost_run_witness :
  parse_roll_count (u "梭哈5次") = Ok 5.
Proof.
  destruct (parse_roll_count_reads_leftmost_run (u "梭哈5次"))
    as (_ & [[Hno _]|(ds & Hds & Hparse)] & _).
  - exfalso. revert Hno. unfold no_digit. by_compute.
  - rewrite Hparse.
    assert (ds = u "5") as ->; [|reflexivity].
    apply re_search_digits_leftmost in Hds. vm_compute in Hds. by injection Hds.
Defined.

Lemma flat_map_numeral_char_id s :
  Forall (fun c => is_digit c = false /\ assoc single_numerals c = None) s ->
  flat_map numeral_char s = s /\ no_digit s.
Proof.
  induction 1 as [|c s [Hd Hc] _ [IH1 IH2]]; [by split; [|constructor]|].
  simpl. unfold numeral_char at 1. rewrite Hc, IH1. split; [done|by constructor].
Qed.

(** C10. The numeral pass works character by character, so the compound
    keys of the table never apply: in a text that holds 十一 and otherwise
    neither digits nor numerals, 十 becomes 10 and 一 becomes 1, the text
    holds 101, and the roll count is 101. *)
Theorem compound_numeral_concatenates (pre post : pystr) :
  Forall (fun c => is_digit c = false /\ assoc single_numerals c = None) pre ->
  Forall (fun c => is_digit c = false /\ assoc single_numerals c = None) post ->
  (forall text, substitute_numerals text = flat_map numeral_char text)
  /\ numeral_char 0x5341 = u "10" /\ numeral_char 0x4E00 = u "1"
  /\ u "十一" = [0x5341; 0x4E00]%N
  /\ substitute_numerals (pre ++ u "十一" ++ post) = pre ++ u "101" ++ post
  /\ parse_roll_count (pre ++ u "十一" ++ post) = Ok 101
  /\ parse_roll_count (pre ++ u "十一" ++ post) <> Ok 11.
Proof.
  intros [Hpre Hpre']%flat_map_numeral_char_id
         [Hpost Hpost']%flat_map_numeral_char_id.
  split; [apply substitute_numerals_flat_map|].
  do 3 (split; [vm_compute; reflexivity|]).
  assert (substitute_numerals (pre ++ u "十一" ++ post) = pre ++ u "101" ++ post)
    as Hsub.
  { rewrite substitute_numerals_flat_map, !flat_map_app, Hpre, Hpost.
    f_equal. }
  split; [done|].
  assert (parse_roll_count (pre ++ u "十一" ++ post) = Ok 101) as ->; [|done].
  unfold parse_roll_count. rewrite Hsub.
  rewrite (re_search_digits_leftmost _ (u "101")); [vm_compute; reflexivity|].
  exists pre, post. repeat split; try done; try by_compute.
  destruct Hpost' as [|c post Hc _]; done.
Qed.

Lemma compound_numeral_concatenates_witness :
  parse_roll_count (u "梭哈" ++ u "十一" ++ u "次") = Ok 101.
Proof.
  apply (compound_numeral_concatenates (u "梭哈") (u "次")); by_compute.
Defined.

(** ** The model on small inputs *)

Example u_san : u "三" = [0x4E09%N].
Proof. reflexivity. Qed.

Example str_of_int_20 : str_of_int 20 = u "20".
Proof. reflexivity. Qed.

Example str_of_int_neg : str_of_int (-1050) = u "-1050".
Proof. reflexivity. Qed.

Example parse_suoha_san : parse_roll_count (u "梭哈三次") = Ok 3.
Proof. vm_compute. reflexivity. Qed.

Example parse_eleven : parse_roll_count (u "梭哈十一次") = Ok 101.
Proof. vm_compute. reflexivity. Qed.

Example parse_fullwidth : parse_roll_count (u "梭哈３次") = Ok 3.
Proof. vm_compute. reflexivity. Qed.

Example parse_zero_first : parse_roll_count (u "0次5") = Ok 1.
Proof. vm_compute. reflexivity. Qed.

Example parse_too_many_digits :
  parse_roll_count (u "梭哈" ++ replicate 4301 0x39%N) = Raise ValueError.
Proof. vm_compute. reflexivity. Qed.

Example parse_most_digits :
  parse_roll_count (replicate 4299 0x30%N ++ u "7") = Ok 7.
Proof. vm_compute. reflexivity. Qed.

Example sample_demo :
  sample [10; 20; 30; 40]%nat 3 [1; 1; 0; 7]%nat = (Ok [20; 40; 10]%nat, [7%nat]).
Proof. reflexivity. Qed.

Example sample_negative :
  sample [10; 20; 30; 40]%nat (-1) [1; 1; 0; 7]%nat = (Raise ValueError, [1; 1; 0; 7]%nat).
Proof. reflexivity. Qed.

Example choice_empty : choice (@nil Q) [3%nat] = (Raise IndexError, [3%nat]).
Proof. reflexivity. Qed.

Example py_max_first : py_max [7.1; 11.6; 6.4]%Q = Ok 11.6%Q.
Proof. reflexivity. Qed.

Example history_word_is_silent :
  gacha_phantom_command always_ok default_config "2024-05-02" "10001" "Rover"
    (u "21次结果") empty_world = (empty_world, []).
Proof. vm_compute. reflexivity. Qed.

Example three_rolls_are_stored :
  count_today
    (files (gacha_phantom_command always_ok default_config "2024-05-02" "10001"
              "Rover" (u "三次") empty_world).1) "2024-05-02" "10001" = 3.
Proof. vm_compute. reflexivity. Qed.

Example no_history_yet :
  (show_gacha_history always_ok default_config "2024-05-02" "10001" "Rover"
     empty_world).2 = [Sent (Text no_history_text)].
Proof. vm_compute. reflexivity. Qed.

Example too_many_digits_leave_the_handler :
  gacha_phantom_command always_ok default_config "2024-05-02" "10001" "Rover"
    (u "梭哈" ++ replicate 4301 0x39%N) empty_world
  = (empty_world, [Raised ValueError]).
Proof. vm_compute. reflexivity. Qed.

Example undecodable_file_leaves_the_handler :
  let w := {| files := {[ "10001" := Undecodable ]}; tape := [] |} in
  gacha_phantom_command always_ok default_config "2024-05-02" "10001" "Rover"
    (u "梭哈2次") w = (w, [Raised UnicodeDecodeError])
  /\ show_gacha_history always_ok default_config "2024-05-02" "10001" "Rover" w
     = (w, [Raised UnicodeDecodeError]).
Proof. split; vm_compute; reflexivity. Qed.

Example list_in_file_leaves_the_handler :
  let w := {| files := {[ "10001" := NotAnObject ]}; tape := [] |} in
  (gacha_phantom_command always_ok default_config "2024-05-02" "10001" "Rover"
     (u "梭哈") w).2 = [Sent (Text help_text); Raised AttributeError]
  /\ (show_gacha_history always_ok default_config "2024-05-02" "10001" "Rover" w).2
     = [Raised AttributeError].
Proof. split; vm_compute; reflexivity. Qed.

Example empty_file_counts_as_no_roll :
  let w := {| files := {[ "10001" := Unparsable ]}; tape := [] |} in
  (show_gacha_history always_ok default_config "2024-05-02" "10001" "Rover" w).2
  = [Sent (Text no_history_text)].
Proof. vm_compute. reflexivity. Qed.


(** ** Sampling without replacement *)

Lemma swap_out_Permutation {A} (l : list A) j a y :
  l !! j = Some a -> a :: <[j := y]> l ≡ₚ y :: l.
Proof.
  revert j. induction l as [|x l IH]; intros [|j] Hj; simplify_eq/=.
  - apply perm_swap.
  - rewrite (perm_swap x a), (IH j Hj). apply perm_swap.
Qed.

Lemma randbelow_lt n r :
  (0 < n)%nat -> exists j r', randbelow n r = (Ok j, r') /\ (j < n)%nat.
Proof.
  intros Hn. unfold randbelow, bind, next_draw, ret.
  destruct r as [|x r]; eexists _, _; (split; [reflexivity|]);
    apply Nat.mod_upper_bound; lia.
Qed.

Lemma sample_loop_spec {A} (pool : list A) n todo i r :
  length pool = n -> (i + todo <= n)%nat ->
  exists res r',
    sample_loop pool n todo i r = (Ok res, r') /\ length res = todo /\
    exists rest, res ++ rest ≡ₚ take (n - i) pool.
Proof.
  revert pool i r. induction todo as [|todo IH]; intros pool i r Hlen Hle.
  { exists [], r. split; [done|]. split; [done|]. by exists (take (n - i) pool). }
  destruct (randbelow_lt (n - i) r) as (j & r1 & Hj & Hlt); [lia|].
  destruct (lookup_lt_is_Some_2 pool j) as [a Ha]; [lia|].
  destruct (lookup_lt_is_Some_2 pool (n - i - 1)) as [y Hy]; [lia|].
  destruct (IH (<[j := y]> pool) (S i) r1) as (res & r2 & Hres & Hlres & rest & Hperm);
    [by rewrite length_insert|lia|].
  exists (a :: res), r2. split; [|split].
  - cbn [sample_loop]. unfold bind at 1. rewrite Hj, Ha, Hy.
    unfold bind, ret. by rewrite Hres.
  - simpl. by rewrite Hlres.
  - exists rest. simpl. rewrite Hperm.
    replace (n - i)%nat with (S (n - i - 1)) by lia.
    replace (n - S i)%nat with (n - i - 1)%nat by lia.
    rewrite (take_S_r pool (n - i - 1) y Hy), <- Permutation_cons_append.
    destruct (decide (j = n - i - 1)%nat) as [->|Hne].
    + rewrite list_insert_id by done. by simplify_eq.
    + rewrite take_insert_lt by lia. apply swap_out_Permutation.
      rewrite lookup_take_lt by lia. done.
Qed.

Lemma sample_returns {A} (population : list A) k r :
  0 <= k <= Z.of_nat (length population) ->
  exists res r',
    sample population k r = (Ok res, r') /\ Z.of_nat (length res) = k /\
    exists rest, res ++ rest ≡ₚ population.
Proof.
  intros Hk. unfold sample.
  destruct (Z.ltb_spec k 0) as [?|_]; [lia|].
  destruct (Z.ltb_spec (Z.of_nat (length population)) k) as [?|_]; [lia|]. simpl.
  destruct (sample_loop_spec population (length population) (Z.to_nat k) 0 r)
    as (res & r' & Hres & Hlen & rest & Hperm); [done|lia|].
  exists res, r'. split; [done|]. split; [lia|]. exists rest.
  by rewrite Hperm, Nat.sub_0_r, firstn_all.
Qed.

Lemma sample_raises {A} (population : list A) k r :
  k < 0 \/ Z.of_nat (length population) < k ->
  sample population k r = (Raise ValueError, r).
Proof.
  intros Hk. unfold sample.
  destruct (Z.ltb_spec k 0); [done|].
  destruct (Z.ltb_spec (Z.of_nat (length population)) k); [done|]. lia.
Qed.

Lemma sample_sound {A} (population : list A) k r res r' :
  sample population k r = (Ok res, r') ->
  Z.of_nat (length res) = k /\ exists rest, res ++ rest ≡ₚ population.
Proof.
  intros Hs.
  destruct (decide (0 <= k <= Z.of_nat (length population))) as [Hk|Hk].
  - destruct (sample_returns population k r Hk) as (res0 & r0 & H0 & Hlen & Hperm).
    rewrite H0 in Hs. by simplify_eq.
  - rewrite sample_raises in Hs by lia. done.
Qed.

(** A part of a permutation of the table sits at different positions of it. *)
Lemma Permutation_positions {A B} (P : A -> B -> Prop) sel rest table out :
  sel ++ rest ≡ₚ table -> Forall2 P sel out ->
  exists idx : list nat,
    NoDup idx /\
    Forall2 (fun i s => exists a, table !! i = Some a /\ P a s) idx out.
Proof.
  intros [Hlen (f & Hf & Hlook)]%Permutation_inj HP.
  exists (f <$> seq 0 (length sel)). split.
  - apply NoDup_fmap_2; [done|]. apply NoDup_seq.
  - apply Forall2_same_length_lookup. split.
    { rewrite length_fmap, length_seq. by eapply Forall2_length. }
    intros i j s Hi Hs. rewrite list_lookup_fmap in Hi.
    destruct (seq 0 (length sel) !! i) as [i'|] eqn:Hseq; [|done].
    apply lookup_seq in Hseq as [-> Hlt]. simpl in Hi. simplify_eq.
    destruct (lookup_lt_is_Some_2 sel i Hlt) as [a Ha].
    exists a. split.
    + by rewrite <- Hlook, lookup_app_l, Ha.
    + eapply Forall2_lookup_lr; eauto.
Qed.

(** ** One rolled stat *)

Lemma choice_sound {A} (seq : list A) r x r' :
  choice seq r = (Ok x, r') -> x ∈ seq.
Proof.
  unfold choice. destruct seq as [|a seq]; [done|].
  unfold bind. destruct (randbelow _ r) as [[j|e] r1]; [|done].
  destruct (_ !! j) as [y|] eqn:Hy; [|done].
  unfold ret. intros [= <- <-]. by eapply list_elem_of_lookup_2.
Qed.

Lemma choice_returns {A} (seq : list A) r :
  seq <> [] -> exists x r', choice seq r = (Ok x, r').
Proof.
  intros Hne. unfold choice. destruct seq as [|a seq]; [done|].
  destruct (randbelow_lt (length (a :: seq)) r) as (j & r1 & Hj & Hlt);
    [simpl; lia|].
  destruct (lookup_lt_is_Some_2 (a :: seq) j Hlt) as [y Hy].
  exists y, r1. unfold bind. by rewrite Hj, Hy.
Qed.

Lemma fold_max_spec l x :
  let m := fold_left (fun m item => if Qle_bool item m then m else item) l x in
  m ∈ x :: l /\ (x <= m)%Q /\ forall y, y ∈ l -> (y <= m)%Q.
Proof.
  revert x. induction l as [|y l IH]; intros x; simpl.
  { split; [by left|]. split; [apply Qle_refl|]. intros y Hy. by inversion Hy. }
  destruct (IH (if Qle_bool y x then x else y)) as (Hin & Hle & Hall).
  destruct (Qle_bool y x) eqn:Hyx.
  - apply Qle_bool_iff in Hyx. split; [|split; [done|]].
    + apply elem_of_cons in Hin as [->|Hin]; [by left|right; by right].
    + intros z [->|Hz]%elem_of_cons; [by eapply Qle_trans|by apply Hall].
  - assert (x <= y)%Q as Hxy.
    { apply Qlt_le_weak, Qnot_le_lt. intros H. apply Qle_bool_iff in H. congruence. }
    split; [by right|]. split; [by eapply Qle_trans|].
    intros z [->|Hz]%elem_of_cons; [done|by apply Hall].
Qed.

Lemma py_max_spec l m : py_max l = Ok m -> maximum_of l m.
Proof.
  destruct l as [|x l]; [done|]. simpl. intros [= <-].
  destruct (fold_max_spec l x) as (Hin & Hle & Hall). split; [done|].
  intros y [->|Hy]%elem_of_cons; [done|by apply Hall].
Qed.

Lemma roll_stat_sound sc r s r' :
  roll_stat sc r = (Ok s, r') -> rolled_from sc s /\ max_flag_exact sc s.
Proof.
  unfold roll_stat, bind, lift, ret.
  destruct (choice (values sc) r) as [[v|e] r1] eqn:Hv; [|done].
  apply choice_sound in Hv.
  destruct (py_max (values sc)) as [m|e] eqn:Hm; [|done].
  apply py_max_spec in Hm. intros [= <- <-]. split; [done|].
  unfold max_flag_exact. simpl. rewrite Qeq_bool_iff. split.
  - intros Heq. by exists m.
  - intros (m' & [Hin' Hmax'] & Heq). rewrite Heq.
    destruct Hm as [Hin Hmax]. apply Qle_antisym; auto.
Qed.

Lemma roll_stat_returns sc r :
  values sc <> [] -> exists s r', roll_stat sc r = (Ok s, r').
Proof.
  intros Hne. destruct (choice_returns (values sc) r Hne) as (v & r1 & Hv).
  unfold roll_stat, bind, lift, ret. rewrite Hv.
  destruct (values sc) as [|x l]; [done|]. simpl. by eexists _, _.
Qed.

Lemma roll_stats_sound selected r stats r' :
  roll_stats selected r = (Ok stats, r') ->
  Forall2 (fun sc s => rolled_from sc s /\ max_flag_exact sc s) selected stats.
Proof.
  revert r stats. induction selected as [|sc selected IH]; intros r stats; simpl.
  { unfold ret. intros [= <- <-]. constructor. }
  unfold bind.
  destruct (roll_stat sc r) as [[s|e] r1] eqn:Hs; [|done].
  destruct (roll_stats selected r1) as [[rest|e] r2] eqn:Hrest; [|done].
  unfold ret. intros [= <- <-]. constructor; [by eapply roll_stat_sound|by eapply IH].
Qed.

Lemma roll_stats_returns selected r :
  Forall (fun sc => values sc <> []) selected ->
  exists stats r', roll_stats selected r = (Ok stats, r').
Proof.
  intros H. revert r. induction H as [|sc selected Hsc _ IH]; intros r; simpl.
  { by eexists _, _. }
  destruct (roll_stat_returns sc r Hsc) as (s & r1 & Hs).
  destruct (IH r1) as (stats & r2 & Hstats).
  unfold bind, ret. rewrite Hs, Hstats. by eexists _, _.
Qed.

(** ** The generator *)

Lemma generate_phantom_stats_sound config r stats r' :
  generate_phantom_stats config r = (Ok stats, r') ->
  Z.of_nat (length stats)
  = Z.min (stats_count (settings config)) (Z.of_nat (length (substats config))) /\
  drawn_without_replacement (fun sc s => rolled_from sc s /\ max_flag_exact sc s)
                            (substats config) stats.
Proof.
  unfold generate_phantom_stats, bind.
  destruct (sample _ _ r) as [[selected|e] r1] eqn:Hsel; [|done].
  intros Hroll. apply sample_sound in Hsel as [Hlen (rest & Hperm)].
  apply roll_stats_sound in Hroll. split.
  - by rewrite <- (Forall2_length _ _ _ Hroll).
  - by eapply Permutation_positions.
Qed.

Lemma generate_phantom_stats_returns config r :
  0 <= stats_count (settings config) ->
  Forall (fun sc => values sc <> []) (substats config) ->
  exists stats r', generate_phantom_stats config r = (Ok stats, r').
Proof.
  intros Hk Hvals. unfold generate_phantom_stats, bind.
  destruct (sample_returns (substats config)
              (Z.min (stats_count (settings config))
                     (Z.of_nat (length (substats config)))) r)
    as (selected & r1 & Hsel & _ & rest & Hperm); [lia|].
  rewrite Hsel. apply roll_stats_returns.
  rewrite <- Hperm in Hvals. by apply Forall_app in Hvals as [? _].
Qed.

Lemma drawn_without_replacement_weaken (P Q : StatConfig -> PhantomStat -> Prop)
    table stats :
  (forall sc s, P sc s -> Q sc s) ->
  drawn_without_replacement P table stats ->
  drawn_without_replacement Q table stats.
Proof.
  intros HPQ (idx & Hnd & Hall). exists idx. split; [done|].
  eapply Forall2_impl; [exact Hall|]. intros i s (sc & Hsc & HP). eauto.
Qed.

(** C1, as amended. With a [stats_count] that is not negative and a table
    whose definitions all have a candidate value, the generator returns
    exactly [min(stats_count, len(substats))] stats, each rolled from a
    definition of the table, at pairwise different positions of it. *)
Theorem generate_phantom_stats_samples_distinct config r :
  0 <= stats_count (settings config) ->
  Forall (fun sc => values sc <> []) (substats config) ->
  returns_distinct_sample config r.
Proof.
  intros Hk Hvals.
  destruct (generate_phantom_stats_returns config r Hk Hvals) as (stats & r' & Hgen).
  exists stats, r'. split; [done|].
  destruct (generate_phantom_stats_sound _ _ _ _ Hgen) as [Hlen Hdraw].
  split; [done|]. eapply drawn_without_replacement_weaken; [|exact Hdraw].
  by intros sc s [? _].
Qed.

Lemma generate_phantom_stats_samples_distinct_witness :
  returns_distinct_sample default_config [0; 0; 0; 0; 0; 0; 1; 0; 7; 2]%nat.
Proof.
  apply generate_phantom_stats_samples_distinct; [done|].
  repeat (constructor; [done|]). constructor.
Defined.

(** C1 as stated fails: with [stats_count = -1] the sample size is negative,
    [random.sample] raises, and the generator returns nothing. *)
Lemma negative_count_raises :
  generate_phantom_stats negative_count_config [] = (Raise ValueError, [])
  /\ ~ returns_distinct_sample negative_count_config [].
Proof.
  assert (generate_phantom_stats negative_count_config [] = (Raise ValueError, []))
    as H by (vm_compute; reflexivity).
  split; [done|]. intros (stats & r' & Hgen & _). rewrite H in Hgen. done.
Qed.

(** C2. Whenever the generator returns, every stat it returns is rolled from
    a definition of the table, and its [is_max] flag is set exactly when its
    value equals the largest candidate value of that definition. *)
Theorem is_max_iff_value_is_maximum config r stats r' :
  generate_phantom_stats config r = (Ok stats, r') ->
  drawn_without_replacement (fun sc s => rolled_from sc s /\ max_flag_exact sc s)
                            (substats config) stats.
Proof. intros Hgen. by apply generate_phantom_stats_sound in Hgen as [_ ?]. Qed.

Lemma is_max_iff_value_is_maximum_witness :
  exists stats r',
    generate_phantom_stats default_config [0; 0; 0; 0; 0; 0; 1; 0; 7; 2]%nat
    = (Ok stats, r')
    /\ (value <$> stats = [50; 10.9; 11.6; 6.4; 10.1]%Q)
    /\ (is_max <$> stats = [true; false; true; false; false])
    /\ drawn_without_replacement
         (fun sc s => rolled_from sc s /\ max_flag_exact sc s)
         (substats default_config) stats.
Proof.
  eexists _, _. split; [vm_compute; reflexivity|].
  split; [reflexivity|]. split; [reflexivity|].
  apply (is_max_iff_value_is_maximum default_config
           [0; 0; 0; 0; 0; 0; 1; 0; 7; 2]%nat _ []).
  vm_compute. reflexivity.
Defined.

(** ** The roll loop *)

Lemma seqZ_S m n : seqZ m (Z.of_nat (S n)) = m :: seqZ (m + 1) (Z.of_nat n).
Proof.
  rewrite seqZ_cons by lia. f_equal. f_equal; lia.
Qed.

(** Every outcome of the loop: [imgs] are the cards of the iterations that
    completed, numbered on from those of earlier rolls. Either all [todo]
    iterations completed, or an exception ended the loop early: raised by a
    generator call, or by the drawing of a card whose stats were generated. *)
Lemma roll_loop_shape R config rolls_done todo i r :
  exists imgs r' evs out,
    roll_loop R config rolls_done todo i r = (out, r', evs) /\
    roll_number <$> imgs = seqZ (rolls_done + i + 1) (Z.of_nat (length imgs)) /\
    ((out = Ok (records_of imgs, imgs) /\ length imgs = todo /\
      evs = roll_events imgs)
     \/ (exists e, out = Raise e /\ (length imgs < todo)%nat /\
         (evs = roll_events imgs
          \/ exists stats, e = RenderError /\
               evs = roll_events imgs ++ [Generated stats]))).
Proof.
  revert i r. induction todo as [|todo IH]; intros i r.
  { exists [], r, [], (Ok ([], [])). split; [done|]. split; [done|]. by left. }
  cbn [roll_loop].
  destruct (generate_phantom_stats config r) as [[stats|e] r1] eqn:Hgen.
  2:{ exists [], r1, [], (Raise e). split; [done|]. split; [done|].
      right. exists e. split; [done|]. split; [simpl; lia|]. by left. }
  destruct (card_ok R stats (rolls_done + i + 1)) eqn:Hcard.
  2:{ exists [], r1, [Generated stats], (Raise RenderError).
      split; [done|]. split; [done|]. right. exists RenderError.
      split; [done|]. split; [simpl; lia|]. right. by exists stats. }
  destruct (IH (i + 1) r1) as (imgs & r2 & evs & out & Hloop & Hnum & Hout).
  set (img := {| card_stats := stats; roll_number := rolls_done + i + 1 |}).
  rewrite Hloop.
  assert (roll_number <$> img :: imgs
          = seqZ (rolls_done + i + 1) (Z.of_nat (length (img :: imgs)))) as Hnum'.
  { cbn [length]. rewrite seqZ_S. cbn [fmap list_fmap]. f_equal.
    rewrite Hnum. f_equal. lia. }
  destruct Hout as [(-> & Hlen & ->)|(e & -> & Hlen & Hevs)].
  - exists (img :: imgs), r2, (roll_events (img :: imgs)),
      (Ok (records_of (img :: imgs), img :: imgs)).
    split; [done|]. split; [done|]. left. split; [done|]. split; [|done].
    simpl. by rewrite Hlen.
  - exists (img :: imgs), r2, (Generated stats :: CardDrawn img :: evs), (Raise e).
    split; [done|]. split; [done|]. right. exists e. split; [done|].
    split; [simpl; lia|].
    destruct Hevs as [->|(stats' & -> & ->)]; [by left|].
    right. by exists stats'.
Qed.

(** ** Reading the ledger *)

Lemma load_records_readable fs user_id :
  readable fs user_id ->
  load_records fs user_id = Ok (Dict (document_of fs user_id)).
Proof. intros [d Hd]. unfold document_of. by rewrite Hd. Qed.

Lemma readable_cases fs user_id :
  readable fs user_id
  \/ (load_records fs user_id = Raise UnicodeDecodeError
      /\ fs !! user_id = Some Undecodable)
  \/ (load_records fs user_id = Ok NoDict /\ fs !! user_id = Some NotAnObject).
Proof.
  unfold readable, load_records.
  destruct (fs !! user_id) as [[d| | |]|]; eauto.
Qed.

Lemma not_readable fs user_id :
  ~ readable fs user_id <->
  fs !! user_id = Some Undecodable \/ fs !! user_id = Some NotAnObject.
Proof.
  split.
  - intros Hno.
    destruct (readable_cases fs user_id) as [?|[[_ ?]|[_ ?]]]; [done|by left|by right].
  - intros [H|H] [d Hd]; unfold load_records in Hd; by rewrite H in Hd.
Qed.

Lemma readable_or_not fs user_id : readable fs user_id \/ ~ readable fs user_id.
Proof.
  destruct (readable_cases fs user_id) as [?|[[_ ?]|[_ ?]]]; [by left| |];
    right; apply not_readable; auto.
Qed.

(** What the handlers do with a file that gives no dict: the exception of
    [load_records] or of the first [get]. *)
Lemma load_or_get_raises fs user_id today_str :
  ~ readable fs user_id ->
  exists e,
    (e = UnicodeDecodeError \/ e = AttributeError) /\
    match load_records fs user_id with
    | Raise e' => e' = e
    | Ok all_records => get_today all_records today_str = Raise e
    end.
Proof.
  intros Hno. destruct (readable_cases fs user_id) as [?|[[-> _]|[-> _]]]; [done| |].
  - exists UnicodeDecodeError. auto.
  - exists AttributeError. auto.
Qed.

(** ** Every run of the roll command *)

Lemma roll_and_reply_outcome R config today_str user_id user_name
    rolls_remaining roll_count fs r :
  let records_today := records_today_of (document_of fs user_id) today_str in
  let out := roll_and_reply R config today_str user_id user_name records_today
               rolls_remaining roll_count {| files := fs; tape := r |} in
  roll_outcome fs today_str user_id user_name roll_count rolls_remaining
               (files out.1) out.2.
Proof.
  intros records_today out. subst out records_today. unfold roll_and_reply.
  change (user_daily_results_of (records_today_of (document_of fs user_id) today_str) user_id)
    with (stored_today fs today_str user_id).
  change (Z.of_nat (length (stored_today fs today_str user_id)))
    with (count_today fs today_str user_id).
  destruct (roll_loop_shape R config (count_today fs today_str user_id)
              (Z.to_nat roll_count) 0 r)
    as (imgs & r' & evs & res & Hloop & Hnum & Hres).
  cbn [tape files]. rewrite Hloop. rewrite Z.add_0_r in Hnum.
  destruct Hres as [(-> & Hlen & ->)|(e & -> & Hlen & Hevs)].
  - destruct (final_ok R _); cbn [fst snd files]; by constructor.
  - cbn [fst snd files]. destruct Hevs as [->|(stats & -> & ->)].
    + by constructor.
    + rewrite <- app_assoc. by constructor.
Qed.

Lemma maybe_help_cases m n r :
  (maybe_help m n r).1 = [] \/ (maybe_help m n r).1 = [Sent (Text help_text)].
Proof.
  unfold maybe_help. destruct (negb _ || _); [|by left].
  destruct (random_below_fifth r) as [[[|]|e] r']; auto.
Qed.

Lemma maybe_help_sent m n r :
  Sent (Text help_text) ∈ (maybe_help m n r).1 -> 1 <= n -> m = None.
Proof.
  unfold maybe_help. intros Hin Hn.
  destruct m as [ds|]; [|done]. exfalso.
  rewrite bool_decide_eq_true_2 in Hin by eauto.
  destruct (Z.ltb_spec n 1) as [?|_]; [lia|]. simpl in Hin.
  by apply elem_of_nil in Hin.
Qed.

(** The quota check and what follows it, on the document of the caller. *)
Lemma check_and_roll_cases R config today_str user_id user_name count help fs r :
  let records_today := records_today_of (document_of fs user_id) today_str in
  let rolls_remaining :=
    limit_sub (roll_limit config user_id) (count_today fs today_str user_id) in
  let out := check_and_roll R config today_str user_id user_name records_today
               count help {| files := fs; tape := r |} in
  exists rest,
    out.2 = help ++ rest /\
    ((files out.1 = fs /\
      limit_le0 rolls_remaining = true /\ rest = [Sent (Text exhausted_text)])
     \/ (files out.1 = fs /\
         limit_le0 rolls_remaining = false /\
         exceeds count rolls_remaining = true /\
         rest = [Sent (Text (insufficient_text rolls_remaining))])
     \/ (limit_le0 rolls_remaining = false /\
         exceeds count rolls_remaining = false /\
         roll_outcome fs today_str user_id user_name count rolls_remaining
                      (files out.1) rest)).
Proof.
  intros records_today rolls_remaining out. subst out records_today.
  unfold check_and_roll.
  change (Z.of_nat (length (user_daily_results_of
            (records_today_of (document_of fs user_id) today_str) user_id)))
    with (count_today fs today_str user_id).
  fold rolls_remaining.
  destruct (limit_le0 rolls_remaining) eqn:Hle.
  { eexists. split; [done|]. by left. }
  destruct (exceeds count rolls_remaining) eqn:Hex.
  { eexists. split; [done|]. right. by left. }
  pose proof (roll_and_reply_outcome R config today_str user_id user_name
                rolls_remaining count fs r) as Hout.
  cbv zeta in Hout.
  destruct (roll_and_reply _ _ _ _ _ _ _ _ _) as [w2 evs]. cbn [fst snd] in *.
  exists evs. split; [done|]. right. right. by split.
Qed.

Lemma gacha_phantom_command_silent R config today_str user_id user_name text w :
  history_words text = true ->
  gacha_phantom_command R config today_str user_id user_name text w = (w, []).
Proof. intros H. unfold gacha_phantom_command. by rewrite H. Qed.

(** A digit run that [int] does not convert: the exception leaves the
    handler before anything else happened. *)
Lemma gacha_phantom_command_int_raises
    R config today_str user_id user_name text w e :
  history_words text = false ->
  parse_roll_count text = Raise e ->
  gacha_phantom_command R config today_str user_id user_name text w
  = (w, [Raised e]).
Proof.
  intros Hhist Hparse. unfold gacha_phantom_command. rewrite Hhist.
  unfold parse_roll_count in Hparse. by rewrite Hparse.
Qed.

(** The events of a roll command whose text has no history word and whose
    count is [count]: the help step first; then the exception of a file that
    gives no dict, a rejection, or one of the outcomes of the loop. *)
Lemma gacha_phantom_command_events
    R config today_str user_id user_name text w count :
  let out := gacha_phantom_command R config today_str user_id user_name text w in
  let rolls_remaining :=
    limit_sub (roll_limit config user_id) (count_today (files w) today_str user_id) in
  let help := (maybe_help (re_search_digits (substitute_numerals text))
                          count (tape w)).1 in
  history_words text = false ->
  parse_roll_count text = Ok count ->
  exists rest,
    out.2 = help ++ rest /\
    ((~ readable (files w) user_id /\ files out.1 = files w /\
      exists e, (e = UnicodeDecodeError \/ e = AttributeError) /\ rest = [Raised e])
     \/ (readable (files w) user_id /\ files out.1 = files w /\
         limit_le0 rolls_remaining = true /\ rest = [Sent (Text exhausted_text)])
     \/ (readable (files w) user_id /\ files out.1 = files w /\
         limit_le0 rolls_remaining = false /\
         exceeds count rolls_remaining = true /\
         rest = [Sent (Text (insufficient_text rolls_remaining))])
     \/ (accepted config (files w) today_str user_id text count /\
         roll_outcome (files w) today_str user_id user_name count
                      rolls_remaining (files out.1) rest)).
Proof.
  intros out rolls_remaining help Hhist Hparse. subst out help.
  unfold gacha_phantom_command. rewrite Hhist.
  pose proof Hparse as Hparse'. unfold parse_roll_count in Hparse'.
  rewrite Hparse'. clear Hparse'.
  destruct (maybe_help _ _ (tape w)) as [help r]. cbn [fst].
  destruct (readable_or_not (files w) user_id) as [Hread|Hno].
  - rewrite (load_records_readable _ _ Hread). cbn [get_today].
    destruct (check_and_roll_cases R config today_str user_id user_name count
                help (files w) r) as (rest & Hevs & Hrest).
    cbv zeta in Hevs, Hrest. fold rolls_remaining in Hrest.
    exists rest. split; [exact Hevs|].
    destruct Hrest as [(? & ? & ?)|[(? & ? & ? & ?)|(? & ? & ?)]].
    + right. left. done.
    + right. right. left. done.
    + right. right. right. split; [|done]. done.
  - destruct (load_or_get_raises _ _ today_str Hno) as (e & He & Hload).
    destruct (load_records (files w) user_id) as [all_records|e'].
    + rewrite Hload. exists [Raised e]. split; [done|]. left.
      split; [done|]. split; [done|]. by exists e.
    + subst e'. exists [Raised e]. split; [done|]. left.
      split; [done|]. split; [done|]. by exists e.
Qed.

Lemma gacha_phantom_command_rejected
    R config today_str user_id user_name text w count :
  let rolls_remaining :=
    limit_sub (roll_limit config user_id) (count_today (files w) today_str user_id) in
  let out := gacha_phantom_command R config today_str user_id user_name text w in
  history_words text = false ->
  parse_roll_count text = Ok count ->
  readable (files w) user_id ->
  limit_le0 rolls_remaining = true
  \/ exceeds count rolls_remaining = true ->
  files out.1 = files w /\
  exists help,
    (help = [] \/ help = [Sent (Text help_text)]) /\
    (Sent (Text help_text) ∈ help ->
     re_search_digits (substitute_numerals text) = None) /\
    out.2 = help ++ [Sent (Text (if limit_le0 rolls_remaining
                                 then exhausted_text
                                 else insufficient_text rolls_remaining))].
Proof.
  intros rolls_remaining out Hhist Hparse Hread Hrej.
  destruct (gacha_phantom_command_events R config today_str user_id user_name
              text w count Hhist Hparse) as (rest & Hevs & Hrest).
  fold out in Hevs, Hrest. fold rolls_remaining in Hrest.
  set (help := (maybe_help (re_search_digits (substitute_numerals text)) count
                           (tape w)).1) in *.
  assert ((help = [] \/ help = [Sent (Text help_text)]) /\
          (Sent (Text help_text) ∈ help ->
           re_search_digits (substitute_numerals text) = None)) as [Hhelp Hsent].
  { split; [apply maybe_help_cases|]. intros Hin.
    eapply maybe_help_sent; [exact Hin|]. by eapply parse_roll_count_pos. }
  destruct Hrest as [(Hno & _)|[(_ & Hfiles & Hle & ->)|[(_ & Hfiles & Hle & Hex & ->)
                    |((_ & _ & _ & Hle & Hex) & _)]]].
  - done.
  - rewrite Hle. split; [done|]. by exists help.
  - rewrite Hle. split; [done|]. by exists help.
  - cbv zeta in Hle, Hex. fold rolls_remaining in Hle, Hex.
    destruct Hrej as [?|?]; congruence.
Qed.

Lemma gacha_phantom_command_accepted
    R config today_str user_id user_name text w count :
  let rolls_remaining :=
    limit_sub (roll_limit config user_id) (count_today (files w) today_str user_id) in
  let out := gacha_phantom_command R config today_str user_id user_name text w in
  accepted config (files w) today_str user_id text count ->
  exists help evs,
    (help = [] \/ help = [Sent (Text help_text)]) /\
    out.2 = help ++ evs /\
    roll_outcome (files w) today_str user_id user_name count
                 rolls_remaining (files out.1) evs.
Proof.
  intros rolls_remaining out (Hhist & Hparse & Hread & Hle & Hex).
  fold rolls_remaining in Hle, Hex.
  destruct (gacha_phantom_command_events R config today_str user_id user_name
              text w count Hhist Hparse) as (rest & Hevs & Hrest).
  fold out in Hevs, Hrest. fold rolls_remaining in Hrest.
  eexists _, rest. split; [apply maybe_help_cases|]. split; [exact Hevs|].
  destruct Hrest as [(Hno & _)|[(_ & _ & Hle' & _)|[(_ & _ & _ & Hex' & _)
                    |(_ & Hout)]]]; [done|congruence|congruence|done].
Qed.

(** ** Quota *)

Lemma roll_limit_not_whitelisted config user_id :
  ~ whitelisted config user_id ->
  roll_limit config user_id = Finite (daily_limit_of config).
Proof.
  intros H. unfold roll_limit. by rewrite bool_decide_eq_false_2.
Qed.

Lemma roll_limit_whitelisted config user_id :
  whitelisted config user_id -> roll_limit config user_id = Inf.
Proof.
  intros H. unfold roll_limit. by rewrite bool_decide_eq_true_2.
Qed.

(** C3, as amended. A user who is not whitelisted asks for more rolls than
    remain, in a text without the history words whose digits [int] converts
    (at most 4300 of them), with a ledger file that gives a dict: the
    command turns the request down and leaves every file as it was. When
    nothing remains the message is the "used up" text without a number;
    otherwise it is the "not enough" text, which shows the remaining count
    times 50. It is the last message and, when something remains, the only
    one; when nothing remains and the text holds no number, the usage hint
    may come before it. *)
Theorem over_quota_request_is_rejected
    R config today_str user_id user_name text w count :
  ~ whitelisted config user_id ->
  history_words text = false ->
  parse_roll_count text = Ok count ->
  readable (files w) user_id ->
  remaining_quota config (files w) today_str user_id < count ->
  let out := gacha_phantom_command R config today_str user_id user_name text w in
  let remaining := remaining_quota config (files w) today_str user_id in
  files out.1 = files w /\
  count_today (files out.1) today_str user_id
  = count_today (files w) today_str user_id /\
  generated_stats out.2 = [] /\
  exists help,
    (help = []
     \/ help = [Sent (Text help_text)] /\ remaining <= 0 /\
        no_digit (substitute_numerals text)) /\
    out.2 = help ++
      [Sent (Text (if remaining <=? 0 then exhausted_text
                   else u " 你的调谐器不足！剩余调谐器 "
                        ++ str_of_int (remaining * 50) ++ u "！"))].
Proof.
  intros Hwl Hhist Hparse Hread Hover out remaining.
  destruct (gacha_phantom_command_rejected R config today_str user_id user_name
              text w count Hhist Hparse Hread)
    as (Hfiles & help & Hhelp & Hsent & Hevs).
  { rewrite (roll_limit_not_whitelisted _ _ Hwl).
    change (limit_sub (Finite (daily_limit_of config))
              (count_today (files w) today_str user_id))
      with (Finite (remaining_quota config (files w) today_str user_id)).
    right. cbn [exceeds]. by apply Z.ltb_lt. }
  fold out in Hfiles, Hevs.
  rewrite (roll_limit_not_whitelisted _ _ Hwl) in Hevs.
  change (limit_sub (Finite (daily_limit_of config))
            (count_today (files w) today_str user_id))
    with (Finite remaining) in Hevs.
  cbn [limit_le0] in Hevs.
  assert (insufficient_text (Finite remaining)
          = u " 你的调谐器不足！剩余调谐器 " ++ str_of_int (remaining * 50) ++ u "！")
    as Htext by reflexivity.
  rewrite Htext in Hevs. clear Htext.
  split; [exact Hfiles|]. split; [by rewrite Hfiles|]. split.
  - rewrite Hevs. unfold generated_stats. rewrite omap_app.
    destruct Hhelp as [-> | ->]; reflexivity.
  - exists help. split; [|exact Hevs].
    destruct Hhelp as [-> | ->]; [by left|right]. split; [done|].
    assert (re_search_digits (substitute_numerals text) = None) as Hnone
      by (apply Hsent; by left).
    split; [|by apply re_search_digits_None_inv].
    unfold parse_roll_count in Hparse. rewrite Hnone in Hparse.
    injection Hparse as <-. fold remaining in Hover. lia.
Qed.

(** The spec's example: no roll yet today, a limit of 20, 21 rolls asked
    for. The request is turned down, nothing is stored, and the one message
    shows 1000. *)
Lemma over_quota_request_is_rejected_witness :
  let out := gacha_phantom_command always_ok default_config "2024-05-02" "10001"
               "Rover" (u "21") empty_world in
  remaining_quota default_config (files empty_world) "2024-05-02" "10001" = 20
  /\ parse_roll_count (u "21") = Ok 21
  /\ count_today (files out.1) "2024-05-02" "10001" = 0
  /\ out.2 = [Sent (Text (u " 你的调谐器不足！剩余调谐器 1000！"))].
Proof.
  intros out. split; [reflexivity|]. split; [vm_compute; reflexivity|].
  destruct (over_quota_request_is_rejected always_ok default_config "2024-05-02"
              "10001" "Rover" (u "21") empty_world 21)
    as (_ & Hcount & _ & help & Hhelp & Hevs).
  - unfold whitelisted. by_compute.
  - vm_compute; reflexivity.
  - vm_compute; reflexivity.
  - by exists ∅.
  - vm_compute; reflexivity.
  - split; [exact Hcount|].
    destruct Hhelp as [->|(_ & Hle & _)]; [exact Hevs|].
    vm_compute in Hle. by exfalso; apply Hle.
Defined.

(** C3 as stated fails on the spec's own example, where 20 rolls remain and
    the message shows 1000, and for a user with nothing left, whose message
    shows no number. *)
Lemma rejection_does_not_report_count :
  ~ rejects_reporting_remaining always_ok default_config "2024-05-02" "10001"
      "Rover" (u "21") empty_world
  /\ ~ rejects_reporting_remaining always_ok default_config "2024-05-02" "10001"
       "Rover" (u "1") (world_with "2024-05-02" "10001" 20).
Proof.
  split; intros (_ & t & Hlast & Hrep).
  - assert (t = u " 你的调谐器不足！剩余调谐器 1000！") as ->.
    { vm_compute in Hlast. injection Hlast as <-. vm_compute. reflexivity. }
    vm_compute in Hrep. discriminate.
  - assert (t = exhausted_text) as ->.
    { vm_compute in Hlast. injection Hlast as <-. vm_compute. reflexivity. }
    vm_compute in Hrep. discriminate.
Qed.

(** ** The events of a run *)

Lemma gacha_phantom_command_cases R config today_str user_id user_name text w :
  let out := gacha_phantom_command R config today_str user_id user_name text w in
  let rolls_remaining :=
    limit_sub (roll_limit config user_id) (count_today (files w) today_str user_id) in
  out = (w, [])
  \/ (files out.1 = files w /\
      exists help t, (help = [] \/ help = [Sent (Text help_text)]) /\
                     out.2 = help ++ [Sent (Text t)])
  \/ (files out.1 = files w /\
      exists help e, (help = [] \/ help = [Sent (Text help_text)]) /\
                     out.2 = help ++ [Raised e])
  \/ (exists count,
        accepted config (files w) today_str user_id text count /\
        exists help evs,
          (help = [] \/ help = [Sent (Text help_text)]) /\
          out.2 = help ++ evs /\
          roll_outcome (files w) today_str user_id user_name count
                       rolls_remaining (files out.1) evs).
Proof.
  intros out rolls_remaining.
  destruct (history_words text) eqn:Hhist.
  { left. by apply gacha_phantom_command_silent. }
  destruct (parse_roll_count text) as [count|e] eqn:Hparse.
  2:{ right. right. left. subst out.
      rewrite (gacha_phantom_command_int_raises _ _ _ _ _ _ _ e Hhist Hparse).
      split; [done|]. exists [], e. split; [by left|done]. }
  destruct (gacha_phantom_command_events R config today_str user_id user_name
              text w count Hhist Hparse) as (rest & Hevs & Hrest).
  fold out in Hevs, Hrest. fold rolls_remaining in Hrest.
  pose proof (maybe_help_cases (re_search_digits (substitute_numerals text))
                count (tape w)) as Hhelp.
  destruct Hrest as [(_ & Hfiles & e & _ & ->)|[(_ & Hfiles & _ & ->)
                    |[(_ & Hfiles & _ & _ & ->)|(Hacc & Hout)]]].
  - right. right. left. split; [done|]. by eexists _, e.
  - right. left. split; [done|]. by eexists _, _.
  - right. left. split; [done|]. by eexists _, _.
  - right. right. right. exists count. split; [done|]. by eexists _, rest.
Qed.

Lemma Saved_not_in_raised uid doc help e :
  help = [] \/ help = [Sent (Text help_text)] -> Saved uid doc ∉ help ++ [Raised e].
Proof.
  intros [-> | ->] H; repeat (apply elem_of_cons in H as [H|H]; [done|]);
    by apply elem_of_nil in H.
Qed.

Lemma generated_stats_app evs1 evs2 :
  generated_stats (evs1 ++ evs2) = generated_stats evs1 ++ generated_stats evs2.
Proof. apply omap_app. Qed.

Lemma generated_stats_roll_events imgs :
  generated_stats (roll_events imgs) = card_stats <$> imgs.
Proof. induction imgs as [|c imgs IH]; [done|]. simpl. f_equal. exact IH. Qed.

Lemma generated_stats_help help :
  help = [] \/ help = [Sent (Text help_text)] -> generated_stats help = [].
Proof. by intros [-> | ->]. Qed.

Lemma records_of_generated imgs :
  records_of imgs = map (map to_dict) (card_stats <$> imgs).
Proof. unfold records_of. by rewrite <- list_fmap_compose. Qed.

Lemma Saved_not_in_roll_events uid doc imgs : Saved uid doc ∉ roll_events imgs.
Proof.
  intros H. apply list_elem_of_In, in_flat_map in H as (c & _ & Hin).
  destruct Hin as [?|[?|[]]]; done.
Qed.

Lemma Saved_not_in_help uid doc help :
  help = [] \/ help = [Sent (Text help_text)] -> Saved uid doc ∉ help.
Proof.
  intros [-> | ->] H; [by apply elem_of_nil in H|].
  by apply list_elem_of_singleton in H.
Qed.

(** When something is saved, the run is one of the two that saved, and the
    saved document is the one built from all the cards. *)
Lemma Saved_in_outcome fs today_str user_id user_name count rem fs' evs uid doc :
  roll_outcome fs today_str user_id user_name count rem fs' evs ->
  Saved uid doc ∈ evs ->
  exists imgs,
    length imgs = Z.to_nat count /\ uid = user_id /\
    doc = appended fs today_str user_id (records_of imgs) /\
    fs' = save_records user_id doc fs /\
    generated_stats evs = card_stats <$> imgs.
Proof.
  intros Hout Hin.
  destruct Hout as [imgs Hlen Hnum|imgs Hlen Hnum|imgs e Hlen Hnum|imgs stats Hlen Hnum];
    apply elem_of_app in Hin as [Hin|Hin];
    try (by apply Saved_not_in_roll_events in Hin);
    repeat (apply elem_of_cons in Hin as [Hin|Hin]; [|]); try done;
    try (by apply elem_of_nil in Hin);
    simplify_eq; exists imgs;
    rewrite generated_stats_app, generated_stats_roll_events; simpl;
    by rewrite app_nil_r.
Qed.

(** ** Appending to the ledger *)

Lemma stored_today_saved fs today_str user_id new :
  stored_today (save_records user_id (appended fs today_str user_id new) fs)
               today_str user_id
  = stored_today fs today_str user_id ++ new.
Proof.
  unfold stored_today at 1. unfold save_records, document_of at 1, load_records.
  rewrite lookup_insert_eq. unfold appended, records_today_of at 1.
  rewrite lookup_singleton_eq. unfold user_daily_results_of.
  cbn [default from_option id]. rewrite lookup_insert_eq. reflexivity.
Qed.

(** C5, as amended. Whenever the roll command saves, it saves once, to the
    file of the caller, after [count] generator calls. The saved document
    has today's date as its only key: under it the caller's rolls are the
    stored ones followed by the new ones, and the entries of other users
    are as before; entries under other dates are not in it. *)
Theorem saved_document_holds_today_only
    R config today_str user_id user_name text w uid doc :
  let out := gacha_phantom_command R config today_str user_id user_name text w in
  let new := map (map to_dict) (generated_stats out.2) in
  let records_today := records_today_of (document_of (files w) user_id) today_str in
  Saved uid doc ∈ out.2 ->
  uid = user_id
  /\ files out.1 = <[user_id := Parsed doc]> (files w)
  /\ parse_roll_count text = Ok (Z.of_nat (length new))
  /\ doc = {[ today_str :=
                <[user_id := stored_today (files w) today_str user_id ++ new]>
                  records_today ]}
  /\ (forall d, d <> today_str -> doc !! d = None)
  /\ stored_today (files out.1) today_str user_id
     = stored_today (files w) today_str user_id ++ new
  /\ (forall other, other <> user_id ->
        records_today_of (document_of (files out.1) user_id) today_str !! other
        = records_today !! other).
Proof.
  intros out new records_today Hin. subst new.
  destruct (gacha_phantom_command_cases R config today_str user_id user_name text w)
    as [Hsilent|[(_ & help & t & Hhelp & Hevs)|[(_ & help & e & Hhelp & Hevs)
       |(count & Hacc & help & evs & Hhelp & Hevs & Hout)]]];
    fold out in Hsilent || fold out in Hevs.
  - rewrite Hsilent in Hin. by apply elem_of_nil in Hin.
  - rewrite Hevs in Hin. apply elem_of_app in Hin as [Hin|Hin].
    + by apply Saved_not_in_help in Hin.
    + by apply list_elem_of_singleton in Hin.
  - rewrite Hevs in Hin. by apply Saved_not_in_raised in Hin.
  - fold out in Hout. rewrite Hevs in Hin. apply elem_of_app in Hin as [Hin|Hin].
    { by apply Saved_not_in_help in Hin. }
    destruct (Saved_in_outcome _ _ _ _ _ _ _ _ _ _ Hout Hin)
      as (imgs & Hlen & -> & Hdoc & Hfiles & Hgen).
    rewrite Hevs, generated_stats_app, (generated_stats_help _ Hhelp), Hgen.
    cbn [app]. rewrite <- records_of_generated.
    destruct Hacc as (_ & Hparse & _).
    split; [done|]. split; [done|]. split.
    { rewrite Hparse. f_equal. unfold records_of. rewrite length_map, Hlen.
      pose proof (parse_roll_count_pos _ _ Hparse). lia. }
    split; [done|]. split.
    { intros d Hd. rewrite Hdoc. unfold appended. by rewrite lookup_singleton_ne. }
    rewrite Hfiles, Hdoc. split; [apply stored_today_saved|].
    intros other Hother.
    unfold save_records, document_of at 1, load_records, appended,
      records_today_of at 1.
    rewrite lookup_insert_eq, lookup_singleton_eq. simpl.
    by rewrite lookup_insert_ne.
Qed.

Lemma saved_document_holds_today_only_witness :
  let w := world_with "2024-05-01" "10001" 1 in
  let out := gacha_phantom_command always_ok default_config "2024-05-02" "10001"
               "Rover" (u "2") w in
  exists doc,
    out.2 !! 4%nat = Some (Saved "10001" doc)
    /\ doc !! "2024-05-01" = None
    /\ length (stored_today (files out.1) "2024-05-02" "10001") = 2%nat.
Proof.
  intros w out. eexists. split; [vm_compute; reflexivity|].
  match goal with |- ?d !! _ = None /\ _ =>
    destruct (saved_document_holds_today_only always_ok default_config "2024-05-02"
                "10001" "Rover" (u "2") w "10001" d)
      as (_ & _ & _ & _ & Hother & Hstored & _)
  end.
  - apply (list_elem_of_lookup_2 _ 4%nat). vm_compute. reflexivity.
  - split; [by apply Hother|]. fold out in Hstored. rewrite Hstored.
    vm_compute. reflexivity.
Defined.

(** C5 as stated fails: a roll stored yesterday is gone from the file after
    today's first roll. *)
Lemma append_drops_other_days :
  let w := world_with "2024-05-01" "10001" 1 in
  let out := gacha_phantom_command always_ok default_config "2024-05-02" "10001"
               "Rover" (u "1") w in
  ~ other_days_kept "2024-05-02" "10001" (files w) (files out.1).
Proof.
  intros w out H. specialize (H "2024-05-01" ltac:(done)).
  vm_compute in H. discriminate.
Qed.

(** ** The order of generating, drawing, saving and replying *)

(** C6, as amended. An accepted command generates and draws in turns: each
    generator call is followed by the drawing of that roll's card, numbered
    on from the stored rolls. Only after [count] rolls and cards does it
    save, once, the document with all [count] new records, and then build
    and send the final image; a failure there comes after the save. When a
    generator call or a card fails, nothing is saved. *)
Theorem roll_command_saves_after_all_cards
    R config today_str user_id user_name text w count :
  accepted config (files w) today_str user_id text count ->
  let out := gacha_phantom_command R config today_str user_id user_name text w in
  let rolls_remaining :=
    limit_sub (roll_limit config user_id) (count_today (files w) today_str user_id) in
  exists help imgs tail,
    (help = [] \/ help = [Sent (Text help_text)]) /\
    out.2 = help ++ roll_events imgs ++ tail /\
    numbered_from (count_today (files w) today_str user_id) imgs /\
    ((Z.of_nat (length imgs) = count /\
      generated_stats out.2 = card_stats <$> imgs /\
      files out.1
      = save_records user_id
          (appended (files w) today_str user_id (records_of imgs)) (files w) /\
      exists final,
        tail = Saved user_id (appended (files w) today_str user_id (records_of imgs))
               :: final /\
        (final = [Sent (Image {| image_objects := imgs;
                                 footer_user_name := user_name;
                                 tuners_remaining := limit_sub rolls_remaining count |});
                  LoggedInfo]
         \/ final = [LoggedException RenderError]))
     \/ (Z.of_nat (length imgs) < count /\
         files out.1 = files w /\
         ((exists e, tail = [LoggedException e])
          \/ exists stats, tail = [Generated stats; LoggedException RenderError]))).
Proof.
  intros Hacc out rolls_remaining.
  destruct (gacha_phantom_command_accepted R config today_str user_id user_name
              text w count Hacc) as (help & evs & Hhelp & Hevs & Hout).
  fold out in Hevs, Hout. fold rolls_remaining in Hout.
  assert (1 <= count) as Hpos.
  { destruct Hacc as (_ & Hparse & _). by eapply parse_roll_count_pos. }
  exists help.
  destruct Hout as [imgs Hlen Hnum|imgs Hlen Hnum|imgs e Hlen Hnum|imgs stats Hlen Hnum];
    exists imgs; eexists; (split; [done|]); (split; [exact Hevs|]); (split; [done|]).
  - left. split; [lia|]. split.
    { rewrite Hevs, !generated_stats_app, (generated_stats_help _ Hhelp),
        generated_stats_roll_events. simpl. by rewrite app_nil_r. }
    split; [done|]. eexists. split; [done|]. by left.
  - left. split; [lia|]. split.
    { rewrite Hevs, !generated_stats_app, (generated_stats_help _ Hhelp),
        generated_stats_roll_events. simpl. by rewrite app_nil_r. }
    split; [done|]. eexists. split; [done|]. by right.
  - right. split; [lia|]. split; [done|]. left. by exists e.
  - right. split; [lia|]. split; [done|]. right. by exists stats.
Qed.

Lemma roll_command_saves_after_all_cards_witness :
  let out := gacha_phantom_command always_ok default_config "2024-05-02" "10001"
               "Rover" (u "2") empty_world in
  accepted default_config ∅ "2024-05-02" "10001" (u "2") 2
  /\ count_today (files out.1) "2024-05-02" "10001" = 2
  /\ exists help imgs tail,
       out.2 = help ++ roll_events imgs ++ tail /\ numbered_from 0 imgs.
Proof.
  intros out.
  assert (accepted default_config ∅ "2024-05-02" "10001" (u "2") 2) as Hacc.
  { split; [vm_compute; reflexivity|]. split; [vm_compute; reflexivity|].
    split; [by exists ∅|]. split; vm_compute; reflexivity. }
  split; [exact Hacc|]. split; [vm_compute; reflexivity|].
  destruct (roll_command_saves_after_all_cards always_ok default_config
              "2024-05-02" "10001" "Rover" (u "2") empty_world 2 Hacc)
    as (help & imgs & tail & _ & Hevs & Hnum & _).
  exists help, imgs, tail. split; [exact Hevs|exact Hnum].
Defined.

(** C6 as stated fails: the stats of a roll were generated, its card could
    not be drawn, and nothing was stored. *)
Lemma card_failure_prevents_saving :
  ~ generated_records_are_saved cards_fail default_config "2024-05-02" "10001"
      "Rover" (u "1") empty_world.
Proof.
  intros H. unfold generated_records_are_saved in H. cbv zeta in H.
  assert (exists stats,
    generated_stats (gacha_phantom_command cards_fail default_config "2024-05-02"
                       "10001" "Rover" (u "1") empty_world).2 = [stats]) as [stats Hs]
    by (eexists; vm_compute; reflexivity).
  specialize (H stats). rewrite Hs in H. specialize (H ltac:(by left)).
  assert (stored_today
            (files (gacha_phantom_command cards_fail default_config "2024-05-02"
                      "10001" "Rover" (u "1") empty_world).1)
            "2024-05-02" "10001" = []) as Hnone by (vm_compute; reflexivity).
  rewrite Hnone in H. by apply elem_of_nil in H.
Qed.

(** ** Exceptions *)

Lemma roll_events_only imgs ev :
  ev ∈ roll_events imgs -> (exists stats, ev = Generated stats) \/ exists c, ev = CardDrawn c.
Proof.
  intros H. apply list_elem_of_In, in_flat_map in H as (c & _ & Hin).
  destruct Hin as [<-|[<-|[]]]; eauto.
Qed.



(** An accepted command is the help step followed by the body of the
    [try]. *)
Lemma gacha_phantom_command_accepted_eq
    R config today_str user_id user_name text w count :
  accepted config (files w) today_str user_id text count ->
  let m := maybe_help (re_search_digits (substitute_numerals text)) count (tape w) in
  let rolls_remaining :=
    limit_sub (roll_limit config user_id) (count_today (files w) today_str user_id) in
  let body :=
    roll_and_reply R config today_str user_id user_name
      (records_today_of (document_of (files w) user_id) today_str)
      rolls_remaining count {| files := files w; tape := m.2 |} in
  gacha_phantom_command R config today_str user_id user_name text w
  = (body.1, m.1 ++ body.2).
Proof.
  intros (Hhist & Hparse & Hread & Hle & Hex) m rolls_remaining body.
  subst body m. unfold gacha_phantom_command. rewrite Hhist.
  unfold parse_roll_count in Hparse. rewrite Hparse.
  destruct (maybe_help _ _ (tape w)) as [help r]. cbn [fst snd].
  rewrite (load_records_readable _ _ Hread). cbn [get_today].
  unfold check_and_roll.
  change (Z.of_nat (length (user_daily_results_of
            (records_today_of (document_of (files w) user_id) today_str) user_id)))
    with (count_today (files w) today_str user_id).
  fold rolls_remaining. fold rolls_remaining in Hle, Hex. rewrite Hle, Hex.
  by destruct (roll_and_reply _ _ _ _ _ _ _ _ _).
Qed.

Lemma help_events_only help ev :
  help = [] \/ help = [Sent (Text help_text)] -> ev ∈ help -> ev = Sent (Text help_text).
Proof.
  intros [-> | ->] H; [by apply elem_of_nil in H|by apply list_elem_of_singleton in H].
Qed.


Lemma roll_outcome_files fs today_str user_id user_name count rem fs' evs :
  1 <= count ->
  roll_outcome fs today_str user_id user_name count rem fs' evs ->
  fs' = fs
  \/ exists new,
       Z.of_nat (length new) = count /\
       fs' = save_records user_id (appended fs today_str user_id new) fs.
Proof.
  intros Hpos [imgs Hlen _|imgs Hlen _|imgs e _ _|imgs stats _ _];
    [right|right|by left|by left];
    (exists (records_of imgs); split; [|done]);
    unfold records_of; rewrite length_map; lia.
Qed.




(** ** The daily limit *)

Lemma records_today_of_lookup fs user_id today_str other recs :
  records_today_of (document_of fs user_id) today_str !! other = Some recs ->
  exists d,
    fs !! user_id = Some (Parsed d) /\
    d !! today_str = Some (records_today_of (document_of fs user_id) today_str).
Proof.
  unfold records_today_of, document_of, load_records.
  destruct (fs !! user_id) as [[d| | |]|]; simpl; try by rewrite lookup_empty.
  destruct (d !! today_str) as [records|] eqn:Hd; simpl; [|by rewrite lookup_empty].
  intros _. by exists d.
Qed.

(** C9. The roll command preserves the invariant of the ledger: when no user
    outside the whitelist has more than [daily_limit] rolls under any date
    of any file, the same holds after the command. *)
Theorem daily_limit_is_preserved R config today_str user_id user_name text w :
  within_daily_limit config (files w) ->
  within_daily_limit config
    (files (gacha_phantom_command R config today_str user_id user_name text w).1).
Proof.
  intros Hinv.
  destruct (gacha_phantom_command_cases R config today_str user_id user_name text w)
    as [Hsilent|[(Hfiles & _)|[(Hfiles & _)
       |(count & (_ & Hparse & _ & Hle & Hex) & help & evs & _ & _ & Hout)]]].
  { by rewrite Hsilent. }
  { by rewrite Hfiles. }
  { by rewrite Hfiles. }
  destruct (roll_outcome_files _ _ _ _ _ _ _ _ (parse_roll_count_pos _ _ Hparse) Hout)
    as [->|(new & Hlen & ->)]; [done|].
  intros owner d day records other recs Hd Hday Hrecs Hwl.
  unfold save_records in Hd.
  destruct (decide (owner = user_id)) as [->|Hne];
    [|rewrite lookup_insert_ne in Hd by done; by eapply Hinv].
  rewrite lookup_insert_eq in Hd. injection Hd as <-.
  unfold appended in Hday. apply lookup_singleton_Some in Hday as [<- <-].
  destruct (decide (other = user_id)) as [->|Hother].
  - rewrite lookup_insert_eq in Hrecs. injection Hrecs as <-.
    rewrite (roll_limit_not_whitelisted _ _ Hwl) in Hex. simpl in Hex.
    apply Z.ltb_ge in Hex. rewrite length_app. unfold count_today in Hex. lia.
  - rewrite lookup_insert_ne in Hrecs by done.
    destruct (records_today_of_lookup _ _ _ _ _ Hrecs) as (d0 & Hd0 & Hday0).
    by eapply Hinv.
Qed.

Lemma daily_limit_is_preserved_witness :
  within_daily_limit default_config
    (files (gacha_phantom_command always_ok default_config "2024-05-02" "10001"
              "Rover" (u "1") (world_with "2024-05-02" "10001" 19)).1)
  /\ count_today
       (files (gacha_phantom_command always_ok default_config "2024-05-02" "10001"
                 "Rover" (u "1") (world_with "2024-05-02" "10001" 19)).1)
       "2024-05-02" "10001" = 20.
Proof.
  split; [|vm_compute; reflexivity].
  apply daily_limit_is_preserved.
  intros owner d day records other recs Hd Hday Hrecs _.
  unfold world_with in Hd. cbn [files] in Hd.
  apply lookup_singleton_Some in Hd as [<- [= <-]].
  apply lookup_singleton_Some in Hday as [<- <-].
  apply lookup_singleton_Some in Hrecs as [<- <-].
  vm_compute. discriminate.
Defined.

(** ** The whitelist *)

(** In the roll command a whitelisted user has no bound: whatever is
    stored, the remaining rolls are [math.inf], no request exceeds them, and
    they remain so after the request. *)
Lemma roll_remaining_unbounded config user_id rolls_done roll_count :
  whitelisted config user_id ->
  let rolls_remaining := limit_sub (roll_limit config user_id) rolls_done in
  rolls_remaining = Inf /\ limit_le0 rolls_remaining = false /\
  exceeds roll_count rolls_remaining = false /\
  limit_sub rolls_remaining roll_count = Inf.
Proof. intros H. by rewrite (roll_limit_whitelisted _ _ H). Qed.

Lemma history_loop_sends_nothing R results i m :
  Sent m ∉ (history_loop R results i).2.
Proof.
  revert i. induction results as [|r results IH]; intros i; simpl.
  - apply not_elem_of_nil.
  - destruct (card_ok R _ _); [|apply not_elem_of_nil].
    specialize (IH (i + 1)).
    destruct (history_loop R results (i + 1)) as [[imgs|e] evs]; simpl in *;
      by intros [?|?]%elem_of_cons.
Qed.

(** In the history command the remaining rolls are the limit minus the
    stored rolls for every user: the whitelist is not read. *)
Lemma history_remaining_is_finite R config today_str user_id user_name w img :
  Sent (Image img) ∈ (show_gacha_history R config today_str user_id user_name w).2 ->
  tuners_remaining img
  = Finite (default 6 (daily_limit (settings config))
            - count_today (files w) today_str user_id).
Proof.
  unfold show_gacha_history, count_today, stored_today, user_daily_results_of,
    document_of.
  destruct (load_records (files w) user_id) as [[d|]|e]; cbn [get_today];
    try (intros H; apply list_elem_of_singleton in H; done).
  unfold show_records.
  destruct (records_today_of _ _ !! user_id) as [[|rec recs]|];
    cbn [default from_option id snd];
    try (intros H; apply list_elem_of_singleton in H; done).
  pose proof (history_loop_sends_nothing R (rec :: recs) 0 (Image img)) as Hloop.
  destruct (history_loop R (rec :: recs) 0) as [[imgs|e] evs];
    cbn [snd] in Hloop.
  - match goal with |- context [final_ok R ?f] => destruct (final_ok R f) end;
      cbn [snd]; intros [?|Hin]%elem_of_app; try done;
      apply list_elem_of_singleton in Hin; by simplify_eq.
  - cbn [snd]. intros [?|Hin]%elem_of_app; [done|].
    by apply list_elem_of_singleton in Hin.
Qed.

(** C4 fails in the history command. The whitelisted user of the default
    configuration rolls 21 times, which the roll command allows with
    unbounded remaining rolls; the history image then shows 20 - 21 rolls
    remaining. *)
Theorem history_remaining_ignores_white_list :
  let w := (gacha_phantom_command always_ok default_config "2024-05-02"
              "644572093" "Rover" (u "21") empty_world).1 in
  let out := show_gacha_history always_ok default_config "2024-05-02"
               "644572093" "Rover" w in
  whitelisted default_config "644572093"
  /\ limit_sub (roll_limit default_config "644572093") 21 = Inf
  /\ count_today (files w) "2024-05-02" "644572093" = 21
  /\ exists img, last out.2 = Some (Sent (Image img))
                 /\ tuners_remaining img = Finite (-1).
Proof.
  intros w out. split; [unfold whitelisted; by_compute|].
  split; [vm_compute; reflexivity|].
  split; [vm_compute; reflexivity|].
  eexists. split; vm_compute; reflexivity.
Qed.

(** * Further properties of the code *)

(** ** Decimal numerals: [str] then [int] *)

Lemma decimal_value_ascii k :
  (k < 10)%N -> decimal_value (0x30 + k) = Some (Z.of_N k).
Proof.
  intros Hk. unfold decimal_value, decimal_runs. cbn [decimal_in].
  destruct (N.leb_spec 0x30 (0x30 + k)) as [_|?]; [|lia].
  destruct (N.ltb_spec (0x30 + k) (0x30 + 10)) as [_|?]; [|lia].
  simpl. f_equal. lia.
Qed.

Lemma digits_of_pos_spec fuel n acc :
  (n < 2 ^ N.of_nat fuel)%N -> (0 < fuel)%nat ->
  exists ds,
    digits_of_pos fuel n acc = ds ++ acc /\ ds <> [] /\
    Forall (fun c => is_digit c = true) ds /\
    int_of_digits ds = Z.of_N n.
Proof.
  revert n acc. induction fuel as [|fuel IH]; intros n acc Hn Hfuel; [lia|].
  cbn [digits_of_pos].
  assert (n mod 10 < 10)%N as Hmod by (apply N.mod_lt; lia).
  assert (is_digit (48 + n mod 10) = true) as Hdig.
  { unfold is_digit. by rewrite decimal_value_ascii. }
  destruct (N.ltb_spec n 10) as [Hsmall|Hbig].
  - exists [(48 + n mod 10)%N]. split; [done|]. split; [done|].
    split; [by constructor|].
    unfold int_of_digits. simpl. rewrite decimal_value_ascii by done. simpl.
    rewrite N.mod_small by done. lia.
  - destruct (IH (n / 10)%N ((48 + n mod 10)%N :: acc)) as (ds & Hds & Hne & Hall & Hval).
    { apply N.Div0.div_lt_upper_bound.
      rewrite Nat2N.inj_succ, N.pow_succ_r' in Hn. lia. }
    { destruct fuel; [|lia]. simpl in Hn. lia. }
    exists (ds ++ [(48 + n mod 10)%N]). split; [by rewrite Hds, <- app_assoc|].
    split; [by destruct ds|]. split.
    + apply Forall_app. split; [done|by constructor].
    + rewrite int_of_digits_snoc, Hval, decimal_value_ascii by done. simpl.
      pose proof (N.div_mod n 10 ltac:(lia)). lia.
Qed.

Lemma str_of_int_spec n :
  0 <= n ->
  str_of_int n <> [] /\ Forall (fun c => is_digit c = true) (str_of_int n) /\
  int_of_digits (str_of_int n) = n.
Proof.
  intros Hn. unfold str_of_int.
  destruct (Z.ltb_spec n 0) as [?|_]; [lia|].
  destruct (digits_of_pos_spec (S (N.to_nat (N.log2 (Z.abs_N n)))) (Z.abs_N n) [])
    as (ds & Hds & Hne & Hall & Hval).
  { rewrite Nat2N.inj_succ, N2Nat.id.
    destruct (N.eq_dec (Z.abs_N n) 0%N) as [->|Hpos]; [done|].
    apply N.log2_spec. lia. }
  { lia. }
  rewrite Hds, app_nil_r. split; [done|]. split; [done|]. rewrite Hval. lia.
Qed.

Lemma numeral_char_digits ds :
  Forall (fun c => is_digit c = true) ds -> flat_map numeral_char ds = ds.
Proof.
  induction 1 as [|c ds Hc _ IH]; [done|]. simpl.
  rewrite IH. unfold numeral_char at 1.
  destruct (assoc single_numerals c) as [v|] eqn:Hv; [|done].
  exfalso. clear -Hc Hv.
  assert (Forall (fun kv => is_digit kv.1 = false) single_numerals) as Hkeys
    by by_compute.
  induction Hkeys as [|[k v'] kvs Hk _ IHk]; [done|]. simpl in Hv, Hk.
  destruct (decide (c = k)) as [->|_]; [congruence|by apply IHk].
Qed.

(** A text that the numeral pass turns into the decimal numeral of [n],
    between texts without digits and numerals. *)
Lemma parse_roll_count_middle (pre mid post : pystr) (n : Z) :
  plain pre -> plain post -> 0 <= n ->
  flat_map numeral_char mid = str_of_int n ->
  parse_roll_count (pre ++ mid ++ post)
  = if int_max_str_digits <? Z.of_nat (length (str_of_int n))
    then Raise ValueError else Ok (Z.max 1 n).
Proof.
  intros [Hpre Hpre']%flat_map_numeral_char_id
         [Hpost Hpost']%flat_map_numeral_char_id Hn Hmid.
  destruct (str_of_int_spec n Hn) as (Hne & Hdig & Hval).
  unfold parse_roll_count.
  rewrite substitute_numerals_flat_map, !flat_map_app, Hpre, Hpost, Hmid.
  rewrite (re_search_digits_leftmost _ (str_of_int n)).
  - by rewrite roll_count_of_match_Some, Hval.
  - exists pre, post. repeat split; try done. by destruct Hpost'.
Qed.

(** X1. A request that holds the decimal numeral of a positive integer [n],
    between texts without digits and numerals, asks for [n] rolls when the
    numeral has at most 4300 digits: what [str] writes, the parser reads
    back. With a longer numeral the conversion raises [ValueError]. *)
Theorem parse_roll_count_reads_decimal (pre post : pystr) (n : Z) :
  plain pre -> plain post -> 1 <= n ->
  parse_roll_count (pre ++ str_of_int n ++ post)
  = if int_max_str_digits <? Z.of_nat (length (str_of_int n))
    then Raise ValueError else Ok n.
Proof.
  intros Hpre Hpost Hn.
  rewrite (parse_roll_count_middle pre (str_of_int n) post n); [|done|done|lia|].
  - destruct (_ <? _); [done|]. f_equal. lia.
  - apply numeral_char_digits. by apply str_of_int_spec; lia.
Qed.

Lemma parse_roll_count_reads_decimal_witness :
  parse_roll_count (u "梭哈" ++ str_of_int 17 ++ u "次") = Ok 17.
Proof.
  rewrite parse_roll_count_reads_decimal; [reflexivity|unfold plain; by_compute ..|lia].
Defined.

(** ** More on the roll command *)

Lemma Sent_Text_inj a b : Sent (Text a) = Sent (Text b) -> a = b.
Proof. by intros [= ->]. Qed.

Lemma help_text_not_exhausted : help_text <> exhausted_text.
Proof. vm_compute. discriminate. Qed.

Lemma help_text_not_insufficient l : help_text <> insufficient_text l.
Proof.
  unfold insufficient_text. set (s := str_of_limit _). clearbody s.
  vm_compute. discriminate.
Qed.

Lemma Sent_Text_not_in_outcome fs today_str user_id user_name count rem fs' evs t :
  roll_outcome fs today_str user_id user_name count rem fs' evs ->
  Sent (Text t) ∉ evs.
Proof.
  intros [imgs _ _|imgs _ _|imgs e _ _|imgs stats _ _] [Hin|Hin]%elem_of_app;
    try (apply roll_events_only in Hin as [[? ?]|[? ?]]; done);
    repeat (apply elem_of_cons in Hin as [Hin|Hin]; [done|]);
    by apply elem_of_nil in Hin.
Qed.

(** X2. The usage hint is sent only for a request without any number: when
    the roll command sends it, the text holds no digit after the numeral
    pass, and the roll count is the default 1. *)
Theorem help_only_without_number R config today_str user_id user_name text w :
  Sent (Text help_text)
    ∈ (gacha_phantom_command R config today_str user_id user_name text w).2 ->
  no_digit (substitute_numerals text) /\ parse_roll_count text = Ok 1.
Proof.
  intros Hin.
  destruct (history_words text) eqn:Hhist.
  { rewrite gacha_phantom_command_silent in Hin by done.
    by apply elem_of_nil in Hin. }
  destruct (parse_roll_count text) as [count|e] eqn:Hparse.
  2:{ rewrite (gacha_phantom_command_int_raises _ _ _ _ _ _ _ e Hhist Hparse) in Hin.
      by apply list_elem_of_singleton in Hin. }
  destruct (gacha_phantom_command_events R config today_str user_id user_name
              text w count Hhist Hparse) as (rest & Hevs & Hrest).
  rewrite Hevs in Hin. apply elem_of_app in Hin as [Hin|Hin].
  - apply maybe_help_sent in Hin; [|by eapply parse_roll_count_pos].
    split; [by apply re_search_digits_None_inv|].
    unfold parse_roll_count in Hparse. rewrite Hin in Hparse.
    cbn [roll_count_of_match] in Hparse. congruence.
  - exfalso.
    destruct Hrest as [(_ & _ & e & _ & ->)|[(_ & _ & _ & ->)
                      |[(_ & _ & _ & _ & ->)|(_ & Hout)]]].
    + by apply list_elem_of_singleton in Hin.
    + apply list_elem_of_singleton, Sent_Text_inj in Hin.
      exact (help_text_not_exhausted Hin).
    + apply list_elem_of_singleton, Sent_Text_inj in Hin.
      exact (help_text_not_insufficient _ Hin).
    + by eapply Sent_Text_not_in_outcome.
Qed.

Lemma help_only_without_number_witness :
  Sent (Text help_text)
    ∈ (gacha_phantom_command always_ok default_config "2024-05-02" "10001"
         "Rover" (u "来") empty_world).2
  /\ parse_roll_count (u "来") = Ok 1.
Proof.
  assert (Sent (Text help_text)
    ∈ (gacha_phantom_command always_ok default_config "2024-05-02" "10001"
         "Rover" (u "来") empty_world).2) as Hin.
  { apply (list_elem_of_lookup_2 _ 0%nat). vm_compute. reflexivity. }
  split; [exact Hin|].
  exact (proj2 (help_only_without_number _ _ _ _ _ _ _ Hin)).
Defined.




Lemma gacha_phantom_command_files R config today_str user_id user_name text w :
  let out := gacha_phantom_command R config today_str user_id user_name text w in
  files out.1 = files w
  \/ (exists count imgs,
        accepted config (files w) today_str user_id text count /\
        length imgs = Z.to_nat count /\
        generated_stats out.2 = card_stats <$> imgs /\
        Saved user_id (appended (files w) today_str user_id (records_of imgs)) ∈ out.2 /\
        files out.1
        = save_records user_id
            (appended (files w) today_str user_id (records_of imgs)) (files w)).
Proof.
  intros out.
  destruct (gacha_phantom_command_cases R config today_str user_id user_name text w)
    as [Hsilent|[(Hfiles & _)|[(Hfiles & _)
       |(count & Hacc & help & evs & Hhelp & Hevs & Hout)]]];
    fold out in Hsilent || fold out in Hfiles || (fold out in Hevs, Hout).
  - left. by rewrite Hsilent.
  - by left.
  - by left.
  - assert (forall imgs tail,
      (forall s, Generated s ∉ tail) ->
      generated_stats (help ++ roll_events imgs ++ tail) = card_stats <$> imgs)
      as Hgen.
    { intros imgs tail Htail.
      rewrite !generated_stats_app, (generated_stats_help _ Hhelp),
        generated_stats_roll_events.
      assert (generated_stats tail = []) as ->; [|by rewrite app_nil_r].
      induction tail as [|e tail IH]; [done|].
      assert (forall s, Generated s ∉ tail) as Htail'
        by (intros s Hs; apply (Htail s); by right).
      destruct e; simpl; try by apply IH.
      exfalso. apply (Htail stats). by left. }
    destruct Hout as [imgs Hlen _|imgs Hlen _|imgs e _ _|imgs stats _ _];
      [right|right|by left|by left];
      exists count, imgs; (split; [done|]); (split; [done|]);
      (split; [rewrite Hevs; apply Hgen; intros s Hs;
               repeat (apply elem_of_cons in Hs as [Hs|Hs]; [done|]);
               by apply elem_of_nil in Hs|]);
      (split; [|done]); rewrite Hevs;
      apply elem_of_app; right; apply elem_of_app; right; by left.
Qed.

Lemma show_records_world R config user_id user_name records_today w :
  (show_records R config user_id user_name records_today w).1 = w.
Proof.
  unfold show_records.
  destruct (_ !! user_id) as [[|rec recs]|]; try done.
  destruct (history_loop R (rec :: recs) 0) as [[imgs|e] evs]; [|done].
  match goal with |- context [final_ok R ?f] => by destruct (final_ok R f) end.
Qed.

Lemma show_gacha_history_world R config today_str user_id user_name w :
  (show_gacha_history R config today_str user_id user_name w).1 = w.
Proof.
  unfold show_gacha_history.
  destruct (load_records (files w) user_id) as [all_records|e]; [|done].
  destruct (get_today all_records today_str) as [records_today|e]; [|done].
  apply show_records_world.
Qed.

(** X4. Commands handled one after another leave the file of a user alone as
    long as no roll command of that user is among them: roll commands of
    other users and history commands of anyone do not write it. *)
Theorem other_files_untouched R config qs w owner :
  Forall (fun q => match q with
                   | RollRequest _ user_id _ _ => user_id <> owner
                   | HistoryRequest _ _ _ => True
                   end) qs ->
  files (handle_all R config qs w).1 !! owner = files w !! owner.
Proof.
  intros Hqs. revert w. induction Hqs as [|q qs Hq _ IH]; intros w; [done|].
  cbn [handle_all].
  destruct (handle R config q w) as [w1 evs1] eqn:Hq1.
  specialize (IH w1). destruct (handle_all R config qs w1) as [w2 evs2].
  cbn [fst] in *. rewrite IH. clear IH.
  assert (w1 = (handle R config q w).1) as -> by by rewrite Hq1.
  destruct q as [today_str user_id user_name text|today_str user_id user_name];
    cbn [handle].
  - destruct (gacha_phantom_command_files R config today_str user_id user_name
                text w) as [->|(count & imgs & _ & _ & _ & _ & ->)]; [done|].
    unfold save_records. by rewrite lookup_insert_ne.
  - by rewrite show_gacha_history_world.
Qed.

Lemma other_files_untouched_witness :
  files (handle_all always_ok default_config
           [RollRequest "2024-05-02" "10001" "Rover" (u "2");
            HistoryRequest "2024-05-02" "20002" "Chixia"]
           (world_with "2024-05-02" "20002" 3)).1 !! "20002"
  = Some (Parsed {[ "2024-05-02" := {[ "20002" := replicate 3 one_record ]} ]}).
Proof.
  rewrite other_files_untouched.
  - vm_compute. reflexivity.
  - repeat constructor. discriminate.
Defined.

Lemma Saved_in_command R config today_str user_id user_name text w uid doc :
  let out := gacha_phantom_command R config today_str user_id user_name text w in
  Saved uid doc ∈ out.2 ->
  exists count imgs,
    accepted config (files w) today_str user_id text count /\
    length imgs = Z.to_nat count /\ uid = user_id /\
    doc = appended (files w) today_str user_id (records_of imgs) /\
    files out.1 = save_records user_id doc (files w) /\
    generated_stats out.2 = card_stats <$> imgs.
Proof.
  intros out Hin.
  destruct (gacha_phantom_command_cases R config today_str user_id user_name text w)
    as [Hsilent|[(_ & help & t & Hhelp & Hevs)|[(_ & help & e & Hhelp & Hevs)
       |(count & Hacc & help & evs & Hhelp & Hevs & Hout)]]];
    fold out in Hsilent || fold out in Hevs.
  - rewrite Hsilent in Hin. by apply elem_of_nil in Hin.
  - rewrite Hevs in Hin. apply elem_of_app in Hin as [Hin|Hin].
    + by apply Saved_not_in_help in Hin.
    + by apply list_elem_of_singleton in Hin.
  - rewrite Hevs in Hin. by apply Saved_not_in_raised in Hin.
  - fold out in Hout. rewrite Hevs in Hin. apply elem_of_app in Hin as [Hin|Hin].
    { by apply Saved_not_in_help in Hin. }
    destruct (Saved_in_outcome _ _ _ _ _ _ _ _ _ _ Hout Hin)
      as (imgs & Hlen & -> & Hdoc & Hfiles & Hgen).
    exists count, imgs. repeat split; try done; try apply Hacc.
    by rewrite Hevs, generated_stats_app, (generated_stats_help _ Hhelp), Hgen.
Qed.

Lemma accepted_pos config fs today_str user_id text count :
  accepted config fs today_str user_id text count -> 1 <= count.
Proof. intros (_ & Hparse & _). by eapply parse_roll_count_pos. Qed.

Lemma stored_today_unparsable fs today_str user_id :
  fs !! user_id = Some Unparsable -> stored_today fs today_str user_id = [].
Proof.
  intros Hfile.
  unfold stored_today, records_today_of, user_daily_results_of, document_of,
    load_records.
  by rewrite Hfile, lookup_empty.
Qed.

(** X5. A ledger file whose text is not JSON ([json.JSONDecodeError], which
    [load_records] catches) counts as no roll today, and a command that
    saves replaces it by a document that holds today's new records of the
    user and nothing else. A file that cannot be decoded, or holds JSON
    that is no object, is not treated so: the exception leaves the handler
    (after the usage hint, if that is sent), and the file stays. *)
Theorem unparsable_file_is_replaced R config today_str user_id user_name text w :
  let out := gacha_phantom_command R config today_str user_id user_name text w in
  (files w !! user_id = Some Unparsable ->
   count_today (files w) today_str user_id = 0 /\
   forall doc,
     Saved user_id doc ∈ out.2 ->
     doc = {[ today_str :=
                {[ user_id := map (map to_dict) (generated_stats out.2) ]} ]}
     /\ files out.1 !! user_id = Some (Parsed doc)
     /\ parse_roll_count text
        = Ok (count_today (files out.1) today_str user_id))
  /\ (files w !! user_id = Some Undecodable
      \/ files w !! user_id = Some NotAnObject ->
      files out.1 = files w /\
      forall count,
        history_words text = false -> parse_roll_count text = Ok count ->
        exists e, last out.2 = Some (Raised e) /\
                  (files w !! user_id = Some Undecodable -> e = UnicodeDecodeError) /\
                  (files w !! user_id = Some NotAnObject -> e = AttributeError)).
Proof.
  intros out. split.
  - intros Hfile.
    pose proof (stored_today_unparsable _ today_str _ Hfile) as Hstored.
    split; [unfold count_today; by rewrite Hstored|]. intros doc Hin.
    destruct (Saved_in_command R config today_str user_id user_name text w _ _ Hin)
      as (count & imgs & Hacc & Hlen & _ & Hdoc & Hfiles & Hgen).
    fold out in Hfiles, Hgen. rewrite Hgen, <- records_of_generated.
    assert (doc = {[ today_str := {[ user_id := records_of imgs ]} ]}) as Hdoc'.
    { rewrite Hdoc. unfold appended, records_today_of, document_of, load_records.
      rewrite Hstored, Hfile, lookup_empty. cbn [default from_option app].
      by rewrite insert_empty. }
    split; [done|]. rewrite Hfiles. unfold save_records.
    split; [by rewrite lookup_insert_eq|].
    pose proof (accepted_pos _ _ _ _ _ _ Hacc) as Hpos.
    destruct Hacc as (_ & -> & _). f_equal.
    unfold count_today, stored_today, document_of, load_records, records_today_of,
      user_daily_results_of.
    rewrite lookup_insert_eq, Hdoc', lookup_singleton_eq.
    cbn [default from_option id]. rewrite lookup_singleton_eq.
    cbn [default from_option id]. unfold records_of. rewrite length_map, Hlen.
    lia.
  - intros Hfile.
    assert (~ readable (files w) user_id) as Hno by by apply not_readable.
    split.
    + destruct (gacha_phantom_command_files R config today_str user_id user_name
                  text w) as [?|(count & imgs & (_ & _ & ? & _) & _)]; done.
    + intros count Hhist Hparse.
      destruct (gacha_phantom_command_events R config today_str user_id user_name
                  text w count Hhist Hparse) as (rest & Hevs & Hrest).
      fold out in Hevs, Hrest.
      destruct Hrest as [(_ & _ & e & _ & ->)|[(? & _)|[(? & _)|((_ & _ & ? & _) & _)]]];
        try done.
      exists e. split; [by rewrite Hevs, last_snoc|].
      revert Hevs. subst out. unfold gacha_phantom_command. rewrite Hhist.
      unfold parse_roll_count in Hparse. rewrite Hparse.
      destruct (maybe_help _ _ (tape w)) as [help r]. unfold load_records.
      split; intros Hf; rewrite Hf in Hevs; cbn [get_today snd] in Hevs;
        apply app_inv_head in Hevs; by simplify_eq.
Qed.

Lemma unparsable_file_is_replaced_witness :
  let w := {| files := {[ "10001" := Unparsable ]}; tape := [] |} in
  let out := gacha_phantom_command always_ok default_config "2024-05-02" "10001"
               "Rover" (u "2") w in
  exists doc,
    out.2 !! 4%nat = Some (Saved "10001" doc)
    /\ files out.1 !! "10001" = Some (Parsed doc)
    /\ count_today (files out.1) "2024-05-02" "10001" = 2.
Proof.
  intros w out. eexists. split; [vm_compute; reflexivity|].
  match goal with |- _ = Some (Parsed ?d) /\ _ =>
    destruct (unparsable_file_is_replaced always_ok default_config "2024-05-02"
                "10001" "Rover" (u "2") w) as [H _];
    destruct H as [_ H]; [vm_compute; reflexivity|];
    destruct (H d) as (_ & Hfile & Hcount)
  end.
  - apply (list_elem_of_lookup_2 _ 4%nat). vm_compute. reflexivity.
  - split; [exact Hfile|]. vm_compute. reflexivity.
Defined.

Lemma count_today_saved fs today_str user_id new :
  count_today (save_records user_id (appended fs today_str user_id new) fs)
              today_str user_id
  = count_today fs today_str user_id + Z.of_nat (length new).
Proof.
  unfold count_today. rewrite stored_today_saved, length_app. lia.
Qed.




(** ** The daily limit over any sequence of commands *)

Lemma handle_within_daily_limit R config q w :
  within_daily_limit config (files w) ->
  within_daily_limit config (files (handle R config q w).1).
Proof.
  intros Hinv.
  destruct q as [today_str user_id user_name text|today_str user_id user_name];
    cbn [handle]; [|by rewrite show_gacha_history_world].
  destruct (gacha_phantom_command_files R config today_str user_id user_name text w)
    as [->|(count & imgs & Hacc & Hlen & _ & _ & ->)]; [done|].
  pose proof (accepted_pos _ _ _ _ _ _ Hacc) as Hpos.
  destruct Hacc as (_ & _ & _ & _ & Hex).
  intros owner d day records other recs Hd Hday Hrecs Hwl.
  unfold save_records in Hd.
  destruct (decide (owner = user_id)) as [->|Hne];
    [|rewrite lookup_insert_ne in Hd by done; by eapply Hinv].
  rewrite lookup_insert_eq in Hd. injection Hd as <-.
  unfold appended in Hday. apply lookup_singleton_Some in Hday as [<- <-].
  destruct (decide (other = user_id)) as [->|Hother].
  - rewrite lookup_insert_eq in Hrecs. injection Hrecs as <-.
    rewrite (roll_limit_not_whitelisted _ _ Hwl) in Hex. simpl in Hex.
    apply Z.ltb_ge in Hex. rewrite length_app. unfold count_today in Hex.
    unfold records_of. rewrite length_map, Hlen. lia.
  - rewrite lookup_insert_ne in Hrecs by done.
    destruct (records_today_of_lookup _ _ _ _ _ Hrecs) as (d0 & Hd0 & Hday0).
    by eapply Hinv.
Qed.

(** X7. However many roll and history commands are handled one after
    another, by whichever users and on whichever days, no user outside the
    whitelist ends up with more than [daily_limit] rolls under one date, if
    that was so at the start; from empty files it therefore always holds. *)
Theorem daily_limit_holds_over_commands R config qs w :
  within_daily_limit config (files w) ->
  within_daily_limit config (files (handle_all R config qs w).1)
  /\ within_daily_limit config
       (files (handle_all R config qs {| files := ∅; tape := tape w |}).1).
Proof.
  assert (forall w0, within_daily_limit config (files w0) ->
            within_daily_limit config (files (handle_all R config qs w0).1)) as H.
  { induction qs as [|q qs IH]; intros w0 Hinv; [done|]. cbn [handle_all].
    pose proof (handle_within_daily_limit R config q w0 Hinv) as Hq.
    destruct (handle R config q w0) as [w1 evs1]. specialize (IH w1 Hq).
    by destruct (handle_all R config qs w1) as [w2 evs2]. }
  intros Hinv. split; [by apply H|]. apply H.
  intros owner d day records other recs Hd. cbn [files] in Hd.
  by rewrite lookup_empty in Hd.
Qed.

Lemma daily_limit_holds_over_commands_witness :
  let out := handle_all always_ok default_config
               [RollRequest "2024-05-02" "10001" "Rover" (u "20");
                RollRequest "2024-05-02" "10001" "Rover" (u "1");
                HistoryRequest "2024-05-02" "10001" "Rover";
                RollRequest "2024-05-03" "10001" "Rover" (u "5")]
               empty_world in
  within_daily_limit default_config (files out.1)
  /\ count_today (files out.1) "2024-05-03" "10001" = 5.
Proof.
  intros out. split; [|vm_compute; reflexivity].
  apply (daily_limit_holds_over_commands always_ok default_config _ empty_world).
  intros owner d day records other recs Hd. cbn [files empty_world] in Hd.
  by rewrite lookup_empty in Hd.
Defined.

(** ** What the roll command generates *)

Lemma roll_loop_generated R config rolls_done todo i r stats :
  Generated stats ∈ (roll_loop R config rolls_done todo i r).2 ->
  well_rolled config stats.
Proof.
  revert i r. induction todo as [|todo IH]; intros i r; cbn [roll_loop].
  { intros H. by apply elem_of_nil in H. }
  destruct (generate_phantom_stats config r) as [[stats0|e] r1] eqn:Hgen;
    [|intros H; by apply elem_of_nil in H].
  apply generate_phantom_stats_sound in Hgen.
  destruct (card_ok R stats0 _).
  - specialize (IH (i + 1) r1).
    destruct (roll_loop R config rolls_done todo (i + 1) r1) as [[[[recs imgs]|e] r2] evs];
      cbn [snd] in *;
      (intros [[= ->]|[?|Hin]%elem_of_cons]%elem_of_cons; [done|done|by apply IH]).
  - cbn [snd]. intros [= ->]%list_elem_of_singleton. done.
Qed.

Lemma generated_stats_elem_of evs stats :
  stats ∈ generated_stats evs <-> Generated stats ∈ evs.
Proof.
  unfold generated_stats. rewrite list_elem_of_omap. split.
  - intros (e & He & Hs). destruct e; simplify_eq. done.
  - intros H. by exists (Generated stats).
Qed.

(** X8. Every list of stats the generator hands to the roll command, and so
    every record the command stores, is a roll of the configuration: it has
    [min(stats_count, len(substats))] stats, from different definitions of
    the table, each with one of its definition's values and the maximum
    flag that belongs to it. *)
Theorem generated_records_are_rolls R config today_str user_id user_name text w :
  Forall (well_rolled config)
    (generated_stats
       (gacha_phantom_command R config today_str user_id user_name text w).2).
Proof.
  apply Forall_forall. intros stats Hin. apply generated_stats_elem_of in Hin.
  destruct (gacha_phantom_command_cases R config today_str user_id user_name text w)
    as [Hsilent|[(_ & help & t & Hhelp & Hevs)|[(_ & help & e & Hhelp & Hevs)
       |(count & Hacc & _)]]].
  - rewrite Hsilent in Hin. by apply elem_of_nil in Hin.
  - rewrite Hevs in Hin. apply elem_of_app in Hin as [Hin|Hin].
    + by apply (help_events_only _ _ Hhelp) in Hin.
    + by apply list_elem_of_singleton in Hin.
  - rewrite Hevs in Hin. apply elem_of_app in Hin as [Hin|Hin].
    + by apply (help_events_only _ _ Hhelp) in Hin.
    + by apply list_elem_of_singleton in Hin.
  - rewrite (gacha_phantom_command_accepted_eq R config today_str user_id
               user_name text w count Hacc) in Hin.
    cbn [snd] in Hin. apply elem_of_app in Hin as [Hin|Hin].
    { by apply (help_events_only _ _ (maybe_help_cases _ _ _)) in Hin. }
    unfold roll_and_reply in Hin. cbn [tape files] in Hin.
    match type of Hin with
    | context [roll_loop R config ?d ?n 0 ?r] =>
        pose proof (roll_loop_generated R config d n 0 r stats) as Hloop;
        destruct (roll_loop R config d n 0 r) as [[[[recs imgs]|e] r2] evs]
    end; cbn [snd] in Hloop.
    + match type of Hin with context [final_ok R ?f] => destruct (final_ok R f) end;
        cbn [snd] in Hin;
        (apply elem_of_app in Hin as [?|Hin]; [by apply Hloop|]);
        repeat (apply elem_of_cons in Hin as [?|Hin]; [done|]);
        by apply elem_of_nil in Hin.
    + cbn [snd] in Hin.
      apply elem_of_app in Hin as [?|Hin]; [by apply Hloop|].
      by apply list_elem_of_singleton in Hin.
Qed.

(** ** The history command *)

Lemma from_dict_to_dict s : from_dict (to_dict s) = s.
Proof. by destruct s. Qed.

Lemma history_loop_reliable R results i :
  reliable R ->
  let cards := imap (fun k result_data =>
                       {| card_stats := map from_dict result_data;
                          roll_number := i + Z.of_nat k + 1 |}) results in
  history_loop R results i = (Ok cards, CardDrawn <$> cards).
Proof.
  intros [Hcard _]. revert i. induction results as [|rec results IH]; intros i; [done|].
  cbn [history_loop]. rewrite Hcard, IH. cbn [imap fmap list_fmap].
  rewrite Z.add_0_r. do 3 f_equal.
  all: apply imap_ext; intros k x _; simpl; do 2 f_equal; lia.
Qed.

Lemma show_gacha_history_readable R config today_str user_id user_name w :
  readable (files w) user_id ->
  show_gacha_history R config today_str user_id user_name w
  = show_records R config user_id user_name
      (records_today_of (document_of (files w) user_id) today_str) w.
Proof.
  intros Hread. unfold show_gacha_history.
  by rewrite (load_records_readable _ _ Hread).
Qed.


Lemma stored_today_nonempty_readable fs today_str user_id :
  stored_today fs today_str user_id <> [] -> readable fs user_id.
Proof.
  intros Hne. destruct (readable_or_not fs user_id) as [?|Hno]; [done|].
  exfalso. apply Hne.
  unfold stored_today, document_of, records_today_of, user_daily_results_of.
  destruct (readable_cases fs user_id) as [?|[[-> _]|[-> _]]]; [done| |];
    by rewrite lookup_empty.
Qed.

(** With a renderer that does not fail and something stored, the history
    command draws the cards of the stored records and sends their image. *)
Lemma show_gacha_history_reliable R config today_str user_id user_name w :
  reliable R ->
  stored_today (files w) today_str user_id <> [] ->
  let stored := stored_today (files w) today_str user_id in
  show_gacha_history R config today_str user_id user_name w
  = (w,
     (CardDrawn <$> history_cards stored) ++
     [Sent (Image {| image_objects := history_cards stored;
                     footer_user_name := user_name;
                     tuners_remaining :=
                       Finite (default 6 (daily_limit (settings config))
                               - Z.of_nat (length stored)) |})]).
Proof.
  intros Hrel Hne stored. subst stored.
  rewrite show_gacha_history_readable by by eapply stored_today_nonempty_readable.
  revert Hne.
  unfold show_records, stored_today, user_daily_results_of.
  destruct (records_today_of _ _ !! user_id) as [[|rec recs]|];
    cbn [default from_option id]; try done.
  intros _. rewrite (history_loop_reliable R (rec :: recs) 0 Hrel).
  assert (imap (fun k result_data =>
                  {| card_stats := map from_dict result_data;
                     roll_number := 0 + Z.of_nat k + 1 |}) (rec :: recs)
          = history_cards (rec :: recs)) as ->.
  { apply imap_ext. intros k x _. simpl. f_equal. }
  destruct Hrel as [_ Hfinal]. by rewrite Hfinal.
Qed.



Lemma imap_card_stats (g : nat -> Z) (results : list RollRecord) :
  card_stats <$> imap (fun i result_data =>
                         {| card_stats := map from_dict result_data;
                            roll_number := g i |}) results
  = map from_dict <$> results.
Proof.
  revert g. induction results as [|rec results IH]; intros g; [done|].
  cbn [imap fmap list_fmap]. f_equal. apply (IH (g ∘ S)).
Qed.

Lemma history_cards_stats results :
  card_stats <$> history_cards results = map from_dict <$> results.
Proof. apply (imap_card_stats (fun i => Z.of_nat i + 1)). Qed.

Lemma history_cards_numbers (results : list RollRecord) :
  roll_number <$> history_cards results = seqZ 1 (Z.of_nat (length results)).
Proof.
  unfold history_cards. rewrite fmap_imap.
  apply list_eq. intros k. rewrite list_lookup_imap.
  match goal with |- _ <$> ?o = _ => destruct o as [x|] eqn:Hk end; simpl.
  - symmetry. apply lookup_seqZ. apply lookup_lt_Some in Hk.
    unfold RollRecord in *. split; lia.
  - symmetry. apply lookup_seqZ_ge. apply lookup_ge_None in Hk.
    unfold RollRecord in *. lia.
Qed.

(** X10. What a roll command saved, the history command shows: after a roll
    command that saved, a history command of the same user and day with a
    renderer that does not fail sends one image whose cards carry, in order,
    the stats of the rolls stored before and then exactly the stats the
    generator returned, as many as the roll count, numbered from 1. *)
Theorem roll_then_history R R' config today_str user_id user_name text w doc :
  let out := gacha_phantom_command R config today_str user_id user_name text w in
  let out' := show_gacha_history R' config today_str user_id user_name out.1 in
  let count := Z.of_nat (length (generated_stats out.2)) in
  reliable R' ->
  Saved user_id doc ∈ out.2 ->
  parse_roll_count text = Ok count /\
  exists img,
    out'.2 = (CardDrawn <$> image_objects img) ++ [Sent (Image img)]
    /\ card_stats <$> image_objects img
       = (map from_dict <$> stored_today (files w) today_str user_id)
         ++ generated_stats out.2
    /\ roll_number <$> image_objects img
       = seqZ 1 (count_today (files w) today_str user_id + count).
Proof.
  intros out out' count Hrel Hsaved.
  destruct (Saved_in_command R config today_str user_id user_name text w _ _ Hsaved)
    as (count' & imgs & Hacc & Hlen & _ & -> & Hfiles & Hgen).
  fold out in Hfiles, Hgen.
  pose proof (accepted_pos _ _ _ _ _ _ Hacc) as Hpos.
  assert (count = count') as Hcount.
  { subst count. rewrite Hgen, length_fmap, Hlen. lia. }
  split; [rewrite Hcount; apply Hacc|].
  assert (stored_today (files out.1) today_str user_id
          = stored_today (files w) today_str user_id ++ records_of imgs) as Hstored
    by (rewrite Hfiles; apply stored_today_saved).
  assert (stored_today (files out.1) today_str user_id <> []) as Hne.
  { rewrite Hstored. intros [_ Himgs]%app_eq_nil.
    apply (f_equal length) in Himgs. unfold records_of in Himgs.
    rewrite length_map, Hlen in Himgs. simpl in Himgs. lia. }
  subst out'. rewrite show_gacha_history_reliable by done. cbn [snd].
  match goal with |- context [Sent (Image ?i)] => exists i end.
  split; [reflexivity|]. cbn [image_objects]. split.
  - rewrite history_cards_stats, Hstored, fmap_app, Hgen. f_equal.
    unfold records_of. rewrite <- !list_fmap_compose.
    apply list_fmap_ext. intros _ c _. simpl.
    rewrite <- list_fmap_compose. rewrite <- (list_fmap_id (card_stats c)) at 2.
    apply list_fmap_ext. intros _ s _. apply from_dict_to_dict.
  - rewrite history_cards_numbers. f_equal.
    rewrite Hstored, length_app. unfold records_of, count_today.
    rewrite length_map, Hlen. lia.
Qed.

Lemma roll_then_history_witness :
  let out := gacha_phantom_command always_ok default_config "2024-05-02" "10001"
               "Rover" (u "五") empty_world in
  let out' := show_gacha_history always_ok default_config "2024-05-02" "10001"
                "Rover" out.1 in
  exists img,
    last out'.2 = Some (Sent (Image img))
    /\ card_stats <$> image_objects img = generated_stats out.2
    /\ roll_number <$> image_objects img = [1; 2; 3; 4; 5].
Proof.
  intros out out'.
  assert (exists doc, out.2 !! 10%nat = Some (Saved "10001" doc)) as [doc Hdoc]
    by (eexists; vm_compute; reflexivity).
  destruct (roll_then_history always_ok always_ok default_config "2024-05-02"
              "10001" "Rover" (u "五") empty_world doc)
    as (_ & img & Hevs & Hstats & Hnum);
    [done|by apply (list_elem_of_lookup_2 _ 10%nat)|].
  exists img. fold out in Hstats. fold out out' in Hevs.
  split; [by rewrite Hevs, last_snoc|]. split; [exact Hstats|exact Hnum].
Defined.

Lemma Sent_Image_in_command R config today_str user_id user_name text w img :
  let out := gacha_phantom_command R config today_str user_id user_name text w in
  Sent (Image img) ∈ out.2 ->
  exists count imgs,
    accepted config (files w) today_str user_id text count /\
    length imgs = Z.to_nat count /\
    img = {| image_objects := imgs;
             footer_user_name := user_name;
             tuners_remaining :=
               limit_sub (limit_sub (roll_limit config user_id)
                                    (count_today (files w) today_str user_id))
                         count |} /\
    files out.1
    = save_records user_id
        (appended (files w) today_str user_id (records_of imgs)) (files w).
Proof.
  intros out Hin.
  assert (forall imgs, Sent (Image img) ∉ roll_events imgs) as Hroll.
  { intros imgs H. apply roll_events_only in H as [[? ?]|[? ?]]; done. }
  destruct (gacha_phantom_command_cases R config today_str user_id user_name text w)
    as [Hsilent|[(_ & help & t & Hhelp & Hevs)|[(_ & help & e & Hhelp & Hevs)
       |(count & Hacc & help & evs & Hhelp & Hevs & Hout)]]];
    fold out in Hsilent || fold out in Hevs.
  - rewrite Hsilent in Hin. by apply elem_of_nil in Hin.
  - rewrite Hevs in Hin. apply elem_of_app in Hin as [Hin|Hin].
    + by apply (help_events_only _ _ Hhelp) in Hin.
    + by apply list_elem_of_singleton in Hin.
  - rewrite Hevs in Hin. apply elem_of_app in Hin as [Hin|Hin].
    + by apply (help_events_only _ _ Hhelp) in Hin.
    + by apply list_elem_of_singleton in Hin.
  - fold out in Hout. rewrite Hevs in Hin. apply elem_of_app in Hin as [Hin|Hin].
    { by apply (help_events_only _ _ Hhelp) in Hin. }
    destruct Hout as [imgs Hlen _|imgs Hlen _|imgs e _ _|imgs stats _ _];
      apply elem_of_app in Hin as [Hin|Hin]; try (by apply Hroll in Hin);
      repeat (apply elem_of_cons in Hin as [Hin|Hin]; [|]); try done;
      try (by apply elem_of_nil in Hin).
    exists count, imgs. by simplify_eq.
Qed.

(** X11. For a user outside the whitelist the footer of a roll image is
    given the limit, 20 when unset, minus the rolls stored after the
    command, and the footer of a history image sent after it is given the
    limit, 6 when unset, minus the same count; each footer shows 50 times
    the number it is given. The two footers show the same when
    [daily_limit] is set in the configuration, and numbers 700 apart when
    it is not. *)
Theorem footers_of_roll_and_history
    R R' config today_str user_id user_name text w img img' :
  let out := gacha_phantom_command R config today_str user_id user_name text w in
  let out' := show_gacha_history R' config today_str user_id user_name out.1 in
  let stored := count_today (files out.1) today_str user_id in
  let shown := (default 20 (daily_limit (settings config)) - stored) * 50 in
  let shown' := (default 6 (daily_limit (settings config)) - stored) * 50 in
  ~ whitelisted config user_id ->
  Sent (Image img) ∈ out.2 ->
  Sent (Image img') ∈ out'.2 ->
  tuners_remaining img
  = Finite (default 20 (daily_limit (settings config)) - stored)
  /\ tuners_remaining img'
     = Finite (default 6 (daily_limit (settings config)) - stored)
  /\ tuner_text (tuners_remaining img) = u "剩余: " ++ str_of_int shown
  /\ tuner_text (tuners_remaining img') = u "剩余: " ++ str_of_int shown'
  /\ (is_Some (daily_limit (settings config)) ->
      tuners_remaining img' = tuners_remaining img /\ shown' = shown)
  /\ (daily_limit (settings config) = None -> shown = shown' + 700).
Proof.
  intros out out' stored shown shown' Hwl Hin Hin'.
  destruct (Sent_Image_in_command R config today_str user_id user_name text w img Hin)
    as (count & imgs & Hacc & Hlen & -> & Hfiles).
  fold out in Hfiles.
  pose proof (accepted_pos _ _ _ _ _ _ Hacc) as Hpos.
  apply history_remaining_is_finite in Hin'. fold stored in Hin'.
  assert (stored = count_today (files w) today_str user_id + count)
    as Hstored.
  { subst stored. rewrite Hfiles, count_today_saved. unfold records_of.
    rewrite length_map, Hlen. lia. }
  cbn [tuners_remaining]. rewrite (roll_limit_not_whitelisted _ _ Hwl).
  cbn [limit_sub]. unfold daily_limit_of.
  assert (Finite (default 20 (daily_limit (settings config))
                  - count_today (files w) today_str user_id - count)
          = Finite (default 20 (daily_limit (settings config)) - stored)) as ->
    by (f_equal; lia).
  split; [done|]. split; [done|]. split; [done|].
  split; [by rewrite Hin'|]. split.
  - intros [l Hl]. subst shown shown'. rewrite Hin', Hl. done.
  - intros Hnone. subst shown shown'. rewrite Hnone. cbn [default from_option id].
    lia.
Qed.

Lemma footers_of_roll_and_history_witness :
  let out := gacha_phantom_command always_ok default_config "2024-05-02" "10001"
               "Rover" (u "3") empty_world in
  let out' := show_gacha_history always_ok default_config "2024-05-02" "10001"
                "Rover" out.1 in
  exists img img',
    out.2 !! 7%nat = Some (Sent (Image img))
    /\ out'.2 !! 3%nat = Some (Sent (Image img'))
    /\ tuner_text (tuners_remaining img) = u "剩余: 850"
    /\ tuner_text (tuners_remaining img') = u "剩余: 850".
Proof.
  intros out out'. eexists _, _.
  split; [vm_compute; reflexivity|]. split; [vm_compute; reflexivity|].
  match goal with |- tuner_text (tuners_remaining ?i) = _ /\
                     tuner_text (tuners_remaining ?i') = _ =>
    destruct (footers_of_roll_and_history always_ok always_ok default_config
                "2024-05-02" "10001" "Rover" (u "3") empty_world i i')
      as (_ & _ & H3 & H4 & _)
  end.
  - unfold whitelisted. by_compute.
  - apply (list_elem_of_lookup_2 _ 7%nat). vm_compute. reflexivity.
  - apply (list_elem_of_lookup_2 _ 3%nat). vm_compute. reflexivity.
  - split; [rewrite H3|rewrite H4]; vm_compute; reflexivity.
Defined.

(** ** Edges of the generator *)

(** X12. A negative [stats_count] makes the generator raise [ValueError]
    for every table and every random source, before any draw is taken. *)
Theorem negative_stats_count_raises config r :
  stats_count (settings config) < 0 ->
  generate_phantom_stats config r = (Raise ValueError, r).
Proof.
  intros Hneg. unfold generate_phantom_stats, bind.
  rewrite sample_raises; [done|]. lia.
Qed.

Lemma negative_stats_count_raises_witness :
  generate_phantom_stats negative_count_config [4; 2; 7]%nat
  = (Raise ValueError, [4; 2; 7]%nat).
Proof. apply negative_stats_count_raises. reflexivity. Defined.

(** X13. When [stats_count] is at least the size of the table, [min] clamps
    the sample to the whole table: whatever the generator returns holds one
    roll of every definition, the definitions taken in some order. *)
Theorem oversized_stats_count_rolls_whole_table config r stats r' :
  Z.of_nat (length (substats config)) <= stats_count (settings config) ->
  generate_phantom_stats config r = (Ok stats, r') ->
  exists selected,
    selected ≡ₚ substats config /\
    Forall2 (fun sc s => rolled_from sc s /\ max_flag_exact sc s) selected stats.
Proof.
  intros Hbig. unfold generate_phantom_stats, bind.
  destruct (sample _ _ r) as [[selected|e] r1] eqn:Hsel; [|done].
  intros Hroll. apply sample_sound in Hsel as [Hlen (rest & Hperm)].
  apply roll_stats_sound in Hroll. exists selected. split; [|done].
  assert (rest = []) as ->; [|by rewrite app_nil_r in Hperm].
  apply Permutation_length in Hperm. rewrite length_app in Hperm.
  apply nil_length_inv. lia.
Qed.

Lemma oversized_stats_count_rolls_whole_table_witness :
  let config := {| substats := take 2 (substats default_config);
                   settings := settings default_config |} in
  exists stats r',
    generate_phantom_stats config [1; 0; 2; 5]%nat = (Ok stats, r')
    /\ name <$> stats = ["攻击"; "攻击"]%string
    /\ is_percent <$> stats = [true; false]
    /\ exists selected,
         selected ≡ₚ substats config /\
         Forall2 (fun sc s => rolled_from sc s /\ max_flag_exact sc s)
                 selected stats.
Proof.
  intros config. eexists _, _. split; [vm_compute; reflexivity|].
  split; [reflexivity|]. split; [reflexivity|].
  apply (oversized_stats_count_rolls_whole_table config [1; 0; 2; 5]%nat _ []).
  - vm_compute. discriminate.
  - vm_compute. reflexivity.
Defined.

Lemma roll_stats_raises selected r :
  (exists sc, sc ∈ selected /\ values sc = []) ->
  exists r', roll_stats selected r = (Raise IndexError, r').
Proof.
  revert r. induction selected as [|sc0 selected IH]; intros r (sc & Hin & Hnil).
  { by apply elem_of_nil in Hin. }
  cbn [roll_stats]. unfold bind.
  destruct (values sc0) as [|v vs] eqn:Hv0.
  - exists r. unfold roll_stat, bind. by rewrite Hv0.
  - destruct (roll_stat_returns sc0 r) as (s & r1 & Hs); [by rewrite Hv0|].
    rewrite Hs. apply elem_of_cons in Hin as [->|Hin]; [congruence|].
    destruct (IH r1) as (r2 & Hr2); [by exists sc|]. rewrite Hr2. by exists r2.
Qed.

(** X14. A definition without candidate values breaks every roll of the
    whole table: with [stats_count] between the size of the table and any
    larger number, the generator raises [IndexError] for every random
    source. *)
Theorem empty_values_raise config r sc :
  Z.of_nat (length (substats config)) <= stats_count (settings config) ->
  sc ∈ substats config -> values sc = [] ->
  exists r', generate_phantom_stats config r = (Raise IndexError, r').
Proof.
  intros Hbig Hin Hnil. unfold generate_phantom_stats, bind.
  destruct (sample_returns (substats config)
              (Z.min (stats_count (settings config))
                     (Z.of_nat (length (substats config)))) r)
    as (selected & r1 & Hsel & Hlen & rest & Hperm); [lia|].
  rewrite Hsel. apply roll_stats_raises. exists sc. split; [|done].
  assert (rest = []) as ->.
  { apply Permutation_length in Hperm. rewrite length_app in Hperm.
    apply nil_length_inv. lia. }
  rewrite app_nil_r in Hperm. by rewrite Hperm.
Qed.

Lemma empty_values_raise_witness :
  let hollow := {| cfg_name := "攻击"; cfg_icon := "攻击"; values := [];
                   cfg_is_percent := false |} in
  let config := {| substats := [hollow]; settings := settings default_config |} in
  exists r', generate_phantom_stats config [3]%nat = (Raise IndexError, r').
Proof.
  intros hollow config.
  apply (empty_values_raise config [3]%nat hollow);
    [vm_compute; discriminate|by left|reflexivity].
Defined.

(** ** The configuration file *)

(** X15. [load_config] leaves a configuration file behind that holds what
    it returned, so a second call returns the same and changes nothing. A
    missing file is created with the built-in default, and with that
    default the generator never raises: for every random source it returns
    5 stats that are a roll of the table. *)
Theorem load_config_settles (config_file : option Config) :
  let out := load_config config_file in
  out.2 = Some out.1
  /\ load_config out.2 = out
  /\ (forall config, config_file = Some config -> out = (config, config_file))
  /\ (config_file = None ->
      out.1 = default_config /\
      forall r, exists stats r',
        generate_phantom_stats out.1 r = (Ok stats, r') /\
        length stats = 5%nat /\ well_rolled out.1 stats).
Proof.
  destruct config_file as [config|]; cbn [load_config fst snd];
    (split; [done|]); (split; [done|]); (split; [by intros ? [= ->]|]); [done|].
  intros _. split; [done|]. intros r.
  destruct (generate_phantom_stats_returns default_config r) as (stats & r' & Hgen).
  { done. }
  { repeat (constructor; [done|]). constructor. }
  exists stats, r'. split; [done|].
  pose proof (generate_phantom_stats_sound _ _ _ _ Hgen) as Hsound.
  split; [|exact Hsound]. destruct Hsound as [Hlen _].
  change (Z.min (stats_count (settings default_config))
                (Z.of_nat (length (substats default_config)))) with 5 in Hlen.
  lia.
Qed.

(** ** The footer of an image *)

(** X16. The name in the footer is the user name when it has at most 8
    characters, and otherwise its first 7 characters followed by three
    dots, which makes 10 characters, more than a name of 9 has. The shown
    name always starts like the user name, and shortening it again changes
    nothing. *)
Theorem shown_user_name_shape (user_name : pystr) :
  ((length user_name <= 8)%nat -> shown_user_name user_name = user_name)
  /\ ((8 < length user_name)%nat ->
      shown_user_name user_name = take 7 user_name ++ u "..." /\
      length (shown_user_name user_name) = 10%nat)
  /\ (length (shown_user_name user_name) <= 10)%nat
  /\ take 7 (shown_user_name user_name) = take 7 user_name
  /\ shown_user_name (shown_user_name user_name) = shown_user_name user_name.
Proof.
  unfold shown_user_name at 1 2 3 4 5 7.
  destruct (Nat.leb_spec (length user_name) 8) as [Hshort|Hlong].
  - split; [done|]. split; [lia|]. split; [lia|]. split; [done|].
    unfold shown_user_name. by destruct (Nat.leb_spec (length user_name) 8); [|lia].
  - assert (length (take 7 user_name ++ u "...") = 10%nat) as Hlen.
    { rewrite length_app, length_take. change (length (u "...")) with 3%nat. lia. }
    split; [lia|]. split; [done|]. split; [lia|]. split.
    + rewrite take_app_le by (rewrite length_take; lia).
      by rewrite take_take.
    + unfold shown_user_name. rewrite Hlen.
      change (10 <=? 8)%nat with false. cbn iota.
      rewrite take_app_le by (rewrite length_take; lia).
      rewrite take_take.
      by destruct (Nat.leb_spec (length user_name) 8); [lia|].
Qed.

Lemma shown_user_name_shape_witness :
  shown_user_name (u "漂泊者今州的英雄") = u "漂泊者今州的英雄"
  /\ shown_user_name (u "漂泊者今州的大英雄") = u "漂泊者今州的大..."
  /\ length (shown_user_name (u "漂泊者今州的大英雄")) = 10%nat.
Proof.
  destruct (shown_user_name_shape (u "漂泊者今州的英雄")) as (Hshort & _).
  destruct (shown_user_name_shape (u "漂泊者今州的大英雄")) as (_ & Hlong & _).
  split; [apply Hshort; by_compute|].
  apply Hlong. by_compute.
Defined.

(** ** The rows of a card *)

(** X17. A card has room for five stats. Row [i] lies inside the content
    panel, and inside the card, exactly for [i] from 0 to 4, so all [n]
    rows of a card fit exactly when [n] is at most 5; the rows follow each
    other without touching, with the separator and the MAX tag of a row
    between the icon above and its own icon. *)
Theorem card_has_room_for_five (n : Z) :
  0 <= n ->
  ((forall i, 0 <= i < n ->
      content_y_start <= y_pos i /\
      y_pos i + icon_size <= content_y_start + content_height) <-> n <= 5)
  /\ ((forall i, 0 <= i < n -> y_pos i + icon_size <= card_height) <-> n <= 5)
  /\ (forall i, 0 <= i ->
        y_pos i + icon_size < separator_y (i + 1) /\
        separator_y (i + 1) < tag_y (i + 1) /\
        tag_y (i + 1) < y_pos (i + 1)).
Proof.
  intros Hn.
  assert (forall i, y_pos i = 160 + 95 * i) as Hy
    by (intros i; unfold y_pos, base_y, content_y_start, title_bg_y_start,
          title_bg_height, line_height; lia).
  assert (forall i, separator_y i = y_pos i - 42) as Hsep
    by (intros i; unfold separator_y; change (line_height / 2) with 47; lia).
  unfold tag_y, icon_size, content_y_start, content_height, card_height,
    title_bg_y_start, title_bg_height.
  split; [|split].
  - split.
    + intros H. destruct (Z_le_gt_dec n 5) as [|Hgt]; [done|].
      specialize (H 5 ltac:(lia)). rewrite Hy in H. lia.
    + intros Hle i Hi. rewrite Hy. lia.
  - split.
    + intros H. destruct (Z_le_gt_dec n 5) as [|Hgt]; [done|].
      specialize (H 5 ltac:(lia)). rewrite Hy in H. lia.
    + intros Hle i Hi. rewrite Hy. lia.
  - intros i Hi. rewrite Hsep, !Hy. lia.
Qed.

Lemma card_has_room_for_five_witness :
  y_pos 4 + icon_size <= content_y_start + content_height
  /\ y_pos 4 + icon_size < separator_y 5.
Proof.
  destruct (card_has_room_for_five 5 ltac:(lia)) as (Hpanel & _ & Hrows).
  split.
  - apply Hpanel; lia.
  - apply (Hrows 4). lia.
Defined.

(** ** Numerals of the table *)

Lemma cn_num_map_checked : forallb single_entry_ok cn_num_map = true.
Proof. vm_compute. reflexivity. Qed.

Lemma single_entry_ok_spec k v :
  single_entry_ok ([k], v) = true ->
  flat_map numeral_char [k] = str_of_int v /\ 0 <= v /\
  Z.of_nat (length (str_of_int v)) <= int_max_str_digits.
Proof.
  unfold single_entry_ok. cbn [fst snd]. intros [[H1 H2]%andb_prop H3]%andb_prop.
  apply bool_decide_eq_true_1 in H1. apply Z.leb_le in H2, H3. by split.
Qed.

Lemma cn_num_map_singles k v :
  ([k], v) ∈ cn_num_map ->
  flat_map numeral_char [k] = str_of_int v /\ 0 <= v /\
  Z.of_nat (length (str_of_int v)) <= int_max_str_digits.
Proof.
  intros Hin. apply single_entry_ok_spec.
  pose proof cn_num_map_checked as Hall. rewrite forallb_forall in Hall.
  apply Hall. by apply list_elem_of_In.
Qed.

(** X18. Every single-character numeral of [cn_num_map] stands for its
    value: a request that holds one such character, 一 to 十, 两, 俩 or
    ① to ⑩, between texts without digits and numerals, asks for as many
    rolls as the table says; 零 asks for the default 1. *)
Theorem single_numeral_gives_its_value (pre post : pystr) (k : N) (v : Z) :
  ([k], v) ∈ cn_num_map -> plain pre -> plain post ->
  parse_roll_count (pre ++ [k] ++ post) = Ok (Z.max 1 v).
Proof.
  intros Hin Hpre Hpost.
  destruct (cn_num_map_singles k v Hin) as (Hnum & Hpos & Hlen).
  rewrite (parse_roll_count_middle pre [k] post v) by done.
  by destruct (Z.ltb_spec int_max_str_digits (Z.of_nat (length (str_of_int v))));
    [lia|].
Qed.

Lemma single_numeral_gives_its_value_witness :
  parse_roll_count (u "梭哈" ++ u "两" ++ u "次") = Ok 2
  /\ parse_roll_count (u "梭哈" ++ u "⑩" ++ u "次") = Ok 10.
Proof.
  split.
  - apply (single_numeral_gives_its_value (u "梭哈") (u "次") 0x4E24 2);
      [by_compute|unfold plain; by_compute ..].
  - apply (single_numeral_gives_its_value (u "梭哈") (u "次") 0x2469 10);
      [by_compute|unfold plain; by_compute ..].
Defined.

Lemma cn_num_map_compounds_checked : forallb compound_entry_ok cn_num_map = true.
Proof. vm_compute. reflexivity. Qed.

Lemma compound_entry_ok_spec a b v :
  compound_entry_ok ([a; b], v) = true ->
  flat_map numeral_char [a; b] = str_of_int (compound_reading a b)
  /\ 1 <= compound_reading a b /\ compound_reading a b <> v
  /\ Z.of_nat (length (str_of_int (compound_reading a b))) <= int_max_str_digits.
Proof.
  unfold compound_entry_ok. cbn [fst snd].
  intros [[[H1 H2]%andb_prop H3]%andb_prop H4]%andb_prop.
  apply bool_decide_eq_true_1 in H1. apply Z.leb_le in H2, H4.
  apply negb_true_iff, Z.eqb_neq in H3. by repeat split.
Qed.

(** X19. No two-character key of [cn_num_map] (十一 to 十九, 二十) ever
    yields its table value: in a request that holds such a key between texts
    without digits and numerals, the two characters are replaced one by one
    and the roll count is the number their digits spell, as 102 for 十二 and
    210 for 二十. *)
Theorem compound_numeral_never_gives_its_value (pre post : pystr) (a b : N) (v : Z) :
  ([a; b], v) ∈ cn_num_map -> plain pre -> plain post ->
  parse_roll_count (pre ++ [a; b] ++ post) = Ok (compound_reading a b)
  /\ parse_roll_count (pre ++ [a; b] ++ post) <> Ok v.
Proof.
  intros Hin Hpre Hpost.
  destruct (compound_entry_ok_spec a b v) as (Hnum & Hpos & Hne & Hlen).
  { pose proof cn_num_map_compounds_checked as Hall.
    rewrite forallb_forall in Hall. apply Hall. by apply list_elem_of_In. }
  rewrite (parse_roll_count_middle pre [a; b] post (compound_reading a b));
    [|done|done|lia|done].
  destruct (Z.ltb_spec int_max_str_digits
              (Z.of_nat (length (str_of_int (compound_reading a b))))); [lia|].
  split; [f_equal; lia|]. intros [= H']. lia.
Qed.

Lemma compound_numeral_never_gives_its_value_witness :
  parse_roll_count (u "梭哈" ++ u "二十" ++ u "次") = Ok 210
  /\ parse_roll_count (u "梭哈" ++ u "十二" ++ u "次") <> Ok 12.
Proof.
  split.
  - apply (compound_numeral_never_gives_its_value (u "梭哈") (u "次")
             0x4E8C 0x5341 20); [by_compute|unfold plain; by_compute ..].
  - apply (compound_numeral_never_gives_its_value (u "梭哈") (u "次")
             0x5341 0x4E8C 12); [by_compute|unfold plain; by_compute ..].
Defined.

(** ** Requests that are ignored *)

Lemma starts_with_spec sub s :
  starts_with sub s = true <-> exists post, s = sub ++ post.
Proof.
  unfold starts_with. rewrite bool_decide_eq_true. split.
  - intros H. exists (drop (length sub) s). by rewrite <- H at 1; rewrite take_drop.
  - intros [post ->]. by rewrite take_app_length.
Qed.

Lemma contains_spec sub s :
  contains sub s = true <-> exists pre post, s = pre ++ sub ++ post.
Proof.
  induction s as [|c s IH]; cbn [contains]; rewrite orb_true_iff, starts_with_spec.
  - split.
    + intros [[post H]|?]; [|done]. by exists [], post.
    + intros (pre & post & H). left.
      symmetry in H. apply app_eq_nil in H as [-> H]. by exists post.
  - rewrite IH. split.
    + intros [[post H]|(pre & post & H)]; [by exists [], post|].
      exists (c :: pre), post. by rewrite H.
    + intros ([|c' pre] & post & H); [left; by exists post|].
      right. exists pre, post. by simplify_eq/=.
Qed.

Lemma roll_outcome_nonempty fs today_str user_id user_name count rem fs' evs :
  roll_outcome fs today_str user_id user_name count rem fs' evs -> evs <> [].
Proof. intros [] [_ ?]%app_eq_nil; done. Qed.

(** X20. The roll command returns without having done anything exactly
    when the request text holds 列表 or 结果 somewhere: then it sends
    nothing, generates nothing, logs nothing, raises nothing, writes no
    ledger file and takes no random draw, so that all that happened is the
    [load_config] call of its first line, which creates the configuration
    file when that is missing. Every other request has an effect: a
    message, a generator call, a log entry, or an exception that leaves the
    handler, as [ValueError] does, with nothing else done, when the digits
    are more than [int] converts. *)
Theorem ignored_iff_history_word R config today_str user_id user_name text w :
  let out := gacha_phantom_command R config today_str user_id user_name text w in
  let ignored :=
    (exists pre post, text = pre ++ u "列表" ++ post)
    \/ (exists pre post, text = pre ++ u "结果" ++ post) in
  (out.2 = [] <-> ignored)
  /\ (ignored -> out = (w, []))
  /\ (ignored ->
      forall config_file,
        gacha_phantom_command_from R config_file today_str user_id user_name text w
        = (Some (default default_config config_file), (w, [])))
  /\ (~ ignored ->
      forall e, parse_roll_count text = Raise e ->
                e = ValueError /\ out = (w, [Raised ValueError])).
Proof.
  intros out ignored.
  assert (history_words text = true <-> ignored) as Hwords.
  { unfold history_words, ignored. by rewrite orb_true_iff, !contains_spec. }
  assert (forall config0,
    ignored ->
    gacha_phantom_command R config0 today_str user_id user_name text w = (w, []))
    as Hsilent.
  { intros config0 Hig. apply gacha_phantom_command_silent. by apply Hwords. }
  split; [|split; [|split]].
  - split; [|intros Hig; subst out; by rewrite Hsilent].
    intros Hnil. apply Hwords.
    destruct (history_words text) eqn:Hhist; [done|]. exfalso.
    destruct (parse_roll_count text) as [count|e] eqn:Hparse.
    + destruct (gacha_phantom_command_events R config today_str user_id user_name
                  text w count Hhist Hparse) as (rest & Hevs & Hrest).
      fold out in Hevs. rewrite Hevs in Hnil. apply app_eq_nil in Hnil as [_ Hnil].
      destruct Hrest as [(_ & _ & e & _ & ->)|[(_ & _ & _ & ->)
                        |[(_ & _ & _ & _ & ->)|(_ & Hout)]]]; try done.
      by apply roll_outcome_nonempty in Hout.
    + subst out.
      by rewrite (gacha_phantom_command_int_raises _ _ _ _ _ _ _ e Hhist Hparse)
        in Hnil.
  - intros Hig. by apply Hsilent.
  - intros Hig config_file. unfold gacha_phantom_command_from, load_config.
    destruct config_file as [config0|]; by rewrite Hsilent.
  - intros Hno e Hparse.
    assert (history_words text = false) as Hhist.
    { destruct (history_words text) eqn:H; [|done]. exfalso. by apply Hno, Hwords. }
    assert (e = ValueError) as ->.
    { unfold parse_roll_count in Hparse.
      destruct (re_search_digits (substitute_numerals text)) as [ds|]; [|done].
      rewrite roll_count_of_match_Some in Hparse.
      destruct (_ <? _); by simplify_eq. }
    split; [done|]. by apply gacha_phantom_command_int_raises.
Qed.

(** ** Every roll can come out *)

Lemma randbelow_draw n j tail :
  (j < n)%nat -> randbelow n (j :: tail) = (Ok j, tail).
Proof.
  intros Hj. unfold randbelow, bind, next_draw, ret.
  by rewrite Nat.mod_small.
Qed.

Lemma live_prefix_step {A} (pool : list A) m j t y :
  (j < S m)%nat -> pool !! j = Some t -> pool !! m = Some y ->
  t :: take m (<[j := y]> pool) ≡ₚ take (S m) pool.
Proof.
  intros Hj Ht Hy.
  rewrite (take_S_r pool m y Hy), <- Permutation_cons_append.
  destruct (decide (j = m)) as [->|Hne].
  - rewrite list_insert_id by done. by simplify_eq.
  - rewrite take_insert_lt by lia. apply swap_out_Permutation.
    rewrite lookup_take_lt by lia. done.
Qed.

(** With the right draws the pool loop returns any list of different
    elements of the live part of a pool without repetitions. *)
Lemma sample_loop_reaches {A} (pool : list A) n i (targets : list A) :
  length pool = n -> (i <= n)%nat ->
  NoDup (take (n - i) pool) -> NoDup targets ->
  targets ⊆ take (n - i) pool ->
  exists draws,
    length draws = length targets /\
    forall tail,
      sample_loop pool n (length targets) i (draws ++ tail) = (Ok targets, tail).
Proof.
  revert pool i. induction targets as [|t ts IH]; intros pool i Hlen Hi Hnd Hts Hsub.
  { by exists []. }
  apply NoDup_cons in Hts as [Ht Hts].
  assert (t ∈ take (n - i) pool) as Hin by (apply Hsub; by left).
  apply list_elem_of_lookup in Hin as [j Hj].
  pose proof (lookup_lt_Some _ _ _ Hj) as Hjlt. rewrite length_take in Hjlt.
  assert (pool !! j = Some t) as Hpj by (rewrite lookup_take_lt in Hj by lia; done).
  destruct (lookup_lt_is_Some_2 pool (n - i - 1)) as [y Hy]; [lia|].
  assert (t :: take (n - i - 1) (<[j := y]> pool) ≡ₚ take (n - i) pool) as Hperm.
  { replace (n - i)%nat with (S (n - i - 1)) at 2 by lia.
    apply live_prefix_step; [lia|done|done]. }
  destruct (IH (<[j := y]> pool) (S i)) as (draws & Hdraws & Hrun).
  - by rewrite length_insert.
  - lia.
  - replace (n - S i)%nat with (n - i - 1)%nat by lia.
    rewrite <- Hperm in Hnd. by apply NoDup_cons in Hnd as [_ ?].
  - done.
  - replace (n - S i)%nat with (n - i - 1)%nat by lia.
    intros x Hx. assert (x ∈ t :: take (n - i - 1) (<[j := y]> pool)) as Hx'.
    { rewrite Hperm. apply Hsub. by right. }
    apply elem_of_cons in Hx' as [->|Hx']; [done|done].
  - exists (j :: draws). split; [simpl; by rewrite Hdraws|].
    intros tail. cbn [length sample_loop app]. unfold bind at 1.
    rewrite randbelow_draw by lia. rewrite Hpj, Hy.
    unfold bind, ret. by rewrite Hrun.
Qed.

Lemma sample_loop_fmap {A B} (f : A -> B) (pool : list A) n todo i r :
  sample_loop (f <$> pool) n todo i r
  = (match (sample_loop pool n todo i r).1 with
     | Ok res => Ok (f <$> res)
     | Raise e => Raise e
     end,
     (sample_loop pool n todo i r).2).
Proof.
  revert pool i r. induction todo as [|todo IH]; intros pool i r; [done|].
  cbn [sample_loop]. unfold bind at 1 3 5.
  destruct (randbelow (n - i) r) as [[j|e] r1]; [|done].
  rewrite !list_lookup_fmap.
  destruct (pool !! j) as [x|]; [|done].
  destruct (pool !! (n - i - 1)%nat) as [y|]; [|done]. cbn [fmap option_fmap option_map].
  unfold bind, ret. rewrite <- list_fmap_insert, IH.
  by destruct (sample_loop (<[j:=y]> pool) n todo (S i) r1) as [[res|e] r2].
Qed.

(** [random.sample] can return the elements at any different positions of
    the population, in any order. *)
Lemma sample_reaches {A} (population : list A) (idx : list nat) (res : list A) :
  NoDup idx ->
  Forall2 (fun i x => population !! i = Some x) idx res ->
  exists draws,
    length draws = length idx /\
    forall tail,
      sample population (Z.of_nat (length idx)) (draws ++ tail) = (Ok res, tail).
Proof.
  intros Hnd Hall.
  set (n := length population).
  set (pool := zip (seq 0 n) population).
  assert (length pool = n) as Hpool.
  { subst pool. rewrite length_zip_with, length_seq. lia. }
  assert (population = snd <$> pool) as Hpop.
  { subst pool. rewrite snd_zip; [done|]. rewrite length_seq. lia. }
  assert (NoDup pool) as Hnd_pool.
  { apply (NoDup_fmap_1 fst). subst pool.
    rewrite fst_zip by (rewrite length_seq; lia). apply NoDup_seq. }
  assert (length idx = length res) as Hlen by by eapply Forall2_length.
  assert (zip idx res ⊆ pool) as Hsub.
  { intros [i x] Hin. apply list_elem_of_lookup in Hin as [k Hk].
    apply lookup_zip_with_Some in Hk as (i' & x' & [= <- <-] & Hi & Hx).
    pose proof (Forall2_lookup_lr _ _ _ _ _ _ Hall Hi Hx) as Hix.
    apply (list_elem_of_lookup_2 _ i). subst pool.
    apply lookup_zip_with_Some. exists i, x. split; [done|]. split; [|done].
    apply lookup_seq. split; [done|]. by apply lookup_lt_Some in Hix. }
  assert (NoDup (zip idx res)) as Hnd_t.
  { apply (NoDup_fmap_1 fst). by rewrite fst_zip by lia. }
  assert (length (zip idx res) = length idx) as Hlen_t
    by (rewrite length_zip_with; lia).
  destruct (sample_loop_reaches pool n 0 (zip idx res)) as (draws & Hdraws & Hrun);
    [done|lia|by rewrite Nat.sub_0_r, firstn_all2 by lia|done
    |by rewrite Nat.sub_0_r, firstn_all2 by lia|].
  exists draws. split; [lia|]. intros tail. unfold sample.
  assert (length idx <= n)%nat as Hle.
  { rewrite <- Hlen_t, <- Hpool. apply NoDup_submseteq in Hsub; [|done].
    by apply submseteq_length. }
  destruct (Z.ltb_spec (Z.of_nat (length idx)) 0) as [?|_]; [lia|].
  fold n. destruct (Z.ltb_spec (Z.of_nat n) (Z.of_nat (length idx))) as [?|_]; [lia|].
  cbn [orb]. rewrite Nat2Z.id, Hpop at 1.
  rewrite sample_loop_fmap, <- Hlen_t, Hrun. cbn [fst snd].
  by rewrite snd_zip by lia.
Qed.

Lemma roll_stat_reaches sc v :
  v ∈ values sc ->
  exists j, forall tail, exists s,
    roll_stat sc (j :: tail) = (Ok s, tail) /\ value s = v /\ rolled_from sc s.
Proof.
  intros Hv. pose proof Hv as Hin.
  apply list_elem_of_lookup in Hv as [j Hj].
  pose proof (lookup_lt_Some _ _ _ Hj) as Hlt.
  exists j. intros tail. unfold roll_stat, choice.
  destruct (values sc) as [|x l] eqn:Hvals; [by inversion Hin|].
  unfold bind at 1 2. rewrite randbelow_draw by done. rewrite Hj.
  unfold ret at 1. unfold bind, lift, ret. cbn [py_max].
  eexists. split; [done|]. split; [done|].
  unfold rolled_from. cbn [name icon is_percent value]. by rewrite Hvals.
Qed.

Lemma roll_stats_reaches scs vals :
  Forall2 (fun sc v => v ∈ values sc) scs vals ->
  exists draws, forall tail, exists stats,
    roll_stats scs (draws ++ tail) = (Ok stats, tail) /\
    value <$> stats = vals /\ Forall2 rolled_from scs stats.
Proof.
  induction 1 as [|sc v scs vals Hv _ (draws & IH)].
  { exists []. intros tail. by exists []. }
  destruct (roll_stat_reaches sc v Hv) as [j Hj].
  exists (j :: draws). intros tail.
  destruct (Hj (draws ++ tail)) as (s & Hs & Hval & Hfrom).
  destruct (IH tail) as (stats & Hstats & Hvals & Hall).
  exists (s :: stats). cbn [roll_stats app]. unfold bind, ret.
  rewrite Hs, Hstats. split; [done|]. split; [by rewrite fmap_cons, Hval, Hvals|].
  by constructor.
Qed.

(** X21 (generate_phantom_stats): the generator excludes no outcome.  Take
    any list of different positions of the substat table, as many as the
    generator selects, and for each of them any of its candidate values:
    some sequence of draws makes the generator return exactly these
    substats, in this order and with these values, and uses the draws up. *)
Theorem every_roll_can_come_out (config : Config) (idx : list nat)
    (scs : list StatConfig) (vals : list Q) :
  NoDup idx ->
  Z.of_nat (length idx)
    = Z.min (stats_count (settings config)) (Z.of_nat (length (substats config))) ->
  Forall2 (fun i sc => substats config !! i = Some sc) idx scs ->
  Forall2 (fun sc v => v ∈ values sc) scs vals ->
  exists tape stats,
    generate_phantom_stats config tape = (Ok stats, []) /\
    value <$> stats = vals /\
    Forall2 rolled_from scs stats.
Proof.
  intros Hnd Hlen Hidx Hvals.
  destruct (sample_reaches (substats config) idx scs Hnd Hidx) as (d1 & _ & Hsample).
  destruct (roll_stats_reaches scs vals Hvals) as (d2 & Hroll).
  destruct (Hroll []) as (stats & Hstats & Hv & Hall).
  exists (d1 ++ d2 ++ []), stats. split; [|done].
  unfold generate_phantom_stats, bind. by rewrite <- Hlen, Hsample.
Qed.

Lemma every_roll_can_come_out_witness :
  exists tape stats,
    generate_phantom_stats default_config tape = (Ok stats, []) /\
    value <$> stats = [9.3; 30; 11.6; 6.4; 580]%Q /\
    Forall2 rolled_from
      (omap (fun i => substats default_config !! i) [6; 0; 1; 12; 2]%nat) stats.
Proof.
  apply (every_roll_can_come_out default_config [6; 0; 1; 12; 2]%nat).
  - by_compute.
  - reflexivity.
  - vm_compute. repeat constructor.
  - vm_compute. repeat constructor.
Defined.

(** ** The grid of [combine_images] *)

Lemma holds_from_spec f first count n :
  holds_from f first count = true ->
  first <= n < first + Z.of_nat count -> f n = true.
Proof.
  revert first. induction count as [|count IH]; intros first Hall Hn; [lia|].
  cbn [holds_from] in Hall. apply andb_true_iff in Hall as [Hfirst Hall].
  destruct (decide (n = first)) as [->|Hne]; [done|].
  apply (IH (first + 1)); [done|lia].
Qed.

Lemma grid_checked :
  holds_from grid_ok 2 (Z.to_nat (most_images - 1)) = true.
Proof. vm_compute. reflexivity. Qed.

Lemma grid_spec n :
  2 <= n <= most_images ->
  exists cols rows,
    grid n = Some (cols, rows) /\
    (cols - 1) * (cols - 1) < n <= cols * cols /\
    (rows - 1) * cols < n <= rows * cols.
Proof.
  intros Hn. pose proof (holds_from_spec _ _ _ n grid_checked) as Hok.
  unfold most_images in *.
  specialize (Hok ltac:(lia)). unfold grid_ok in Hok.
  destruct (grid n) as [[cols rows]|]; [|done].
  exists cols, rows. split; [done|].
  repeat (apply andb_true_iff in Hok as [Hok ?]). lia.
Qed.

(** X22 (combine_images): for two to ten thousand images the floating
    point computation of the grid gives the least number of columns whose
    square holds all images, and the least number of rows of that many
    columns that holds them: rounding loses no cell and adds no empty row
    or column. *)
Theorem grid_is_least_square (n : Z) :
  2 <= n <= most_images ->
  exists cols rows,
    grid n = Some (cols, rows) /\
    0 < rows <= cols /\
    n <= cols * cols /\ (forall c, 0 <= c -> n <= c * c -> cols <= c) /\
    n <= rows * cols /\ (forall r, n <= r * cols -> rows <= r).
Proof.
  intros Hn. destruct (grid_spec n Hn) as (cols & rows & Hgrid & Hc & Hr).
  exists cols, rows. split; [done|].
  assert (0 < cols) by nia.
  split; [nia|]. split; [lia|]. split; [intros c ? ?; nia|].
  split; [lia|]. intros r ?; nia.
Qed.

Lemma grid_is_least_square_witness :
  exists cols rows,
    grid 7 = Some (cols, rows) /\
    0 < rows <= cols /\
    7 <= cols * cols /\ (forall c, 0 <= c -> 7 <= c * c -> cols <= c) /\
    7 <= rows * cols /\ (forall r, 7 <= r * cols -> rows <= r).
Proof. apply (grid_is_least_square 7). unfold most_images. lia. Defined.

(** X23 (combine_images): two to ten thousand images of the size of the
    first one are all pasted, in their order, each inside the new image
    with the padding free on every side, and any two of them with at least
    the padding between them. *)
Theorem pasted_images_keep_apart {image : Type} (size : image -> Z * Z)
    (images : list image) (first : image) (single_w single_h : Z) :
  2 <= Z.of_nat (length images) <= most_images ->
  head images = Some first ->
  size first = (single_w, single_h) ->
  0 <= single_w -> 0 <= single_h ->
  exists total_w total_h pasted,
    combine_images size images = Some (Combined total_w total_h pasted) /\
    pasted.*1 = images /\
    (forall i img x y,
        pasted !! i = Some (img, (x, y)) ->
        padding <= x /\ x + single_w + padding <= total_w /\
        padding <= y /\ y + single_h + padding <= total_h) /\
    (forall i j img1 x1 y1 img2 x2 y2,
        i <> j ->
        pasted !! i = Some (img1, (x1, y1)) ->
        pasted !! j = Some (img2, (x2, y2)) ->
        x1 + single_w + padding <= x2 \/ x2 + single_w + padding <= x1 \/
        y1 + single_h + padding <= y2 \/ y2 + single_h + padding <= y1).
Proof.
  intros Hn Hfirst Hsize Hw Hh.
  destruct (grid_spec _ Hn) as (cols & rows & Hgrid & Hc & Hr).
  assert (0 < cols) as Hcols by nia.
  unfold combine_images.
  destruct images as [|first' rest] eqn:Himages; [done|].
  cbn [head] in Hfirst. injection Hfirst as ->. rewrite <- Himages in *.
  destruct (Z.eqb_spec (Z.of_nat (length images)) 1) as [?|_]; [lia|].
  rewrite Hsize, Hgrid.
  eexists _, _, _. split; [done|].
  assert (forall i img x y,
    imap (fun (i : nat) (img : image) =>
            (img, (Z.of_nat i mod cols * (single_w + padding) + padding,
                   Z.of_nat i / cols * (single_h + padding) + padding)))
         images !! i = Some (img, (x, y)) ->
    (i < length images)%nat /\
    x = Z.of_nat i mod cols * (single_w + padding) + padding /\
    y = Z.of_nat i / cols * (single_h + padding) + padding) as Hat.
  { intros i img x y Hi. rewrite list_lookup_imap in Hi.
    destruct (images !! i) as [img'|] eqn:Himg; [|done].
    apply lookup_lt_Some in Himg. cbn in Hi. by simplify_eq. }
  split; [|split].
  - apply list_eq. intros i. rewrite list_lookup_fmap, list_lookup_imap.
    by destruct (images !! i).
  - intros i img x y Hi. apply Hat in Hi as (Hlt & -> & ->).
    pose proof (Z.mod_pos_bound (Z.of_nat i) cols Hcols).
    assert (0 <= Z.of_nat i / cols) by (apply Z.div_pos; lia).
    assert (Z.of_nat i / cols < rows).
    { apply Z.div_lt_upper_bound; [done|]. nia. }
    unfold padding. nia.
  - intros i j img1 x1 y1 img2 x2 y2 Hij Hi Hj.
    apply Hat in Hi as (_ & -> & ->). apply Hat in Hj as (_ & -> & ->).
    pose proof (Z.div_mod (Z.of_nat i) cols ltac:(lia)).
    pose proof (Z.div_mod (Z.of_nat j) cols ltac:(lia)).
    unfold padding.
    destruct (Z.lt_total (Z.of_nat i mod cols) (Z.of_nat j mod cols))
      as [?|[Hcol|?]]; [left; nia| |right; left; nia].
    destruct (Z.lt_total (Z.of_nat i / cols) (Z.of_nat j / cols))
      as [?|[Hrow|?]]; [right; right; left; nia| |right; right; right; nia].
    lia.
Qed.

Lemma pasted_images_keep_apart_witness :
  exists total_w total_h pasted,
    combine_images (fun _ : nat => (540, 680))
                   [1; 2; 3; 4; 5]%nat = Some (Combined total_w total_h pasted) /\
    pasted.*1 = [1; 2; 3; 4; 5]%nat /\
    (forall i img x y,
        pasted !! i = Some (img, (x, y)) ->
        padding <= x /\ x + 540 + padding <= total_w /\
        padding <= y /\ y + 680 + padding <= total_h) /\
    (forall i j img1 x1 y1 img2 x2 y2,
        i <> j ->
        pasted !! i = Some (img1, (x1, y1)) ->
        pasted !! j = Some (img2, (x2, y2)) ->
        x1 + 540 + padding <= x2 \/ x2 + 540 + padding <= x1 \/
        y1 + 680 + padding <= y2 \/ y2 + 680 + padding <= y1).
Proof.
  apply (pasted_images_keep_apart (fun _ : nat => (540, 680))
           [1; 2; 3; 4; 5]%nat 1%nat 540 680).
  - unfold most_images. simpl. lia.
  - reflexivity.
  - reflexivity.
  - lia.
  - lia.
Defined.
